(** * Hosting supervisor and traffic router of [index.py]

    A shallow embedding of [BotRegistry] (register, unregister,
    process_update), of the upload handler [process_bot_code] and of the two
    HTTP handlers [hosted_webhook] and [site_proxy], together with the
    properties of the registry that the platform's specification states.

    Python values are modelled as the code has them: [self._bots] is an
    insertion-ordered dictionary (an association list without duplicate
    keys, because [site_proxy] iterates over [values()] and [register] uses
    [len]); each record is a dictionary with string keys (a [gmap]); the
    file system, the process table and the calls made on process handles are
    explicit components of the state that the operations thread through a
    small state-and-exception monad.  What comes from outside the process
    (the answer of the bot API, the outcome of a spawn, the downstream of the
    proxy, a child that exits on its own) enters as an argument of the
    operation or as an operation of its own.

    Around the registry the file also embeds what the platform does with
    it: [get_bot] and [shutdown], the loading of the stored bots at start-up,
    the rate limiter, the translation tables with [get] and [get_keyboard],
    a round of [cleanup_task], the database layer (its SQL statements as
    functions on the rows of the four tables) and the handler
    [process_remove_select].

    The file has four parts: the model of the registry, the vocabulary of
    the statements, the rest of the platform, and the properties. *)

From Stdlib Require Import ZArith List Ascii String Bool Lia.
From stdpp Require Import base option gmap strings list pretty.

Local Open Scope string_scope.

(** * The model

    ** Strings *)

Module Str.

(** [s.endswith(suffix)] *)
Fixpoint endswith (s suffix : string) : bool :=
  if String.eqb s suffix then true
  else match s with
       | EmptyString => false
       | String _ s' => endswith s' suffix
       end.

(** [c in s] for a one-character needle *)
Fixpoint contains (c : ascii) (s : string) : bool :=
  match s with
  | EmptyString => false
  | String a s' => if Ascii.eqb a c then true else contains c s'
  end.

(** [s[len(p):]] when [s.startswith(p)] *)
Fixpoint strip_prefix (p s : string) : option string :=
  match p, s with
  | EmptyString, _ => Some s
  | String a p', String b s' =>
      if Ascii.eqb a b then strip_prefix p' s' else None
  | String _ _, EmptyString => None
  end.

(** the part of [s] before its first ["/"] *)
Fixpoint until_slash (s : string) : string :=
  match s with
  | EmptyString => EmptyString
  | String a s' =>
      if Ascii.eqb a "/" then EmptyString else String a (until_slash s')
  end.

(** [os.path.basename] *)
Fixpoint basename_acc (acc s : string) : string :=
  match s with
  | EmptyString => acc
  | String a s' =>
      if Ascii.eqb a "/" then basename_acc EmptyString s'
      else basename_acc (acc ++ String a EmptyString) s'
  end.

Definition basename (s : string) : string := basename_acc EmptyString s.

(** [s.split("/")] *)
Fixpoint split_acc (acc s : string) : list string :=
  match s with
  | EmptyString => [acc]
  | String a s' =>
      if Ascii.eqb a "/" then acc :: split_acc EmptyString s'
      else split_acc (acc ++ String a EmptyString) s'
  end.

Definition split_slash (s : string) : list string := split_acc EmptyString s.

(** ["/".join(l)] *)
Definition join_slash (l : list string) : string := String.concat "/" l.

(** Python truthiness of an optional string: [None] and [""] are false. *)
Definition truthy (o : option string) : bool :=
  match o with
  | None => false
  | Some s => negb (String.eqb s "")
  end.

Definition bytes (s : string) : list Z :=
  map (fun a => Z.of_N (N_of_ascii a)) (list_ascii_of_string s).

End Str.

(** ** [hashlib.md5(...).hexdigest()] (RFC 1321), on 32-bit words held in [Z] *)

Module MD5.

Local Open Scope Z_scope.

Definition mask32 : Z := 0xFFFFFFFF.
Definition add32 (a b : Z) : Z := Z.land (a + b) mask32.
Definition not32 (a : Z) : Z := Z.lxor a mask32.
Definition rotl32 (x : Z) (c : Z) : Z :=
  Z.land (Z.lor (Z.shiftl x c) (Z.shiftr x (32 - c))) mask32.

Definition K : list Z :=
  [ 0xd76aa478; 0xe8c7b756; 0x242070db; 0xc1bdceee;
    0xf57c0faf; 0x4787c62a; 0xa8304613; 0xfd469501;
    0x698098d8; 0x8b44f7af; 0xffff5bb1; 0x895cd7be;
    0x6b901122; 0xfd987193; 0xa679438e; 0x49b40821;
    0xf61e2562; 0xc040b340; 0x265e5a51; 0xe9b6c7aa;
    0xd62f105d; 0x02441453; 0xd8a1e681; 0xe7d3fbc8;
    0x21e1cde6; 0xc33707d6; 0xf4d50d87; 0x455a14ed;
    0xa9e3e905; 0xfcefa3f8; 0x676f02d9; 0x8d2a4c8a;
    0xfffa3942; 0x8771f681; 0x6d9d6122; 0xfde5380c;
    0xa4beea44; 0x4bdecfa9; 0xf6bb4b60; 0xbebfbc70;
    0x289b7ec6; 0xeaa127fa; 0xd4ef3085; 0x04881d05;
    0xd9d4d039; 0xe6db99e5; 0x1fa27cf8; 0xc4ac5665;
    0xf4292244; 0x432aff97; 0xab9423a7; 0xfc93a039;
    0x655b59c3; 0x8f0ccc92; 0xffeff47d; 0x85845dd1;
    0x6fa87e4f; 0xfe2ce6e0; 0xa3014314; 0x4e0811a1;
    0xf7537e82; 0xbd3af235; 0x2ad7d2bb; 0xeb86d391 ].

Definition R : list Z :=
  [ 7; 12; 17; 22; 7; 12; 17; 22; 7; 12; 17; 22; 7; 12; 17; 22;
    5; 9; 14; 20; 5; 9; 14; 20; 5; 9; 14; 20; 5; 9; 14; 20;
    4; 11; 16; 23; 4; 11; 16; 23; 4; 11; 16; 23; 4; 11; 16; 23;
    6; 10; 15; 21; 6; 10; 15; 21; 6; 10; 15; 21; 6; 10; 15; 21 ].

(** little-endian bytes of a word, and back *)
Definition le_bytes (n : nat) (x : Z) : list Z :=
  map (fun i => Z.land (Z.shiftr x (8 * Z.of_nat i)) 0xFF) (seq 0 n).

Fixpoint le_word (bs : list Z) : Z :=
  match bs with
  | [] => 0
  | b :: bs' => Z.lor b (Z.shiftl (le_word bs') 8)
  end.

Definition pad (msg : list Z) : list Z :=
  let len := Z.of_nat (length msg) in
  let zeros := Z.to_nat ((55 - len) mod 64) in
  msg ++ [0x80] ++ repeat 0 zeros ++ le_bytes 8 (Z.land (8 * len) 0xFFFFFFFFFFFFFFFF).

Fixpoint chunks (fuel n : nat) (l : list Z) : list (list Z) :=
  match fuel with
  | O => []
  | S fuel' =>
      match l with
      | [] => []
      | _ => firstn n l :: chunks fuel' n (skipn n l)
      end
  end.

Definition words (block : list Z) : list Z :=
  map le_word (chunks 16 4 block).

Definition state : Type := Z * Z * Z * Z.

Definition round (M : list Z) (st : state) (i : nat) : state :=
  let '(A, B, C, D) := st in
  let iz := Z.of_nat i in
  let '(F, g) :=
    if iz <? 16 then (Z.lor (Z.land B C) (Z.land (not32 B) D), iz)
    else if iz <? 32 then (Z.lor (Z.land D B) (Z.land (not32 D) C), (5 * iz + 1) mod 16)
    else if iz <? 48 then (Z.lxor (Z.lxor B C) D, (3 * iz + 5) mod 16)
    else (Z.lxor C (Z.lor B (not32 D)), (7 * iz) mod 16) in
  let F' := add32 (add32 (add32 F A) (nth i K 0)) (nth (Z.to_nat g) M 0) in
  (D, add32 B (rotl32 F' (nth i R 0)), B, C).

Definition compress (st : state) (block : list Z) : state :=
  let '(a0, b0, c0, d0) := st in
  let '(A, B, C, D) := fold_left (round (words block)) (seq 0 64) st in
  (add32 a0 A, add32 b0 B, add32 c0 C, add32 d0 D).

Definition digest (msg : list Z) : list Z :=
  let p := pad msg in
  let '(a, b, c, d) :=
    fold_left compress (chunks (length p) 64 p)
              (0x67452301, 0xefcdab89, 0x98badcfe, 0x10325476) in
  le_bytes 4 a ++ le_bytes 4 b ++ le_bytes 4 c ++ le_bytes 4 d.

Definition hex_digit (n : Z) : ascii :=
  nth (Z.to_nat n) (list_ascii_of_string "0123456789abcdef") "0"%char.

Fixpoint hex (bs : list Z) : string :=
  match bs with
  | [] => EmptyString
  | b :: bs' =>
      String (hex_digit (Z.shiftr b 4)) (String (hex_digit (Z.land b 0xF)) (hex bs'))
  end.

(** [hashlib.md5(s.encode()).hexdigest()]; a [string] holds the UTF-8
    bytes of the Python text. *)
Definition hexdigest (s : string) : string := hex (digest (Str.bytes s)).

End MD5.

(** ** Python values, dictionaries and exceptions *)

(** The values the registry stores.  [VProc pid] is an
    [asyncio.subprocess.Process] object, named by the index of its process
    in the process table. *)
Inductive pyval : Type :=
| VNone
| VBool (b : bool)
| VInt (z : Z)
| VStr (s : string)
| VProc (pid : nat).

#[global] Instance pyval_eq_dec : EqDecision pyval.
Proof. solve_decision. Defined.

Abbreviation pydict := (gmap string pyval).

(** [bool(v)] *)
Definition truthy_val (v : pyval) : bool :=
  match v with
  | VNone => false
  | VBool b => b
  | VInt z => negb (z =? 0)%Z
  | VStr s => negb (String.eqb s "")
  | VProc _ => true
  end.

(** [str(v)] *)
Definition py_str (v : pyval) : string :=
  match v with
  | VNone => "None"
  | VBool b => if b then "True" else "False"
  | VInt z => pretty z
  | VStr s => s
  | VProc pid => "<Process " ++ pretty pid ++ ">"
  end.

(** An insertion-ordered dictionary with string keys: [d[k]], [d[k] = v]
    (in place when [k] is present, appended otherwise) and [del d[k]]. *)
Module Dict.
Section Ops.
Context {V : Type}.

Fixpoint get (k : string) (d : list (string * V)) : option V :=
  match d with
  | [] => None
  | (k', v) :: d' => if String.eqb k k' then Some v else get k d'
  end.

Fixpoint set (k : string) (v : V) (d : list (string * V)) : list (string * V) :=
  match d with
  | [] => [(k, v)]
  | (k', v') :: d' =>
      if String.eqb k k' then (k, v) :: d' else (k', v') :: set k v d'
  end.

Fixpoint del (k : string) (d : list (string * V)) : list (string * V) :=
  match d with
  | [] => []
  | (k', v') :: d' =>
      if String.eqb k k' then d' else (k', v') :: del k d'
  end.

Definition mem (k : string) (d : list (string * V)) : bool :=
  match get k d with Some _ => true | None => false end.

Definition keys (d : list (string * V)) : list string := fst <$> d.
Definition values (d : list (string * V)) : list V := snd <$> d.
End Ops.
End Dict.

Inductive exn : Type :=
| KeyError (key : string)
| TypeError
| AttributeError
| ValidationError
| JSONDecodeError
| ProcessLookupError
| TimeoutError
| FileNotFoundError (path : string)
| FileExistsError (path : string)
| IsADirectoryError (path : string)
| NotADirectoryError (path : string)
| BadZipFile
| TokenValidationError (msg : string)
| ClientError (msg : string)
| NameError (name : string)
| OperationalError (msg : string).

(** [str(e)] *)
Definition str_exn (e : exn) : string :=
  match e with
  | KeyError k => "'" ++ k ++ "'"
  | TypeError => "unsupported operand type(s)"
  | AttributeError => "object has no attribute"
  | ValidationError => "validation error for Update"
  | JSONDecodeError => "Expecting value"
  | ProcessLookupError => ""
  | TimeoutError => ""
  | FileNotFoundError p => "[Errno 2] No such file or directory: '" ++ p ++ "'"
  | FileExistsError p => "[Errno 17] File exists: '" ++ p ++ "'"
  | IsADirectoryError p => "[Errno 21] Is a directory: '" ++ p ++ "'"
  | NotADirectoryError p => "[Errno 20] Not a directory: '" ++ p ++ "'"
  | BadZipFile => "File is not a zip file"
  | TokenValidationError msg => msg
  | ClientError msg => msg
  | NameError name => "name '" ++ name ++ "' is not defined"
  | OperationalError msg => msg
  end.

(** ** The state of the platform *)

(** A node of the file system.  [Zip] is a regular file whose bytes are a
    zip archive with the given members (name, content), in archive order; a
    name that ends with a slash is a directory member. *)
Inductive fnode : Type :=
| Dir
| File (content : string)
| Zip (members : list (string * string)).

Inductive pstatus : Type := Running | Exited.

(** A child process as [asyncio.create_subprocess_exec] started it.
    [p_coop] says whether the program exits within the grace period once it
    receives the termination signal. *)
Record proc : Type := Proc {
  p_cmd : list string;
  p_cwd : string;
  p_env : list (string * string);
  p_coop : bool;
  p_status : pstatus
}.

(** Calls made on a process handle. *)
Inductive call : Type :=
| Terminate (pid : nat)
| Wait (pid : nat)
| Kill (pid : nat).

#[global] Instance call_eq_dec : EqDecision call.
Proof. solve_decision. Defined.

Record world : Type := World {
  bots : list (string * pydict);          (* self._bots *)
  fs : list (string * fnode);             (* absolute path |-> node, in enumeration order *)
  procs : list proc;                      (* every process launched so far; pid = index *)
  calls : list call;                      (* oldest first *)
  relays : list (nat * string);           (* _log_stream tasks: process, prefix *)
  db_stats : list (string * bool);        (* db.increment_stats(token, is_message) *)
  db_bots : list (string * string * string); (* db.add_bot(owner, token, name, username) *)
  fed : list (string * pydict)            (* dp.feed_update(bot, update) *)
}.

Definition set_bots (f : list (string * pydict) → list (string * pydict)) (w : world) : world :=
  World (f (bots w)) (fs w) (procs w) (calls w) (relays w) (db_stats w) (db_bots w) (fed w).
Definition set_fs (f : list (string * fnode) → list (string * fnode)) (w : world) : world :=
  World (bots w) (f (fs w)) (procs w) (calls w) (relays w) (db_stats w) (db_bots w) (fed w).
Definition set_procs (f : list proc → list proc) (w : world) : world :=
  World (bots w) (fs w) (f (procs w)) (calls w) (relays w) (db_stats w) (db_bots w) (fed w).
Definition add_call (c : call) (w : world) : world :=
  World (bots w) (fs w) (procs w) (calls w ++ [c]) (relays w) (db_stats w) (db_bots w) (fed w).
Definition add_relay (r : nat * string) (w : world) : world :=
  World (bots w) (fs w) (procs w) (calls w) (relays w ++ [r]) (db_stats w) (db_bots w) (fed w).
Definition add_stat (r : string * bool) (w : world) : world :=
  World (bots w) (fs w) (procs w) (calls w) (relays w) (db_stats w ++ [r]) (db_bots w) (fed w).
Definition add_db_bot (r : string * string * string) (w : world) : world :=
  World (bots w) (fs w) (procs w) (calls w) (relays w) (db_stats w) (db_bots w ++ [r]) (fed w).
Definition add_fed (r : string * pydict) (w : world) : world :=
  World (bots w) (fs w) (procs w) (calls w) (relays w) (db_stats w) (db_bots w) (fed w ++ [r]).

(** The platform right after [create_app]: an empty registry, no child
    process, and whatever the disk holds. *)
Definition init_world (fs0 : list (string * fnode)) : world :=
  World [] fs0 [] [] [] [] [] [].

(** ** A state-and-exception monad for the bodies of the handlers *)

Inductive res (A : Type) : Type :=
| Ok (a : A)
| Raise (e : exn).
Arguments Ok {A} a.
Arguments Raise {A} e.

Definition M (A : Type) : Type := world → res A * world.

Definition ret {A} (a : A) : M A := fun w => (Ok a, w).
Definition raise {A} (e : exn) : M A := fun w => (Raise e, w).
Definition bind {A B} (c : M A) (k : A → M B) : M B :=
  fun w => match c w with
           | (Ok a, w') => k a w'
           | (Raise e, w') => (Raise e, w')
           end.
Definition get_world : M world := fun w => (Ok w, w).
Definition modify (f : world → world) : M unit := fun w => (Ok tt, f w).

(** [try: c  except Exception as e: h e] *)
Definition try_except {A} (c : M A) (h : exn → M A) : M A :=
  fun w => match c w with
           | (Ok a, w') => (Ok a, w')
           | (Raise e, w') => h e w'
           end.

Declare Scope py_scope.
Delimit Scope py_scope with py.
Notation "x <- c ;; k" := (bind c (fun x => k))
  (at level 100, c at next level, right associativity) : py_scope.
Notation "c ;; k" := (bind c (fun _ => k))
  (at level 100, right associativity) : py_scope.
Local Open Scope py_scope.

(** [d[k]] on a record: raises [KeyError] when the key is missing. *)
Definition getitem (d : pydict) (k : string) : M pyval :=
  match d !! k with
  | Some v => ret v
  | None => raise (KeyError k)
  end.

(** ** The host: what the program reads from its environment *)

Record Host : Type := {
  cwd : string;                      (* os.getcwd(): absolute, normalised; the program never changes it *)
  sys_executable : string;           (* sys.executable *)
  default_service_tail : string;     (* DEFAULT_SERVICE_CODE after its leading newline *)
  os_environ : list (string * string) (* os.environ *)
}.

(** The module constant [DEFAULT_SERVICE_CODE]: a triple-quoted literal that
    opens with a line break; its remaining text is left to the host. *)
Definition DEFAULT_SERVICE_CODE (host : Host) : string :=
  String "010"%char (default_service_tail host).

(** The outcome of spawning a child: it runs, or the spawn raises (the
    runtime is not installed, say). *)
Inductive spawn_outcome : Type :=
| Spawned (cooperative : bool)
| SpawnFails (e : exn).

(** What a call of [register] gets from outside the process: the exception
    that the constructor [Bot(token=token)] raises on a malformed token, if
    any; the answer of [bot.get_me()] ([None]: it raised or timed out); and
    the outcome of spawning the child. *)
Record oracle : Type := Oracle {
  new_bot : option exn;
  get_me : option string;
  spawn : spawn_outcome
}.

(** ** File system *)

(** [os.path.join(a, b)] *)
Definition path_join (a b : string) : string :=
  match b with
  | String "/"%char _ => b
  | _ => if String.eqb a "" || Str.endswith a "/" then a ++ b else a ++ "/" ++ b
  end.

(** [os.path.abspath(p)] for the relative paths the program builds
    ([hosted_apps/app_<digest>], [tmp_<file name>] for a plain file name),
    which have no [.] or [..] segment. *)
Definition abspath (host : Host) (p : string) : string := path_join (cwd host) p.

(** [os.makedirs(p, exist_ok=True)]; directories above [p] are implied by
    the paths below them. *)
Definition makedirs (p : string) : M unit :=
  fun w => match Dict.get p (fs w) with
           | Some Dir => (Ok tt, w)
           | Some _ => (Raise (FileExistsError p), w)
           | None => (Ok tt, set_fs (Dict.set p Dir) w)
           end.

(** Creating or truncating the file at [p] and storing [n] there. *)
Definition write_node (p : string) (n : fnode) : M unit :=
  fun w => match Dict.get p (fs w) with
           | Some Dir => (Raise (IsADirectoryError p), w)
           | _ => (Ok tt, set_fs (Dict.set p n) w)
           end.

(** [with open(p, "w", encoding="utf-8") as f: f.write(text)] *)
Definition write_text (p text : string) : M unit := write_node p (File text).

Fixpoint for_each {A} (l : list A) (f : A → M unit) : M unit :=
  match l with
  | [] => ret tt
  | x :: l' => f x ;; for_each l' f
  end.

(** The path components of a member name that [zipfile] keeps: the empty
    ones, [.] and [..] are dropped, so a member never leaves the directory
    it is extracted to. *)
Definition arc_components (name : string) : list string :=
  List.filter
    (fun x => negb (String.eqb x "" || String.eqb x "." || String.eqb x ".."))
    (Str.split_slash name).

(** The directories above the last component: for [a; b; c] under [pre],
    [pre a] and [pre a/b]. *)
Fixpoint upper_dirs (pre : string) (comps : list string) : list string :=
  match comps with
  | [] => []
  | c :: rest =>
      match rest with
      | [] => []
      | _ => (pre ++ c) :: upper_dirs (pre ++ c ++ "/") rest
      end
  end.

(** All the directories on the way, the last component included. *)
Fixpoint all_dirs (pre : string) (comps : list string) : list string :=
  match comps with
  | [] => []
  | c :: rest => (pre ++ c) :: all_dirs (pre ++ c ++ "/") rest
  end.

(** Creating one directory on the way to a member. *)
Definition mkdir_member (p : string) : M unit :=
  fun w => match Dict.get p (fs w) with
           | Some Dir => (Ok tt, w)
           | Some _ => (Raise (NotADirectoryError p), w)
           | None => (Ok tt, set_fs (Dict.set p Dir) w)
           end.

(** The file a member is extracted to. *)
Definition member_path (target_dir name : string) : string :=
  target_dir ++ "/" ++ Str.join_slash (arc_components name).

(** Extracting one member under [target_dir] (which has no trailing
    slash). *)
Definition extract_member (target_dir : string) (m : string * string) : M unit :=
  let comps := arc_components (fst m) in
  if Str.endswith (fst m) "/" then
    for_each (all_dirs (target_dir ++ "/") comps) mkdir_member
  else
    match comps with
    | [] => raise (IsADirectoryError target_dir)
    | _ =>
        for_each (upper_dirs (target_dir ++ "/") comps) mkdir_member ;;
        write_text (member_path target_dir (fst m)) (snd m)
    end.

(** [zipfile.ZipFile(code_path, 'r').extractall(target_dir)] *)
Definition extractall (code_path target_dir : string) : M unit :=
  w <- get_world ;;
  match Dict.get code_path (fs w) with
  | None => raise (FileNotFoundError code_path)
  | Some Dir => raise (IsADirectoryError code_path)
  | Some (File _) => raise BadZipFile
  | Some (Zip members) => for_each members (extract_member target_dir)
  end.

(** [shutil.copy(src, dst)] *)
Definition copy (src dst : string) : M unit :=
  w <- get_world ;;
  match Dict.get src (fs w) with
  | None => raise (FileNotFoundError src)
  | Some Dir => raise (IsADirectoryError src)
  | Some n =>
      match Dict.get dst (fs w) with
      | Some Dir => write_node (path_join dst (Str.basename src)) n
      | _ => write_node dst n
      end
  end.

(** The name under [d] through which the path [p] is reached, if any. *)
Definition child_of (d p : string) : option string :=
  match Str.strip_prefix (d ++ "/") p with
  | Some rest => if String.eqb rest "" then None else Some (Str.until_slash rest)
  | None => None
  end.

(** The entries directly under [d], in the order in which the file system
    enumerates them. *)
Definition listing (d : string) (w : world) : list string :=
  remove_dups (omap (child_of d) (Dict.keys (fs w))).

(** [os.listdir(d)] *)
Definition listdir (d : string) : M (list string) :=
  w <- get_world ;;
  ret (listing d w).

(** ** Child processes *)

Definition set_status (pid : nat) (st : pstatus) (w : world) : world :=
  set_procs (alter (fun p => Proc (p_cmd p) (p_cwd p) (p_env p) (p_coop p) st) pid) w.

(** [asyncio.create_subprocess_exec] on the command, [cwd] and [env] *)
Definition create_subprocess_exec (cmd : list string) (dir : string)
    (env : list (string * string)) (o : spawn_outcome) : M nat :=
  match o with
  | SpawnFails e => raise e
  | Spawned coop =>
      fun w => (Ok (length (procs w)),
                set_procs (fun ps => (ps ++ [Proc cmd dir env coop Running])%list) w)
  end.

(** A method call on [info.get('process')] needs a process object. *)
Definition as_process (v : pyval) : M nat :=
  match v with
  | VProc pid => ret pid
  | _ => raise AttributeError
  end.

Definition is_running (w : world) (pid : nat) : bool :=
  match procs w !! pid with
  | Some p => match p_status p with Running => true | Exited => false end
  | None => false
  end.

(** [process.terminate()]: raises [ProcessLookupError] once the process is
    gone. *)
Definition terminate (pid : nat) : M unit :=
  fun w => if is_running w pid then (Ok tt, add_call (Terminate pid) w)
           else (Raise ProcessLookupError, add_call (Terminate pid) w).

(** [await asyncio.wait_for(process.wait(), timeout=5.0)] *)
Definition wait_for (pid : nat) : M unit :=
  fun w => match procs w !! pid with
           | Some p =>
               match p_status p with
               | Exited => (Ok tt, add_call (Wait pid) w)
               | Running =>
                   if p_coop p then (Ok tt, set_status pid Exited (add_call (Wait pid) w))
                   else (Raise TimeoutError, add_call (Wait pid) w)
               end
           | None => (Ok tt, add_call (Wait pid) w)
           end.

(** [process.kill()] *)
Definition kill (pid : nat) : M unit :=
  fun w => if is_running w pid then (Ok tt, set_status pid Exited (add_call (Kill pid) w))
           else (Raise ProcessLookupError, add_call (Kill pid) w).

(** The environment: a child exits on its own. *)
Definition child_exit (pid : nat) (w : world) : world := set_status pid Exited w.

(** ** [BotRegistry] *)

(** The loop of [register] over [os.listdir(target_dir)]: the first listed
    name that is one of the three entry files decides. *)
Fixpoint find_entry (target_dir runtime : string) (names : list string)
    : option string * string :=
  match names with
  | [] => (None, runtime)
  | f :: rest =>
      if String.eqb f "main.py" then (Some (path_join target_dir f), runtime)
      else if String.eqb f "index.js" then (Some (path_join target_dir f), "node")
      else if String.eqb f "package.json" then (Some target_dir, "npm")
      else find_entry target_dir runtime rest
  end.

(** The dictionary literal that [register] stores. *)
Definition mk_record (token name username : string) (process : nat)
    (port : option Z) (is_site : bool) : pydict :=
  <["token" := VStr token]>
  (<["name" := VStr name]>
  (<["username" := VStr username]>
  (<["process" := VProc process]>
  (<["port" := match port with Some p => VInt p | None => VNone end]>
  (<["type" := VStr (if is_site then "site" else "bot")]> ∅))))).

(** The working directory of an identity. *)
Definition target_dir_of (host : Host) (token : string) : string :=
  abspath host ("hosted_apps/app_" ++ MD5.hexdigest token).

(** [BotRegistry.register] *)
Definition register (host : Host) (token name : string)
    (code_content code_path : option string) (is_site : bool) (o : oracle)
    : M (bool * string) :=
  try_except
    (me <- (if negb is_site then
              match new_bot o with
              | Some e => raise e
              | None => ret (get_me o)
              end
            else ret (Some "website")) ;;
     match me with
     | None => ret (false, "Invalid Token")
     | Some me_username =>
         (* Prepare path *)
         makedirs (abspath host "hosted_apps") ;;
         let token_hash := MD5.hexdigest token in
         let target_dir := abspath host ("hosted_apps/app_" ++ token_hash) in
         makedirs target_dir ;;
         let runtime := sys_executable host in
         let code_content :=
           if negb (Str.truthy code_content) && negb (Str.truthy code_path)
           then Some (DEFAULT_SERVICE_CODE host) else code_content in
         staged <-
           (if Str.truthy code_content then
              let entry_point := path_join target_dir "main.py" in
              write_text entry_point (default "" code_content) ;;
              ret (Some entry_point, runtime)
            else if Str.truthy code_path then
              let code_path := default "" code_path in
              if Str.endswith code_path ".zip" then
                extractall code_path target_dir ;;
                names <- listdir target_dir ;;
                ret (find_entry target_dir runtime names)
              else
                let filename :=
                  if Str.endswith code_path ".py" then "main.py" else "index.js" in
                let runtime :=
                  if Str.endswith code_path ".js" then "node" else runtime in
                let entry_point := path_join target_dir filename in
                copy code_path entry_point ;;
                ret (Some entry_point, runtime)
            else ret (None, runtime)) ;;
         let entry_point := fst staged in
         let runtime := snd staged in
         if negb (Str.truthy entry_point) then ret (false, "Could not find entry point")
         else
           let entry_point := default "" entry_point in
           (* Allocate Port if site *)
           w <- get_world ;;
           let port :=
             if is_site then Some (10000 + Z.of_nat (length (bots w)) + 1)%Z else None in
           let env := Dict.set "BOT_TOKEN" token (os_environ host) in
           let env :=
             match port with
             | Some p => if negb (p =? 0)%Z then Dict.set "PORT" (pretty p) env else env
             | None => env
             end in
           let env := Dict.set "PYTHONIOENCODING" "utf-8" env in
           let cmd :=
             if String.eqb runtime "npm" then ["npm"; "start"] else [runtime; entry_point] in
           process <- create_subprocess_exec cmd target_dir env (spawn o) ;;
           modify (add_relay (process, me_username)) ;;
           modify (add_relay (process, me_username ++ " Error")) ;;
           modify (set_bots (Dict.set token
                     (mk_record token name me_username process port is_site))) ;;
           ret (true, me_username)
     end)
    (fun e => ret (false, str_exn e)).

(** [BotRegistry.unregister] *)
Definition unregister (token : string) : M bool :=
  w <- get_world ;;
  match Dict.get token (bots w) with
  | Some info =>
      let process := default VNone (info !! "process") in
      (if truthy_val process then
         pid <- as_process process ;;          (* process.pid, for the log line *)
         try_except
           (terminate pid ;;
            try_except (wait_for pid)
              (fun e => match e with
                        | TimeoutError => kill pid
                        | _ => raise e
                        end))
           (fun e => ret tt)                   (* ProcessLookupError: pass; others: logged *)
       else ret tt) ;;
      (* Close log file *)
      let log_file := default VNone (info !! "log_file") in
      (if truthy_val log_file then raise AttributeError else ret tt) ;;
      modify (set_bots (Dict.del token)) ;;
      ret true
  | None => ret false
  end.

(** [x += 1] *)
Definition add_one (v : pyval) : M pyval :=
  match v with
  | VInt n => ret (VInt (n + 1))
  | VBool b => ret (VInt (if b then 2 else 1))
  | _ => raise TypeError
  end.

(** [types.Update] built from [update_data]: an update needs its
    [update_id]. *)
Definition make_update (update_data : pydict) : M pydict :=
  match update_data !! "update_id" with
  | Some (VInt _) => ret update_data
  | _ => raise ValidationError
  end.

Definition ok_true : pydict := {["ok" := VBool true]}.
Definition ok_false (e : exn) : pydict :=
  <["ok" := VBool false]> {["error" := VStr (str_exn e)]}.

(** [BotRegistry.process_update]; [self._db] is set by [create_app]. *)
Definition process_update (token : string) (update_data : pydict)
    : M (option pydict) :=
  w <- get_world ;;
  match Dict.get token (bots w) with
  | None => ret None
  | Some bot_info =>
      try_except
        (n <- getitem bot_info "total_updates" ;;
         n' <- add_one n ;;
         let bot_info := <["total_updates" := n']> bot_info in
         modify (set_bots (Dict.set token bot_info)) ;;
         (* Update stats *)
         let is_message := bool_decide (is_Some (update_data !! "message")) in
         modify (add_stat (token, is_message)) ;;
         (* Process with the bot's own dispatcher *)
         bot <- getitem bot_info "bot" ;;
         dp <- getitem bot_info "dp" ;;
         update <- make_update update_data ;;
         modify (add_fed (token, update)) ;;
         ret (Some ok_true))
        (fun e => ret (Some (ok_false e)))
  end.

(** ** HTTP handlers *)

Inductive body : Type :=
| NoBody
| Text (s : string)
| Json (d : pydict)
| Bytes (s : string).

Record response : Type := Response {
  status : Z;
  resp_body : body;
  resp_headers : list (string * string)
}.

(** [web.json_response(d)] *)
Definition json_response (d : pydict) : response :=
  Response 200 (Json d) [("Content-Type", "application/json")].

(** [hosted_webhook], mounted on [POST /webhook/{token}]; [json] is the
    parsed body, [None] when it is not JSON. *)
Definition hosted_webhook (token : string) (json : option pydict) : M response :=
  try_except
    (update_data <- match json with
                    | Some d => ret d
                    | None => raise JSONDecodeError
                    end ;;
     result <- process_update token update_data ;;
     match result with
     | Some d =>
         if bool_decide (d = ∅) then ret (Response 404 NoBody [])
         else ret (json_response d)
     | None => ret (Response 404 NoBody [])
     end)
    (fun e => ret (Response 500 NoBody [])).

Record request : Type := Request {
  match_token : string;                 (* request.match_info['token'] *)
  match_path : string;                  (* request.match_info['path'] *)
  query_string : string;
  method : string;
  req_headers : list (string * string);
  req_body : string
}.

(** What [session.request(method, url, data=..., headers=...)] gives: the
    downstream status, body and headers, or the exception it raises. *)
Definition network : Type :=
  string → string → string → list (string * string)
  → exn + (Z * string * list (string * string)).

(** The lookup loop of [site_proxy] over [registry._bots.values()]. *)
Fixpoint find_target (token_id : string) (vals : list pydict) : option pydict :=
  match vals with
  | [] => None
  | b :: rest =>
      if String.eqb (py_str (default VNone (b !! "username"))) token_id
         || String.eqb (py_str (default VNone (b !! "token"))) token_id
      then Some b
      else find_target token_id rest
  end.

Definition site_not_found : response := Response 404 (Text "Site Not Found") [].

(** The names that the module binds at its top level, in the order of their
    first binding: the imports of lines 7 to 36, then the classes, the
    constants and the functions.  [from aiohttp import web] binds [web]
    only, and the [import aiohttp] of [self_ping] binds the name in the
    scope of that function. *)
Definition module_globals : list string :=
  [ "os"; "logging"; "asyncio"; "re"; "json"; "subprocess"; "sys"; "hashlib";
    "datetime"; "date"; "timedelta"; "Dict"; "List"; "Optional"; "Tuple"; "Any";
    "dataclass"; "field"; "load_dotenv"; "asynccontextmanager"; "aiosqlite"; "web";
    "Bot"; "Dispatcher"; "types"; "F"; "Command"; "CommandStart"; "Message";
    "CallbackQuery"; "ReplyKeyboardMarkup"; "KeyboardButton"; "ReplyKeyboardRemove";
    "FSMContext"; "State"; "StatesGroup"; "MemoryStorage"; "SimpleRequestHandler";
    "setup_application"; "DefaultBotProperties"; "ParseMode"; "Config"; "config";
    "I18n"; "i18n"; "Database"; "DEFAULT_SERVICE_CODE"; "CONTACT_SERVICE_CODE";
    "BotRegistry"; "BotStates"; "RateLimitMiddleware"; "LoggingMiddleware";
    "ChannelCheckMiddleware"; "process_stat_select"; "process_remove_select";
    "process_lang_btn"; "process_admin_btns"; "cancel_handler";
    "register_manager_handlers"; "cmd_service_start"; "cmd_quran"; "cmd_videos";
    "register_service_handlers"; "cmd_language"; "cmd_start"; "show_main_menu";
    "process_callbacks"; "process_bot_token"; "process_contact_token";
    "process_bot_code"; "cmd_my_bots"; "cmd_bot_stats"; "cmd_remove_bot"; "cmd_admin";
    "process_broadcast"; "cmd_help"; "cmd_cancel"; "health_check"; "main_webhook";
    "hosted_webhook"; "setup_bot_commands"; "on_startup"; "on_shutdown"; "create_app";
    "self_ping"; "cleanup_task"; "main" ].

(** The names that the body of [create_app] binds; [site_proxy] is defined
    in that body. *)
Definition create_app_locals : list string :=
  [ "db"; "registry"; "bot"; "storage"; "dp"; "app"; "site_proxy";
    "startup_handler"; "shutdown_handler" ].

(** Whether a name that [site_proxy] does not bind itself is bound where it
    is looked up: in [create_app], then in the module (the builtins, looked
    up last, have none of the names the handler uses). *)
Definition name_bound (name : string) : bool :=
  existsb (String.eqb name) (create_app_locals ++ module_globals).

(** [site_proxy], mounted on [/site/{token}/{path:.*}] for every method.
    The handler either returns a response or raises; the session is opened
    before the [try], so an exception of [aiohttp.ClientSession()] is not
    caught. *)
Definition site_proxy (net : network) (w : world) (req : request) : res response :=
  let token_id := match_token req in
  match find_target token_id (Dict.values (bots w)) with
  | None => Ok site_not_found
  | Some target_bot =>
      let port := default VNone (target_bot !! "port") in
      if bool_decide (target_bot = ∅) || negb (truthy_val port) then Ok site_not_found
      else
        (* Build target path *)
        let url := "http://localhost:" ++ py_str port ++ "/" ++ match_path req in
        let url :=
          if negb (String.eqb (query_string req) "")
          then url ++ "?" ++ query_string req else url in
        (* async with aiohttp.ClientSession() as session: *)
        if negb (name_bound "aiohttp") then Raise (NameError "aiohttp")
        else
          let headers := Dict.del "Host" (req_headers req) in
          match net (method req) url (req_body req) headers with
          | inr (st, data, hs) => Ok (Response st (Bytes data) hs)
          | inl e => Ok (Response 502 (Text ("Proxy Error: " ++ str_exn e)) [])
          end
  end.

(** ** The upload handler *)

(** What [process_bot_code] reads of the incoming message: an attached
    document (file name and bytes) and the text. *)
Record message : Type := Message {
  document : option (string * fnode);
  text : option string
}.

(** The payload of the message, as [(code_content, code_path)]: a document
    is downloaded to [tmp_<file name>] under the current directory, otherwise
    a non-empty text is the inline source. *)
Definition receive_payload (host : Host) (m : message)
    : M (option string * option string) :=
  match document m with
  | Some (file_name, data) =>
      let code_path := abspath host ("tmp_" ++ file_name) in
      write_node code_path data ;;
      ret (None, Some code_path)
  | None =>
      if Str.truthy (text m) then ret (text m, None) else ret (None, None)
  end.

(** [process_bot_code], up to the registration and its bookkeeping;
    [state_token] is [state_data.get('bot_token')].  The result is [None]
    when the handler returns before registering. *)
Definition process_bot_code (host : Host) (state_token : option string)
    (m : message) (o : oracle) : M (option (bool * string)) :=
  if negb (Str.truthy state_token) then ret None
  else
    let token := default "" state_token in
    let is_site := negb (Str.contains ":" token) in
    payload <- receive_payload host m ;;
    r <- register host token "UserApp" (fst payload) (snd payload) is_site o ;;
    (if fst r then modify (add_db_bot (token, "UserApp", snd r)) else ret tt) ;;
    ret (Some r).

(** ** Runs of the platform *)

Inductive op : Type :=
| Register (token name : string) (code_content code_path : option string)
           (is_site : bool) (o : oracle)
| Unregister (token : string)
| Upload (state_token : option string) (m : message) (o : oracle)
| Webhook (token : string) (json : option pydict)
| ChildExit (pid : nat).

Definition step (host : Host) (w : world) (a : op) : world :=
  match a with
  | Register token name code_content code_path is_site o =>
      snd (register host token name code_content code_path is_site o w)
  | Unregister token => snd (unregister token w)
  | Upload state_token m o => snd (process_bot_code host state_token m o w)
  | Webhook token json => snd (hosted_webhook token json w)
  | ChildExit pid => child_exit pid w
  end.

Definition run (host : Host) (w : world) (ops : list op) : world :=
  fold_left (step host) ops w.

Definition reachable (host : Host) (w : world) : Prop :=
  ∃ fs0 ops, w = run host (init_world fs0) ops.

(** * Vocabulary of the statements

    ** Views of the registry *)

Definition lookup_bot (w : world) (token : string) : option pydict :=
  Dict.get token (bots w).

Definition is_site_record (r : pydict) : Prop := r !! "type" = Some (VStr "site").

Definition port_of (r : pydict) : option pyval := r !! "port".

Definition process_of (r : pydict) : option pyval := r !! "process".

(** ** The two halves of [register]

    [stage] is the part of [register] from "Prepare path" to the resolved
    entry point, [launch] the part from the entry-point check to the stored
    record; [register_unfold] below shows that [register] is the token check
    followed by the two. *)

Definition stage (host : Host) (token : string)
    (code_content code_path : option string) : M (option string * string) :=
  makedirs (abspath host "hosted_apps") ;;
  let target_dir := target_dir_of host token in
  makedirs target_dir ;;
  let runtime := sys_executable host in
  let code_content :=
    if negb (Str.truthy code_content) && negb (Str.truthy code_path)
    then Some (DEFAULT_SERVICE_CODE host) else code_content in
  if Str.truthy code_content then
    let entry_point := path_join target_dir "main.py" in
    write_text entry_point (default "" code_content) ;;
    ret (Some entry_point, runtime)
  else if Str.truthy code_path then
    let code_path := default "" code_path in
    if Str.endswith code_path ".zip" then
      extractall code_path target_dir ;;
      names <- listdir target_dir ;;
      ret (find_entry target_dir runtime names)
    else
      let filename :=
        if Str.endswith code_path ".py" then "main.py" else "index.js" in
      let runtime :=
        if Str.endswith code_path ".js" then "node" else runtime in
      let entry_point := path_join target_dir filename in
      copy code_path entry_point ;;
      ret (Some entry_point, runtime)
  else ret (None, runtime).

(** The port [register] allocates in the state [w]. *)
Definition allocate_port (is_site : bool) (w : world) : option Z :=
  if is_site then Some (10000 + Z.of_nat (length (bots w)) + 1)%Z else None.

(** The environment of the child. *)
Definition child_env (host : Host) (token : string) (port : option Z)
    : list (string * string) :=
  let env := Dict.set "BOT_TOKEN" token (os_environ host) in
  let env :=
    match port with
    | Some p => if negb (p =? 0)%Z then Dict.set "PORT" (pretty p) env else env
    | None => env
    end in
  Dict.set "PYTHONIOENCODING" "utf-8" env.

(** The command line of the child. *)
Definition child_cmd (runtime entry_point : string) : list string :=
  if String.eqb runtime "npm" then ["npm"; "start"] else [runtime; entry_point].

Definition launch (host : Host) (token name me_username : string)
    (is_site : bool) (o : oracle) (staged : option string * string)
    : M (bool * string) :=
  let entry_point := fst staged in
  let runtime := snd staged in
  if negb (Str.truthy entry_point) then ret (false, "Could not find entry point")
  else
    let entry_point := default "" entry_point in
    w <- get_world ;;
    let port := allocate_port is_site w in
    process <- create_subprocess_exec (child_cmd runtime entry_point)
                 (target_dir_of host token) (child_env host token port) (spawn o) ;;
    modify (add_relay (process, me_username)) ;;
    modify (add_relay (process, me_username ++ " Error")) ;;
    modify (set_bots (Dict.set token
              (mk_record token name me_username process port is_site))) ;;
    ret (true, me_username).

(** The token check at the head of [register]: it yields the public handle,
    or the token is rejected by [get_me] ("Invalid Token"), or the [Bot]
    constructor raises. *)
Inductive token_check : Type :=
| TokenOk (me_username : string)
| TokenRejected
| TokenRaises (e : exn).

Definition check_token (is_site : bool) (o : oracle) : token_check :=
  if negb is_site then
    match new_bot o with
    | Some e => TokenRaises e
    | None => match get_me o with Some u => TokenOk u | None => TokenRejected end
    end
  else TokenOk "website".

(** ** Computations that touch nothing but the file system *)

Definition only_fs (w w' : world) : Prop := w' = set_fs (fun _ => fs w') w.

Definition FsOnly {A} (c : M A) : Prop := ∀ w, only_fs w (snd (c w)).

(** ** The outcomes of [register] *)

(** The state after a successful launch from the staged state [w]. *)
Definition launched (host : Host) (token name me_username : string)
    (is_site : bool) (coop : bool) (entry_point runtime : string) (w : world) : world :=
  let port := allocate_port is_site w in
  let pid := length (procs w) in
  let p := Proc (child_cmd runtime entry_point) (target_dir_of host token)
                (child_env host token port) coop Running in
  set_bots (Dict.set token (mk_record token name me_username pid port is_site))
    (add_relay (pid, me_username ++ " Error")
       (add_relay (pid, me_username)
          (set_procs (fun ps => (ps ++ [p])%list) w))).

Inductive launch_outcome (host : Host) (token name me_username : string)
    (is_site : bool) (o : oracle) (staged : option string * string) (w : world)
    : res (bool * string) * world → Prop :=
| launch_no_entry :
    Str.truthy (fst staged) = false →
    launch_outcome host token name me_username is_site o staged w
      (Ok (false, "Could not find entry point"), w)
| launch_spawn_fails e :
    Str.truthy (fst staged) = true →
    spawn o = SpawnFails e →
    launch_outcome host token name me_username is_site o staged w (Raise e, w)
| launch_spawned coop entry_point :
    fst staged = Some entry_point →
    entry_point ≠ "" →
    spawn o = Spawned coop →
    launch_outcome host token name me_username is_site o staged w
      (Ok (true, me_username),
       launched host token name me_username is_site coop entry_point (snd staged) w).

Inductive register_outcome (host : Host) (token name : string)
    (cc cp : option string) (is_site : bool) (o : oracle) (w : world)
    : res (bool * string) * world → Prop :=
| register_invalid_token :
    check_token is_site o = TokenRejected →
    register_outcome host token name cc cp is_site o w (Ok (false, "Invalid Token"), w)
| register_bot_raises e :
    check_token is_site o = TokenRaises e →
    register_outcome host token name cc cp is_site o w (Ok (false, str_exn e), w)
| register_stage_raises u e w1 :
    check_token is_site o = TokenOk u →
    stage host token cc cp w = (Raise e, w1) →
    register_outcome host token name cc cp is_site o w (Ok (false, str_exn e), w1)
| register_no_entry u staged w1 :
    check_token is_site o = TokenOk u →
    stage host token cc cp w = (Ok staged, w1) →
    Str.truthy (fst staged) = false →
    register_outcome host token name cc cp is_site o w
      (Ok (false, "Could not find entry point"), w1)
| register_spawn_fails u staged w1 e :
    check_token is_site o = TokenOk u →
    stage host token cc cp w = (Ok staged, w1) →
    Str.truthy (fst staged) = true →
    spawn o = SpawnFails e →
    register_outcome host token name cc cp is_site o w (Ok (false, str_exn e), w1)
| register_done u entry_point runtime w1 coop :
    check_token is_site o = TokenOk u →
    stage host token cc cp w = (Ok (Some entry_point, runtime), w1) →
    entry_point ≠ "" →
    spawn o = Spawned coop →
    register_outcome host token name cc cp is_site o w
      (Ok (true, u), launched host token name u is_site coop entry_point runtime w1).

(** ** Stopping a child *)

(** The termination block of [unregister]. *)
Definition stop_process (pid : nat) : M unit :=
  try_except
    (terminate pid ;;
     try_except (wait_for pid)
       (fun e => match e with
                 | TimeoutError => kill pid
                 | _ => raise e
                 end))
    (fun e => ret tt).

(** The state it leaves. *)
Definition stopped (pid : nat) (w : world) : world :=
  match procs w !! pid with
  | Some p =>
      match p_status p with
      | Exited => add_call (Terminate pid) w
      | Running =>
          if p_coop p
          then set_status pid Exited (add_call (Wait pid) (add_call (Terminate pid) w))
          else set_status pid Exited
                 (add_call (Kill pid) (add_call (Wait pid) (add_call (Terminate pid) w)))
      end
  | None => add_call (Terminate pid) w
  end.

(** The process a call addresses. *)
Definition call_pid (c : call) : nat :=
  match c with Terminate pid | Wait pid | Kill pid => pid end.

(** ** The invariant of the registry *)

(** A record as [register] stores it: the dictionary literal for the
    identity, with a launched process, and a port above 10000 exactly for a
    site. *)
Definition wf_record (w : world) (token : string) (r : pydict) : Prop :=
  ∃ name u pid port is_site,
    r = mk_record token name u pid port is_site
    ∧ pid < length (procs w)
    ∧ (if is_site then ∃ p, port = Some p ∧ (10000 < p)%Z else port = None).

Record inv (w : world) : Prop := Inv {
  inv_nodup : NoDup (Dict.keys (bots w));
  inv_records : ∀ token r, lookup_bot w token = Some r → wf_record w token r;
  inv_pid_inj : ∀ t1 t2 r1 r2 pid,
      lookup_bot w t1 = Some r1 → lookup_bot w t2 = Some r2 →
      process_of r1 = Some (VProc pid) → process_of r2 = Some (VProc pid) → t1 = t2;
  inv_calls_launched : ∀ c, c ∈ calls w → call_pid c < length (procs w);
  inv_tracked_unsignalled : ∀ token r pid,
      lookup_bot w token = Some r → process_of r = Some (VProc pid) →
      Terminate pid ∉ calls w;
  inv_signalled_exited : ∀ pid, Terminate pid ∈ calls w → is_running w pid = false
}.

(** ** A concrete host, for the scenarios below *)

Definition demo_host : Host :=
  {| cwd := "/srv";
     sys_executable := "/usr/bin/python3";
     default_service_tail := "import os";
     os_environ := [("PATH", "/usr/bin")] |}.

(** The token check passes and the child starts and is cooperative. *)
Definition fine : oracle := Oracle None (Some "demo_bot") (Spawned true).

(** ** Port allocation *)

(** No two live Site records share their port. *)
Definition ports_pairwise_distinct (w : world) : Prop :=
  ∀ t1 t2 r1 r2,
    t1 ≠ t2 →
    lookup_bot w t1 = Some r1 → lookup_bot w t2 = Some r2 →
    is_site_record r1 → is_site_record r2 →
    port_of r1 ≠ port_of r2.

(** Three sites, the first of which is unregistered before the third is
    registered. *)
Definition port_reuse_ops : list op :=
  [ Register "siteA" "UserApp" None None true fine;
    Register "siteB" "UserApp" None None true fine;
    Unregister "siteA";
    Register "siteC" "UserApp" None None true fine ].

(** ** Reverse proxy *)

(** A record matches the path segment by its public handle or by its raw
    token. *)
Definition matches (token_id : string) (b : pydict) : Prop :=
  py_str (default VNone (b !! "username")) = token_id
  ∨ py_str (default VNone (b !! "token")) = token_id.

(** The record [site_proxy] resolves the path segment to. *)
Definition resolve (w : world) (token_id : string) : option pydict :=
  find_target token_id (Dict.values (bots w)).

(** A downstream that answers 201 "ok" on port 10002 for [/ping]. *)
Definition demo_net : network :=
  fun method url data headers =>
    if String.eqb url "http://localhost:10002/ping"
    then inr (201%Z, "ok", [("Content-Type", "text/plain")])
    else inl (ClientError "Cannot connect to host").

(** A bot and a site. *)
Definition proxy_demo_ops : list op :=
  [ Register "123:abc" "UserApp" None None false fine;
    Register "siteA" "UserApp" None None true fine ].

(** ** Records and processes *)

(** Some record of the registry holds the process [pid]. *)
Definition tracked (w : world) (pid : nat) : Prop :=
  ∃ token r, lookup_bot w token = Some r ∧ process_of r = Some (VProc pid).

(** The same, as a test over the records. *)
Definition trackedb (w : world) (pid : nat) : bool :=
  existsb (fun r => bool_decide (process_of r = Some (VProc pid))) (Dict.values (bots w)).

(** The process has been launched. *)
Definition launched_process (w : world) (pid : nat) : Prop := pid < length (procs w).

(** The supervisor has run its termination on the process. *)
Definition confirmed_terminated (w : world) (pid : nat) : Prop := Terminate pid ∈ calls w.

(** A record exists exactly for the processes launched and not yet
    terminated. *)
Definition registry_tracks_processes (w : world) : Prop :=
  ∀ pid, tracked w pid ↔ launched_process w pid ∧ ¬ confirmed_terminated w pid.

(** The operation registers an identity that has a live record. *)
Definition redeploys (w : world) (a : op) : bool :=
  match a with
  | Register token _ _ _ _ _ => Dict.mem token (bots w)
  | Upload st _ _ => Str.truthy st && Dict.mem (default "" st) (bots w)
  | _ => false
  end.

(** No operation of the run registers an identity that has a live record. *)
Fixpoint no_redeploy (host : Host) (w : world) (ops : list op) : bool :=
  match ops with
  | [] => true
  | a :: rest => negb (redeploys w a) && no_redeploy host (step host w a) rest
  end.

(** The same identity deployed twice through the upload flow. *)
Definition redeploy_ops : list op :=
  [ Upload (Some "siteA") (Message None (Some "print(1)")) fine;
    Upload (Some "siteA") (Message None (Some "print(2)")) fine ].

(** Every launched process that the supervisor has not terminated is held
    by a record. *)
Definition cover (w : world) : Prop :=
  ∀ pid, launched_process w pid → ¬ confirmed_terminated w pid → tracked w pid.

(** ** Entry point of an archive *)

(** The recognised entry files, in the priority order of the
    specification. *)
Definition recognized : list string := ["main.py"; "index.js"; "package.json"].

(** The entry point and runtime that go with a recognised file. *)
Definition entry_for (target_dir runtime name : string) : option string * string :=
  if String.eqb name "main.py" then (Some (path_join target_dir name), runtime)
  else if String.eqb name "index.js" then (Some (path_join target_dir name), "node")
  else if String.eqb name "package.json" then (Some target_dir, "npm")
  else (None, runtime).

(** Resolution as the specification words it: the first file of the
    priority list that is present, whatever the order of the listing. *)
Definition resolve_by_priority (target_dir runtime : string) (names : list string)
    : option string * string :=
  match List.find (fun n => bool_decide (n ∈ names)) recognized with
  | Some n => entry_for target_dir runtime n
  | None => (None, runtime)
  end.

(** An uploaded archive that holds two of the entry files. *)
Definition two_entries_fs : list (string * fnode) :=
  [ ("/srv/tmp_app.zip", Zip [("index.js", "console.log(1)"); ("main.py", "print(1)")]) ].

(** A regular file is stored at [p]. *)
Definition is_file (w : world) (p : string) : Prop :=
  ∃ c, Dict.get p (fs w) = Some (File c).

(** An uploaded archive without entry file at its top level. *)
Definition docs_only_fs : list (string * fnode) :=
  [ ("/srv/tmp_docs.zip", Zip [("README.md", "hello"); ("src/main.py", "print(1)")]) ].

(** ** Working directories *)

(** A directory is stored at [p]. *)
Definition is_dir (w : world) (p : string) : Prop := Dict.get p (fs w) = Some Dir.

(** Computations that neither create nor remove a directory. *)
Definition SameDirs {A} (c : M A) : Prop :=
  ∀ w q, is_dir (snd (c w)) q ↔ is_dir w q.

(** [q] lies below the directory [d]. *)
Definition under (d q : string) : Prop := ∃ rest, q = d ++ "/" ++ rest.

(** Computations that remove no directory and create directories below [d]
    only. *)
Definition DirsWithin (d : string) {A} (c : M A) : Prop :=
  ∀ w q, (is_dir w q → is_dir (snd (c w)) q)
         ∧ (is_dir (snd (c w)) q → is_dir w q ∨ under d q).

(** * The rest of the platform *)

(** ** The rest of [BotRegistry] *)

(** [BotRegistry.get_bot] *)
Definition get_bot (token : string) : M pyval :=
  w <- get_world ;;
  match Dict.get token (bots w) with
  | Some info => if bool_decide (info = ∅) then ret VNone else getitem info "bot"
  | None => ret VNone
  end.

(** The loop of [shutdown] over a snapshot of the keys. *)
Definition unregister_each (tokens : list string) : M unit :=
  for_each tokens (fun token => _ <- unregister token ;; ret tt).

(** [BotRegistry.shutdown] *)
Definition shutdown : M unit :=
  w <- get_world ;;
  unregister_each (Dict.keys (bots w)) ;;
  modify (set_bots (fun _ => [])).

(** ** Runs that never shrink the registry *)

(** The operation removes a live record. *)
Definition removes (w : world) (a : op) : bool :=
  match a with
  | Unregister token => Dict.mem token (bots w)
  | _ => false
  end.

(** No operation of the run removes a live record. *)
Fixpoint no_removal (host : Host) (w : world) (ops : list op) : bool :=
  match ops with
  | [] => true
  | a :: rest => negb (removes w a) && no_removal host (step host w a) rest
  end.

(** Every allocated port is at most [10000 + len(self._bots)]. *)
Definition ports_bounded (w : world) : Prop :=
  ∀ t r p, lookup_bot w t = Some r → port_of r = Some (VInt p) →
           (p ≤ 10000 + Z.of_nat (length (bots w)))%Z.

(** ** [RateLimitMiddleware] *)

Module RateLimit.

(** A [datetime] is the number of microseconds since an epoch.  A
    [timedelta] is normalised to days, seconds in [0, 86400) and
    microseconds; this is [(now - t).seconds] for the difference [delta]. *)
Definition seconds (delta : Z) : Z := ((delta / 1000000) mod 86400)%Z.

(** The middleware object: [rate_limit], [window] and [self.users]. *)
Record t : Type := Mk {
  rate_limit : Z;
  window : Z;
  users : gmap Z (list Z)
}.

(** [RateLimitMiddleware(rate_limit, window)] *)
Definition init (rate_limit window : Z) : t := Mk rate_limit window ∅.

(** Which branch [__call__] takes: the handler is run, or the user is
    answered with the error text and the handler is skipped. *)
Inductive verdict : Type := Passed | Limited.

(** The list comprehension that cleans the old entries. *)
Definition clean (m : t) (now : Z) (ts : list Z) : list Z :=
  List.filter (fun t => (seconds (now - t) <? window m)%Z) ts.

(** [RateLimitMiddleware.__call__] as far as [self.users] and the choice of
    the branch go; [from_user] is [event.from_user] (its [id], when there is
    one) and [now] the reading of [datetime.now()]. *)
Definition call (m : t) (from_user : option Z) (now : Z) : res verdict * t :=
  match from_user with
  | None => (Raise AttributeError, m)
  | Some user_id =>
      (* Clean old entries *)
      let kept :=
        match users m !! user_id with
        | Some ts => clean m now ts
        | None => []
        end in
      (* Check rate limit *)
      if (rate_limit m <=? Z.of_nat (length kept))%Z
      then (Ok Limited, Mk (rate_limit m) (window m) (<[user_id := kept]> (users m)))
      else
        (* Add current time *)
        (Ok Passed,
         Mk (rate_limit m) (window m) (<[user_id := (kept ++ [now])%list]> (users m)))
  end.

(** A sequence of messages, each with its sender and the clock reading of
    its call: the middleware after them, and the calls that passed. *)
Fixpoint feed (m : t) (events : list (Z * Z)) : list (Z * Z) * t :=
  match events with
  | [] => ([], m)
  | (user_id, now) :: rest =>
      let '(v, m1) := call m (Some user_id) now in
      let '(passed, m2) := feed m1 rest in
      (match v with
       | Ok Passed => (user_id, now) :: passed
       | _ => passed
       end, m2)
  end.

(** The clock readings never go back, from [t0] on. *)
Fixpoint monotone_from (t0 : Z) (l : list Z) : bool :=
  match l with
  | [] => true
  | a :: rest => (t0 <=? a)%Z && monotone_from a rest
  end.

Definition nondecreasing (l : list Z) : bool :=
  match l with
  | [] => true
  | a :: rest => monotone_from a rest
  end.

(** The calls of [user_id] in the log whose clock reading lies in
    [[a, b]]. *)
Definition in_interval (user_id a b : Z) (log : list (Z * Z)) : list (Z * Z) :=
  List.filter (fun e => (fst e =? user_id)%Z && (a <=? snd e)%Z && (snd e <=? b)%Z) log.

(** The timestamps stored for a user. *)
Definition stored (m : t) (user_id : Z) : list Z := default [] (users m !! user_id).

(** How many of the timestamps [l] are at or after [a]. *)
Definition count_ge (a : Z) (l : list Z) : nat :=
  length (List.filter (fun t => (a <=? t)%Z) l).

End RateLimit.

Arguments RateLimit.call : simpl never.

(** ** [on_startup]: the hosted bots are loaded from the database *)

(** A row of the query [SELECT bot_token, bot_name, bot_username, code_path
    FROM bots WHERE is_active = 1]; [code_path] is [NULL] for what was
    deployed from an inline text. *)
Record bot_row : Type := BotRow {
  row_token : string;
  row_name : string;
  row_username : string;
  row_code_path : option string
}.

(** The task [load_bots] of [on_startup], over the selected rows, each with
    what its registration gets from outside.  The [except] branch formats
    [bot_data.get('bot_username')], and a row object has no [get]. *)
Definition load_bots (host : Host) (rows : list (bot_row * oracle)) : M unit :=
  for_each rows (fun '(bot_data, o) =>
    try_except
      (_ <- register host (row_token bot_data) (row_name bot_data)
              None (row_code_path bot_data) false o ;;
       ret tt)
      (fun e => raise AttributeError)).

(** The same registrations as operations of a run. *)
Definition load_ops (rows : list (bot_row * oracle)) : list op :=
  map (fun '(bot_data, o) =>
         Register (row_token bot_data) (row_name bot_data)
                  None (row_code_path bot_data) false o) rows.

(** No live record is a Site record. *)
Definition no_site (w : world) : Prop :=
  ∀ t r, lookup_bot w t = Some r → ¬ is_site_record r.

(** ** [I18n] *)

Module I18n.

(** The double quote and the line break, for the texts that hold one. *)
Definition dq : string := String "034"%char EmptyString.
Definition nl : string := String "010"%char EmptyString.

(** An entry of a language table: a text, or the nested table of the
    command descriptions. *)
Inductive value : Type :=
| Txt (s : string)
| Sub (d : list (string * string)).

(** [self.strings['en']] and [self.strings['ar']] *)
Definition en : list (string * value) :=
  [ ("add_bot", Txt "➕ Deploy App");
    ("add_contact_bot", Txt "📞 Create Contact Bot");
    ("my_bots", Txt "📊 My Apps");
    ("bot_stats", Txt "📈 Statistics");
    ("remove_bot", Txt "❌ Delete App");
    ("settings", Txt "⚙️ Settings");
    ("help", Txt "ℹ️ Help");
    ("language", Txt "🌐 Language");
    ("welcome", Txt ("👋 Welcome to Bot Hosting Platform!" ++ nl ++ nl ++ "Choose an option from the menu below:"));
    ("welcome_back", Txt "👋 Welcome back, {name}!");
    ("choose_language", Txt "🌐 Please choose your language:");
    ("language_changed", Txt "✅ Language changed to English successfully!");
    ("must_join_channel", Txt ("⚠️ Please join our channel first to use the bot:" ++ nl ++ "{channel}"));
    ("bot_added", Txt ("✅ Bot added successfully!" ++ nl ++ nl ++ "Name: {name}" ++ nl ++ "Username: @{username}"));
    ("bot_removed", Txt "✅ Bot removed successfully!");
    ("max_bots_reached", Txt "❌ You have reached the maximum number of bots (10)");
    ("invalid_token", Txt "❌ Invalid bot token. Please check and try again.");
    ("bot_already_exists", Txt "❌ This bot is already registered in our system");
    ("no_bots", Txt ("📭 You don't have any bots yet. Use " ++ dq ++ "Add Bot" ++ dq ++ " to get started!"));
    ("bot_stats_message", Txt ("📊 <b>Bot Statistics: {name}</b>" ++ nl ++ nl ++ "🤖 Username: @{username}" ++ nl ++ "📈 Total Updates: {updates}" ++ nl ++ "💬 Total Messages: {messages}" ++ nl ++ "📅 Created: {created}" ++ nl ++ "⚡️ Status: {status}"));
    ("select_bot", Txt "🤖 Select App:");
    ("enter_token", Txt "🔑 Send Bot Token OR 🌐 Site Name:");
    ("enter_code", Txt "📄 Send .py, .js, or .zip:");
    ("processing", Txt "⏳ Deploying...");
    ("error", Txt "❌ Error.");
    ("unauthorized", Txt "⛔️ Access Denied.");
    ("confirm", Txt "✅ Confirm");
    ("cancel", Txt "❌ Cancel");
    ("back", Txt "🔙 Back");
    ("refresh", Txt "🔄 Refresh");
    ("english", Txt "🇬🇧 English");
    ("arabic", Txt "🇸🇦 العربية");
    ("commands", Sub [("start", "Start the bot"); ("addbot", "Add a new bot"); ("mybots", "View your bots"); ("stats", "Bot statistics"); ("removebot", "Delete a bot"); ("language", "Switch language"); ("help", "Get assistance")]) ].

Definition ar : list (string * value) :=
  [ ("add_bot", Txt "➕ استضافة تطبيق");
    ("add_contact_bot", Txt "📞 صنع بوت تواصل");
    ("my_bots", Txt "📊 تطبيقاتي");
    ("bot_stats", Txt "📈 الإحصائيات");
    ("remove_bot", Txt "❌ حذف تطبيق");
    ("settings", Txt "⚙️ الإعدادات");
    ("help", Txt "ℹ️ مساعدة");
    ("language", Txt "🌐 اللغة");
    ("admin_panel", Txt "🔐 لوحة الإدارة");
    ("welcome", Txt ("👋 مرحباً بك في منصة الاستضافة!" ++ nl ++ nl ++ "تحكم في تطبيقاتك من القائمة أدناه:"));
    ("welcome_back", Txt "👋 مرحباً بعودتك، {name}!");
    ("choose_language", Txt "🌐 الرجاء اختيار لغتك:");
    ("language_changed", Txt "✅ تم تغيير اللغة بنجاح!");
    ("must_join_channel", Txt ("⚠️ اشترك في القناة أولاً:" ++ nl ++ "{channel}"));
    ("bot_added", Txt ("✅ تم الاستضافة بنجاح!" ++ nl ++ nl ++ "الاسم: {name}" ++ nl ++ "المعرف: @{username}"));
    ("bot_removed", Txt "✅ تم الحذف بنجاح!");
    ("max_bots_reached", Txt "❌ تم الوصول للحد الأقصى.");
    ("invalid_token", Txt "❌ الرمز غير صحيح.");
    ("bot_already_exists", Txt "❌ مسجل مسبقاً لدينا.");
    ("no_bots", Txt "📭 لا يوجد لديك تطبيقات بعد.");
    ("bot_stats_message", Txt ("📊 <b>إحصائيات البوت: {name}</b>" ++ nl ++ nl ++ "🤖 المعرف: @{username}" ++ nl ++ "📈 إجمالي التحديثات: {updates}" ++ nl ++ "💬 إجمالي الرسائل: {messages}" ++ nl ++ "📅 تاريخ الإنشاء: {created}" ++ nl ++ "⚡️ الحالة: {status}"));
    ("select_bot", Txt "🤖 اختر بوتاً:");
    ("enter_token", Txt "🔑 الرجاء إرسال رمز البوت الخاص بك (من @BotFather):");
    ("enter_code", Txt "📄 الرجاء إرسال كود بايثون للبوت (ملف .py) أو إلصقه كنص لاستضافته:");
    ("processing", Txt "⏳ جاري المعالجة...");
    ("error", Txt "❌ حدث خطأ. الرجاء المحاولة مرة أخرى.");
    ("unauthorized", Txt "⛔️ غير مصرح لك باستخدام هذا الأمر.");
    ("admin_panel_msg", Txt "👑 <b>لوحة التحكم</b>");
    ("admin_panel_btn", Txt "🔐 لوحة الإدارة");
    ("service_welcome", Txt "مرحباً بك في بوت الخدمة! 🤖");
    ("quran", Txt "📖 آيات قرآنية");
    ("videos", Txt "🎥 روابط فيديوهات");
    ("service_help", Txt "هذا البوت يوفر آيات قرآنية وروابط فيديوهات.");
    ("no_content", Txt "� لا يوجد محتوى متاح بعد.");
    ("enter_broadcast", Txt "📝 أرسل الرسالة التي تريد إرسالها للجميع:");
    ("broadcast_sent", Txt "✅ تم إرسال الرسالة إلى {count} مستخدم");
    ("confirm_remove", Txt "⚠️ هل أنت متأكد من حذف هذا البوت؟");
    ("confirm", Txt "✅ تأكيد");
    ("cancel", Txt "❌ إلغاء");
    ("back", Txt "🔙 رجوع");
    ("refresh", Txt "🔄 تحديث");
    ("english", Txt "🇬🇧 الإنجليزية");
    ("arabic", Txt "🇸🇦 العربية");
    ("commands", Sub [("start", "تشغيل البوت"); ("addbot", "إضافة بوت جديد"); ("mybots", "عرض بوتاتي"); ("stats", "إحصائيات البوت"); ("removebot", "حذف بوت"); ("language", "تغيير اللغة"); ("help", "مساعدة")]) ].

(** [self.strings] *)
Definition strings : list (string * list (string * value)) := [("en", en); ("ar", ar)].

(** What [str.format] raises. *)
Inductive error : Type :=
| KeyError (name : string)
| IndexError
| ValueError
| AttributeError.

(** The outcome of a call: a result, an exception, or [None] for a format
    string outside the fragment modelled here (a replacement field with a
    conversion, a format specification, an attribute, an index, a nested
    field or a character that is not ASCII in its name). *)
Definition outcome (A : Type) : Type := option (error + A).

Definition emit (c : ascii) (r : outcome string) : outcome string :=
  match r with
  | Some (inr s) => Some (inr (String c s))
  | _ => r
  end.

Definition emit_str (v : string) (r : outcome string) : outcome string :=
  match r with
  | Some (inr s) => Some (inr (v ++ s))
  | _ => r
  end.

Definition is_digit (c : ascii) : bool :=
  (48 <=? nat_of_ascii c)%nat && (nat_of_ascii c <=? 57)%nat.

(** A character that ends the plain name of a replacement field or makes the
    field more than a plain name. *)
Definition beyond_name (c : ascii) : bool :=
  Ascii.eqb c "{" || Ascii.eqb c "!" || Ascii.eqb c ":" || Ascii.eqb c "."
  || Ascii.eqb c "[" || Ascii.eqb c "]" || (128 <=? nat_of_ascii c)%nat.

(** The value of the replacement field [name] when only keyword arguments
    are passed: the empty name and a number are positions, which do not
    exist. *)
Definition field_value (name : string) (kwargs : list (string * pyval)) : error + string :=
  if forallb is_digit (list_ascii_of_string name) then inl IndexError
  else match Dict.get name kwargs with
       | Some v => inr (py_str v)
       | None => inl (KeyError name)
       end.

(** [text.format] on keyword arguments, from left to right; [field] is [None] in
    literal text and holds the name read so far inside a replacement
    field. *)
Fixpoint format_from (field : option string) (text : string)
    (kwargs : list (string * pyval)) : outcome string :=
  match text with
  | EmptyString =>
      match field with
      | None => Some (inr EmptyString)
      | Some _ => Some (inl ValueError)
      end
  | String c rest =>
      match field with
      | None =>
          if Ascii.eqb c "{" then
            match rest with
            | String "{" rest' => emit "{" (format_from None rest' kwargs)
            | _ => format_from (Some EmptyString) rest kwargs
            end
          else if Ascii.eqb c "}" then
            match rest with
            | String "}" rest' => emit "}" (format_from None rest' kwargs)
            | _ => Some (inl ValueError)
            end
          else emit c (format_from None rest kwargs)
      | Some name =>
          if Ascii.eqb c "}" then
            match field_value name kwargs with
            | inl e => Some (inl e)
            | inr v => emit_str v (format_from None rest kwargs)
            end
          else if beyond_name c then None
          else format_from (Some (name ++ String c EmptyString)) rest kwargs
      end
  end.

Definition format (text : string) (kwargs : list (string * pyval)) : outcome string :=
  format_from None text kwargs.

(** [I18n.get] on a key, a language (which may be [None]) and keyword
    arguments. *)
Definition get (key : string) (lang : option string) (kwargs : list (string * pyval))
    : outcome value :=
  let lang :=
    match lang with
    | Some l => if Dict.mem l strings then l else "en"
    | None => "en"
    end in
  let text :=
    match Dict.get key (default [] (Dict.get lang strings)) with
    | Some v => v
    | None =>
        match Dict.get key (default [] (Dict.get "en" strings)) with
        | Some v => v
        | None => Txt key
        end
    end in
  match kwargs with
  | [] => Some (inr text)
  | _ =>
      match text with
      | Txt s =>
          match format s kwargs with
          | Some (inr r) => Some (inr (Txt r))
          | Some (inl e) => Some (inl e)
          | None => None
          end
      | Sub _ => Some (inl AttributeError)
      end
  end.

(** The English list of [setup_bot_commands]: command and description. *)
Definition commands_en : list (string * outcome value) :=
  [ ("start", get "commands.start" (Some "en") []);
    ("addbot", get "commands.addbot" (Some "en") []);
    ("mybots", get "commands.mybots" (Some "en") []);
    ("stats", get "commands.stats" (Some "en") []);
    ("removebot", get "commands.removebot" (Some "en") []);
    ("language", get "commands.language" (Some "en") []);
    ("help", get "commands.help" (Some "en") []) ].

(** [a + b] on what [get] returned: defined on two texts. *)
Definition plus (a : outcome value) (b : string) : outcome value :=
  match a with
  | Some (inr (Txt s)) => Some (inr (Txt (s ++ b)))
  | Some (inr (Sub _)) => None
  | _ => a
  end.

Definition plus_out (a b : outcome value) : outcome value :=
  match a with
  | Some (inr (Txt s)) =>
      match b with
      | Some (inr (Txt t)) => Some (inr (Txt (s ++ t)))
      | Some (inr (Sub _)) => None
      | _ => b
      end
  | Some (inr (Sub _)) => None
  | _ => a
  end.

(** The statistics that [get_global_stats] returns. *)
Record stats : Type := Stats {
  total_users : pyval;
  total_bots : pyval;
  total_updates : pyval;
  total_messages : pyval;
  top_bot : option (pyval * pyval)      (* bot_name, total_updates *)
}.

(** The text that [cmd_admin] builds for an administrator. *)
Definition admin_text (lang : option string) (st : stats) : outcome value :=
  let text := plus (get "admin_panel_msg" lang []) (nl ++ nl) in
  let text := plus (plus_out text (get "total_users" lang [("count", total_users st)])) nl in
  let text := plus (plus_out text (get "total_bots" lang [("count", total_bots st)])) nl in
  let text := plus (plus_out text (get "total_updates" lang [("count", total_updates st)])) nl in
  let text := plus (plus_out text (get "total_messages" lang [("count", total_messages st)])) nl in
  match top_bot st with
  | Some (name, updates) =>
      plus_out (plus text nl) (get "top_bot" lang [("name", name); ("updates", updates)])
  | None => text
  end.

End I18n.

(** ** [I18n.get_keyboard] *)

Module Keyboard.

(** A button as a caller passes it: the key of its label, or a dictionary
    for an inline button. *)
Inductive button : Type :=
| Key (key : string)
| Inline (text_key callback_data : string).

(** What building the keyboard raises: the name [InlineKeyboardButton] is
    not bound in the module, and a [KeyboardButton] needs a text. *)
Inductive error : Type :=
| NameError (name : string)
| ValidationError.

Fixpoint build_row (row : list button) (lang : option string) : error + list string :=
  match row with
  | [] => inr []
  | Key key :: rest =>
      match I18n.get key lang [] with
      | Some (inr (I18n.Txt label)) =>
          match build_row rest lang with
          | inr labels => inr (label :: labels)
          | inl e => inl e
          end
      | _ => inl ValidationError
      end
  | Inline _ _ :: _ => inl (NameError "InlineKeyboardButton")
  end.

(** [I18n.get_keyboard]: the labels of the reply keyboard, row by row. *)
Fixpoint get_keyboard (buttons : list (list button)) (lang : option string)
    : error + list (list string) :=
  match buttons with
  | [] => inr []
  | row :: rest =>
      match build_row row lang with
      | inr labels =>
          match get_keyboard rest lang with
          | inr rows => inr (labels :: rows)
          | inl e => inl e
          end
      | inl e => inl e
      end
  end.

(** No button of the keyboard is an inline one. *)
Definition plain (buttons : list (list button)) : Prop :=
  ∀ row b, row ∈ buttons → b ∈ row → ∃ key, b = Key key ∧ key ≠ "commands".

End Keyboard.

(** ** [cleanup_task] *)

(** Some path lies below [p]. *)
Definition has_below (w : world) (p : string) : bool :=
  existsb (fun q => bool_decide (is_Some (child_of p q))) (Dict.keys (fs w)).

(** [os.path.exists(p)]: an entry, or a directory implied by a path
    below. *)
Definition path_exists (w : world) (p : string) : bool :=
  Dict.mem p (fs w) || has_below w p.

(** [os.listdir(p)], with its failures *)
Definition os_listdir (p : string) : M (list string) :=
  fun w => match Dict.get p (fs w) with
           | Some Dir => (Ok (listing p w), w)
           | Some _ => (Raise (NotADirectoryError p), w)
           | None => if has_below w p then (Ok (listing p w), w)
                     else (Raise (FileNotFoundError p), w)
           end.

(** [os.remove(p)] *)
Definition os_remove (p : string) : M unit :=
  fun w => match Dict.get p (fs w) with
           | Some Dir => (Raise (IsADirectoryError p), w)
           | Some _ => (Ok tt, set_fs (Dict.del p) w)
           | None => if has_below w p then (Raise (IsADirectoryError p), w)
                     else (Raise (FileNotFoundError p), w)
           end.

(** The loop of [cleanup_task] over the listed names. *)
Definition clean_logs (host : Host) (names : list string) : M unit :=
  for_each names (fun f =>
    (* Don't delete the main log file we are currently using *)
    if negb (String.eqb f "main_bot.log") then
      try_except (os_remove (abspath host (path_join "logs" f))) (fun e => ret tt)
    else ret tt).

(** One round of [cleanup_task], between two sleeps; relative paths are
    resolved against the current directory. *)
Definition cleanup_round (host : Host) : M unit :=
  try_except
    (w <- get_world ;;
     (if path_exists w (abspath host "logs") then
        names <- os_listdir (abspath host "logs") ;;
        clean_logs host names
      else ret tt) ;;
     (* Clear empty app folders or old temp files *)
     w <- get_world ;;
     (if path_exists w (abspath host "hosted_apps") then ret tt else ret tt))
    (fun e => ret tt).

(** Something other than a directory is stored at [p]. *)
Definition regular (w : world) (p : string) : Prop :=
  ∃ n, Dict.get p (fs w) = Some n ∧ n ≠ Dir.

(** The paths that a round of [cleanup_task] removes: what is listed in
    the log directory, is not the main log file and is no directory. *)
Definition swept (host : Host) (w : world) (q : string) : Prop :=
  ∃ f, f ∈ listing (abspath host "logs") w
       ∧ f ≠ "main_bot.log"
       ∧ q = abspath host "logs" ++ "/" ++ f
       ∧ regular w q.

(** ** [Database] *)

Module DB.

Local Open Scope Z_scope.

(** A row of [users]. *)
Record user_row : Type := UserRow {
  u_id : Z;
  u_telegram_id : Z;
  u_username : option string;
  u_first_name : option string;
  u_language : option string;
  u_role : string;
  u_created_at : string;
  u_last_active : option string;
  u_is_active : bool
}.

(** A row of [bots]. *)
Record bot_row : Type := BotRow {
  b_id : Z;
  b_owner_id : Z;
  b_token : string;
  b_name : string;
  b_username : string;
  b_code_path : option string;
  b_type : string;
  b_port : option Z;
  b_is_active : bool;
  b_created_at : string;
  b_last_update : option string;
  b_total_updates : Z;
  b_total_messages : Z
}.

(** A row of [daily_stats]. *)
Record daily_row : Type := DailyRow {
  d_id : Z;
  d_bot_id : Z;
  d_date : string;
  d_updates_count : Z;
  d_messages_count : Z
}.

(** A row of [logs]. *)
Record log_row : Type := LogRow {
  l_id : Z;
  l_user_id : Z;
  l_action : string;
  l_details : option string;
  l_timestamp : string
}.

(** The tables, each in rowid order. *)
Record t : Type := Mk {
  users : list user_row;
  bots : list bot_row;
  daily_stats : list daily_row;
  logs : list log_row
}.

(** The tables right after [init] on a new file. *)
Definition empty : t := Mk [] [] [] [].

(** [kwargs.get(key)] and [kwargs.get(key, default)] *)
Definition kwarg (kwargs : list (string * option string)) (key : string) : option string :=
  match Dict.get key kwargs with Some v => v | None => None end.

Definition kwarg_or (kwargs : list (string * option string)) (key : string)
    (default : string) : option string :=
  match Dict.get key kwargs with Some v => v | None => Some default end.

(** [Database.get_user]; [telegram_id] is [UNIQUE]. *)
Definition get_user (db : t) (telegram_id : Z) : option user_row :=
  List.find (fun u => u_telegram_id u =? telegram_id) (users db).

(** [Database.create_user]; [rowid] is the id that the table allocates
    for a new row and [now] is [CURRENT_TIMESTAMP]. *)
Definition create_user (db : t) (telegram_id : Z) (kwargs : list (string * option string))
    (rowid : Z) (now : string) : t * option user_row :=
  let username := kwarg kwargs "username" in
  let first_name := kwarg kwargs "first_name" in
  let language := kwarg_or kwargs "language" "en" in
  let db' :=
    match get_user db telegram_id with
    | Some _ =>
        (* ON CONFLICT(telegram_id) DO UPDATE *)
        Mk (map (fun u =>
                   if u_telegram_id u =? telegram_id
                   then UserRow (u_id u) (u_telegram_id u) username first_name
                          (u_language u) (u_role u) (u_created_at u) (Some now)
                          (u_is_active u)
                   else u) (users db))
           (bots db) (daily_stats db) (logs db)
    | None =>
        Mk (users db ++ [UserRow rowid telegram_id username first_name language
                           "user" now None true])
           (bots db) (daily_stats db) (logs db)
    end in
  (db', get_user db' telegram_id).

(** [Database.update_language] *)
Definition update_language (db : t) (telegram_id : Z) (language : string) : t :=
  Mk (map (fun u =>
             if u_telegram_id u =? telegram_id
             then UserRow (u_id u) (u_telegram_id u) (u_username u) (u_first_name u)
                    (Some language) (u_role u) (u_created_at u) (u_last_active u)
                    (u_is_active u)
             else u) (users db))
     (bots db) (daily_stats db) (logs db).

(** [Database.get_language]: [None] is a [NULL] language. *)
Definition get_language (db : t) (telegram_id : Z) : option string :=
  match get_user db telegram_id with
  | Some user => u_language user
  | None => Some "en"
  end.

(** Insertion of a row into a list sorted by [created_at], latest first;
    rows with equal time stamps stay in rowid order. *)
Fixpoint insert_by_created (b : bot_row) (l : list bot_row) : list bot_row :=
  match l with
  | [] => [b]
  | x :: rest =>
      if String.ltb (b_created_at b) (b_created_at x) then x :: insert_by_created b rest
      else b :: l
  end.

(** [Database.get_user_bots]: the active bots of the user, [ORDER BY
    created_at DESC]. *)
Definition get_user_bots (db : t) (telegram_id : Z) : list bot_row :=
  fold_right insert_by_created []
    (List.filter
       (fun b => existsb (fun u => (b_owner_id b =? u_id u)
                                   && (u_telegram_id u =? telegram_id)) (users db)
                 && b_is_active b)
       (bots db)).

(** [Database.add_bot]; [bot_token] is [UNIQUE]. *)
Definition add_bot (db : t) (owner_telegram_id : Z) (bot_token bot_name bot_username : string)
    (code_path : option string) (rowid : Z) (now : string) : t * (bool * string) :=
  (match get_user db owner_telegram_id with
   | Some owner =>
       if existsb (fun b => String.eqb (b_token b) bot_token) (bots db) then
         (* ON CONFLICT(bot_token) DO UPDATE *)
         Mk (users db)
            (map (fun b =>
                    if String.eqb (b_token b) bot_token
                    then BotRow (b_id b) (b_owner_id b) (b_token b) (b_name b) bot_username
                           code_path (b_type b) (b_port b) true (b_created_at b)
                           (b_last_update b) (b_total_updates b) (b_total_messages b)
                    else b) (bots db))
            (daily_stats db) (logs db)
       else
         Mk (users db)
            (bots db ++ [BotRow rowid (u_id owner) bot_token bot_name bot_username
                           code_path "bot" None true now None 0 0])
            (daily_stats db) (logs db)
   | None => db
   end,
   (true, "SUCCESS")).

(** [Database.remove_bot] *)
Definition remove_bot (db : t) (bot_token : string) : t * bool :=
  (Mk (users db)
      (map (fun b =>
              if String.eqb (b_token b) bot_token
              then BotRow (b_id b) (b_owner_id b) (b_token b) (b_name b) (b_username b)
                     (b_code_path b) (b_type b) (b_port b) false (b_created_at b)
                     (b_last_update b) (b_total_updates b) (b_total_messages b)
              else b) (bots db))
      (daily_stats db) (logs db),
   true).

(** [UPDATE bots SET total_messages = total_messages + 1, last_update =
    CURRENT_TIMESTAMP WHERE id = ?], or the same on [total_updates]. *)
Definition count_one (bot_id : Z) (is_message : bool) (now : string) (b : bot_row)
    : bot_row :=
  if b_id b =? bot_id
  then BotRow (b_id b) (b_owner_id b) (b_token b) (b_name b) (b_username b)
         (b_code_path b) (b_type b) (b_port b) (b_is_active b) (b_created_at b)
         (Some now)
         (if is_message then b_total_updates b else b_total_updates b + 1)
         (if is_message then b_total_messages b + 1 else b_total_messages b)
  else b.

(** The row of [daily_stats] that conflicts on [(bot_id, date)]. *)
Definition same_day (bot_id : Z) (today : string) (d : daily_row) : bool :=
  (d_bot_id d =? bot_id) && String.eqb (d_date d) today.

(** [updates_count = updates_count + excluded.updates_count,
    messages_count = messages_count + excluded.messages_count] *)
Definition add_counts (updates messages : Z) (d : daily_row) : daily_row :=
  DailyRow (d_id d) (d_bot_id d) (d_date d)
    (d_updates_count d + updates) (d_messages_count d + messages).

(** [Database.increment_stats]; [today] is [date.today().isoformat()]. *)
Definition increment_stats (db : t) (bot_token : string) (is_message : bool)
    (today : string) (rowid : Z) (now : string) : t :=
  (* Get bot id *)
  match List.find (fun b => String.eqb (b_token b) bot_token && b_is_active b) (bots db) with
  | None => db
  | Some bot =>
      let bot_id := b_id bot in
      (* Update totals *)
      let bots' := map (count_one bot_id is_message now) (bots db) in
      (* Update daily stats *)
      let updates := if is_message then 0 else 1 in
      let messages := if is_message then 1 else 0 in
      let daily' :=
        if existsb (same_day bot_id today) (daily_stats db) then
          map (fun d => if same_day bot_id today d then add_counts updates messages d else d)
              (daily_stats db)
        else (daily_stats db ++ [DailyRow rowid bot_id today updates messages])%list in
      Mk (users db) bots' daily' (logs db)
  end.

(** [Database.log] *)
Definition log (db : t) (user_id : Z) (action : string) (details : option string)
    (rowid : Z) (now : string) : t :=
  match get_user db user_id with
  | Some user =>
      Mk (users db) (bots db) (daily_stats db)
         (logs db ++ [LogRow rowid (u_id user) action details now])
  | None => db
  end.

(** The sum of a column. *)
Definition sum {A} (f : A → Z) (l : list A) : Z := fold_right (fun x acc => f x + acc) 0 l.

(** The first row with the largest [total_updates]. *)
Fixpoint top (l : list bot_row) : option bot_row :=
  match l with
  | [] => None
  | b :: rest =>
      match top rest with
      | Some b' => if b_total_updates b <? b_total_updates b' then Some b' else Some b
      | None => Some b
      end
  end.

Record global_stats : Type := GlobalStats {
  total_users : Z;
  total_bots : Z;
  total_updates : Z;
  total_messages : Z;
  top_bot : option (string * Z)
}.

(** [Database.get_global_stats] *)
Definition get_global_stats (db : t) : global_stats :=
  let active := List.filter b_is_active (bots db) in
  GlobalStats
    (Z.of_nat (length (users db)))
    (Z.of_nat (length active))
    (sum b_total_updates (bots db))
    (sum b_total_messages (bots db))
    (match top active with
     | Some b => Some (b_name b, b_total_updates b)
     | None => None
     end).

(** Calls of the database layer, each with the rowid and the time stamp
    that the database supplies. *)
Inductive op : Type :=
| CreateUser (telegram_id : Z) (kwargs : list (string * option string))
             (rowid : Z) (now : string)
| UpdateLanguage (telegram_id : Z) (language : string)
| AddBot (owner_telegram_id : Z) (bot_token bot_name bot_username : string)
         (code_path : option string) (rowid : Z) (now : string)
| RemoveBot (bot_token : string)
| IncrementStats (bot_token : string) (is_message : bool) (today : string)
                 (rowid : Z) (now : string)
| Log (user_id : Z) (action : string) (details : option string) (rowid : Z) (now : string).

Definition step (db : t) (a : op) : t :=
  match a with
  | CreateUser telegram_id kwargs rowid now =>
      fst (create_user db telegram_id kwargs rowid now)
  | UpdateLanguage telegram_id language => update_language db telegram_id language
  | AddBot owner bot_token bot_name bot_username code_path rowid now =>
      fst (add_bot db owner bot_token bot_name bot_username code_path rowid now)
  | RemoveBot bot_token => fst (remove_bot db bot_token)
  | IncrementStats bot_token is_message today rowid now =>
      increment_stats db bot_token is_message today rowid now
  | Log user_id action details rowid now => log db user_id action details rowid now
  end.

Definition run (db : t) (ops : list op) : t := fold_left step ops db.

(** The rowid of the call is new in the table it goes to, as an
    [AUTOINCREMENT] key is. *)
Definition fresh (db : t) (a : op) : bool :=
  match a with
  | CreateUser _ _ rowid _ => forallb (fun u => negb (u_id u =? rowid)) (users db)
  | AddBot _ _ _ _ _ rowid _ => forallb (fun b => negb (b_id b =? rowid)) (bots db)
  | IncrementStats _ _ _ rowid _ =>
      forallb (fun d => negb (d_id d =? rowid)) (daily_stats db)
  | Log _ _ _ rowid _ => forallb (fun l => negb (l_id l =? rowid)) (logs db)
  | _ => true
  end.

Fixpoint valid (db : t) (ops : list op) : bool :=
  match ops with
  | [] => true
  | a :: rest => fresh db a && valid (step db a) rest
  end.

(** The totals of every bot are the sums of its daily statistics. *)
Definition consistent (db : t) : Prop :=
  ∀ b, b ∈ bots db →
    b_total_updates b
    = sum d_updates_count (List.filter (fun d => d_bot_id d =? b_id b) (daily_stats db))
    ∧ b_total_messages b
      = sum d_messages_count (List.filter (fun d => d_bot_id d =? b_id b) (daily_stats db)).

(** The state of the tables that the calls maintain: the [UNIQUE] columns
    hold different values, every row of [daily_stats] belongs to a bot, and
    the totals are consistent. *)
Record wf (db : t) : Prop := Wf {
  wf_telegram_ids : NoDup (u_telegram_id <$> users db);
  wf_user_ids : NoDup (u_id <$> users db);
  wf_tokens : NoDup (b_token <$> bots db);
  wf_bot_ids : NoDup (b_id <$> bots db);
  wf_days : NoDup ((fun d => (d_bot_id d, d_date d)) <$> daily_stats db);
  wf_refs : ∀ d, d ∈ daily_stats db → ∃ b, b ∈ bots db ∧ b_id b = d_bot_id d;
  wf_consistent : consistent db
}.

End DB.

(** ** [process_remove_select] *)

(** The first row of [SELECT bot_token FROM bots WHERE bot_username = ? AND
    is_active = 1], in rowid order. *)
Definition active_by_username (db : DB.t) (username : string) : option DB.bot_row :=
  List.find (fun b => String.eqb (DB.b_username b) username && DB.b_is_active b)
            (DB.bots db).

(** The cursor of the selection after [fetchone]: the statement has been
    stepped to the next row that the selection yields, so it is still open,
    and the connection of the handler keeps its read lock, exactly when
    another active row has the username. *)
Definition cursor_open (db : DB.t) (username : string) : bool :=
  Nat.ltb 1
    (length (List.filter
               (fun b => String.eqb (DB.b_username b) username && DB.b_is_active b)
               (DB.bots db))).

(** [Database.remove_bot] as [process_remove_select] calls it: on a
    connection of its own, while the connection of the handler is still
    inside [async with].  With the read lock of an open cursor on the file
    the commit cannot get the write lock; it gives up with
    [OperationalError] when the busy timeout has run out, and the update is
    rolled back. *)
Definition remove_bot_beside (locked : bool) (db : DB.t) (bot_token : string)
    : res (DB.t * bool) :=
  if locked then Raise (OperationalError "database is locked")
  else Ok (DB.remove_bot db bot_token).

(** [process_remove_select] on the registry and the database; [username] is
    the text of the message without the button prefix, stripped, and
    [from_user] the telegram id of the sender (the message has a sender).
    The result is the database and the text that the sender is answered
    with, if any; the menu that follows the answer is not modelled.  When
    the handler raises, the database is the one it was called with. *)
Definition process_remove_select (username : string) (from_user : Z) (db : DB.t)
    : M (DB.t * option (I18n.outcome I18n.value)) :=
  match active_by_username db username with
  | Some row =>
      let token := DB.b_token row in
      let lang := DB.get_language db from_user in
      _ <- unregister token ;;
      match remove_bot_beside (cursor_open db username) db token with
      | Ok (db', _) => ret (db', Some (I18n.get "bot_removed" lang []))
      | Raise e => raise e
      end
  | None => ret (db, None)
  end.

(** * Properties *)

(** ** MD5 test vectors *)

Example md5_empty : MD5.hexdigest "" = "d41d8cd98f00b204e9800998ecf8427e".
Proof. vm_compute. reflexivity. Qed.

Example md5_abc : MD5.hexdigest "abc" = "900150983cd24fb0d6963f7d28e17f72".
Proof. vm_compute. reflexivity. Qed.

Example md5_siteA : MD5.hexdigest "siteA" = "19fecf00ef5efe1a40e186b174e3f7d0".
Proof. vm_compute. reflexivity. Qed.

(** a message longer than one 64-byte block *)
Example md5_two_blocks :
  MD5.hexdigest "0123456789:abcdefghijklmnopqrstuvwxyzABCDEFGHIJKLMNOPQRSTUVWXYZ-_0123456789"
  = "7941c00a3a7fc9b883ed9ac5a5ef0ce1".
Proof. vm_compute. reflexivity. Qed.


(** ** [register] as token check, staging and launch *)

Lemma register_unfold host token name cc cp is_site o w :
  register host token name cc cp is_site o w =
  try_except
    (match check_token is_site o with
     | TokenRaises e => raise e
     | TokenRejected => ret (false, "Invalid Token")
     | TokenOk me_username =>
         staged <- stage host token cc cp ;;
         launch host token name me_username is_site o staged
     end)
    (fun e => ret (false, str_exn e)) w.
Proof.
  unfold register, check_token, try_except, stage, launch, target_dir_of.
  destruct is_site; cbn [negb];
    [|destruct (new_bot o) as [e|]; [reflexivity|];
      destruct (get_me o) as [u|]; [|reflexivity]];
  cbv beta delta [bind ret] iota.
  all: destruct (makedirs (abspath host "hosted_apps") w) as [[[]|e] w1]; [|reflexivity].
  all: destruct (makedirs _ w1) as [[[]|e] w2]; reflexivity.
Qed.

(** *** Dictionaries *)

Section DictFacts.
Context {V : Type}.
Implicit Types (d : list (string * V)) (k : string) (v : V).

Lemma eqb_refl' k : String.eqb k k = true.
Proof. apply String.eqb_refl. Qed.

Lemma eqb_ne k k' : k ≠ k' → String.eqb k k' = false.
Proof. intros H. apply String.eqb_neq. exact H. Qed.

Lemma get_set_eq k v d : Dict.get k (Dict.set k v d) = Some v.
Proof.
  induction d as [|[k' v'] d IH]; simpl.
  - by rewrite eqb_refl'.
  - destruct (String.eqb k k') eqn:E; simpl.
    + by rewrite eqb_refl'.
    + by rewrite E.
Qed.

Lemma get_set_ne k k' v d : k ≠ k' → Dict.get k' (Dict.set k v d) = Dict.get k' d.
Proof.
  intros Hne. induction d as [|[k0 v0] d IH]; simpl.
  - rewrite eqb_ne; [done|]. congruence.
  - destruct (String.eqb k k0) eqn:E; simpl.
    + apply String.eqb_eq in E. subst k0.
      rewrite eqb_ne; [done|]. congruence.
    + by rewrite IH.
Qed.

Lemma get_None_keys k d : Dict.get k d = None ↔ k ∉ Dict.keys d.
Proof.
  induction d as [|[k' v'] d IH]; simpl.
  - split; [intros _; apply not_elem_of_nil | done].
  - rewrite not_elem_of_cons. destruct (String.eqb k k') eqn:E.
    + apply String.eqb_eq in E. split; [done | intros [? _]; done].
    + apply String.eqb_neq in E. rewrite IH. tauto.
Qed.

Lemma get_Some_elem k v d : Dict.get k d = Some v → (k, v) ∈ d.
Proof.
  induction d as [|[k' v'] d IH]; simpl; [done|].
  destruct (String.eqb k k') eqn:E.
  - apply String.eqb_eq in E. intros [= ->]. subst. apply list_elem_of_here.
  - intros H. apply list_elem_of_further. auto.
Qed.

Lemma elem_get k v d : NoDup (Dict.keys d) → (k, v) ∈ d → Dict.get k d = Some v.
Proof.
  induction d as [|[k' v'] d IH]; simpl.
  - intros _ H. by apply elem_of_nil in H.
  - intros Hnd Hin. apply NoDup_cons in Hnd as [Hk Hnd].
    apply elem_of_cons in Hin as [[= -> ->]|Hin].
    + by rewrite eqb_refl'.
    + destruct (String.eqb k k') eqn:E.
      * apply String.eqb_eq in E. subst k'. exfalso. apply Hk.
        apply list_elem_of_fmap. by exists (k, v).
      * auto.
Qed.

Lemma keys_set_in k v d : Dict.get k d ≠ None → Dict.keys (Dict.set k v d) = Dict.keys d.
Proof.
  induction d as [|[k' v'] d IH]; simpl; [done|].
  destruct (String.eqb k k') eqn:E; simpl.
  - apply String.eqb_eq in E. by subst.
  - intros H. by rewrite IH.
Qed.

Lemma keys_set_new k v d :
  Dict.get k d = None → Dict.keys (Dict.set k v d) = (Dict.keys d ++ [k])%list.
Proof.
  induction d as [|[k' v'] d IH]; simpl; [done|].
  destruct (String.eqb k k') eqn:E; simpl; [done|].
  intros H. by rewrite IH.
Qed.

Lemma NoDup_keys_set k v d : NoDup (Dict.keys d) → NoDup (Dict.keys (Dict.set k v d)).
Proof.
  intros Hnd. destruct (Dict.get k d) eqn:E.
  - rewrite keys_set_in; [done | congruence].
  - rewrite keys_set_new; [|done].
    apply NoDup_app. split_and!; [done | | apply NoDup_singleton].
    intros x Hx Hx'. apply list_elem_of_singleton in Hx'. subst x.
    by apply get_None_keys in E.
Qed.

Lemma length_set k v d :
  length (Dict.set k v d) = if Dict.mem k d then length d else S (length d).
Proof.
  unfold Dict.mem. induction d as [|[k' v'] d IH]; simpl; [done|].
  destruct (String.eqb k k') eqn:E; simpl; [done|].
  rewrite IH. by destruct (Dict.get k d).
Qed.

Lemma keys_del_sub k k' d : k' ∈ Dict.keys (Dict.del k d) → k' ∈ Dict.keys d.
Proof.
  induction d as [|[k0 v0] d IH]; simpl; [done|].
  destruct (String.eqb k k0); simpl.
  - apply list_elem_of_further.
  - rewrite !elem_of_cons. intros [->|H]; auto.
Qed.

Lemma NoDup_keys_del k d : NoDup (Dict.keys d) → NoDup (Dict.keys (Dict.del k d)).
Proof.
  induction d as [|[k0 v0] d IH]; simpl; [done|].
  intros Hnd. apply NoDup_cons in Hnd as [Hk Hnd].
  destruct (String.eqb k k0); simpl; [done|].
  apply NoDup_cons. split; [|auto].
  intros H. apply Hk. by apply keys_del_sub in H.
Qed.

Lemma get_del_eq k d : NoDup (Dict.keys d) → Dict.get k (Dict.del k d) = None.
Proof.
  induction d as [|[k0 v0] d IH]; simpl; [done|].
  intros Hnd. apply NoDup_cons in Hnd as [Hk Hnd].
  destruct (String.eqb k k0) eqn:E; simpl.
  - apply String.eqb_eq in E. subst k0. by apply get_None_keys.
  - rewrite E. auto.
Qed.

Lemma get_del_ne k k' d : k ≠ k' → Dict.get k' (Dict.del k d) = Dict.get k' d.
Proof.
  intros Hne. induction d as [|[k0 v0] d IH]; simpl; [done|].
  destruct (String.eqb k k0) eqn:E; simpl.
  - apply String.eqb_eq in E. subst k0. rewrite eqb_ne; [done|congruence].
  - by rewrite IH.
Qed.

Lemma length_del k d :
  length (Dict.del k d) = if Dict.mem k d then pred (length d) else length d.
Proof.
  unfold Dict.mem. induction d as [|[k' v'] d IH]; simpl; [done|].
  destruct (String.eqb k k') eqn:E; simpl; [done|].
  rewrite IH. destruct (Dict.get k d) eqn:G; [|done].
  destruct d; simpl in *; [done|lia].
Qed.

Lemma elem_values_get d v :
  NoDup (Dict.keys d) → v ∈ Dict.values d → ∃ k, Dict.get k d = Some v.
Proof.
  intros Hnd Hin. apply list_elem_of_fmap in Hin as [[k v'] [-> Hin]].
  exists k. by apply elem_get.
Qed.
End DictFacts.

(** ** File-system frames *)

Lemma only_fs_refl w : only_fs w w.
Proof. by destruct w. Qed.

Lemma only_fs_trans w1 w2 w3 : only_fs w1 w2 → only_fs w2 w3 → only_fs w1 w3.
Proof. unfold only_fs. intros H12 H23. rewrite H23 at 1. rewrite H12 at 1. by destruct w1. Qed.

Lemma only_fs_set f w : only_fs w (set_fs f w).
Proof. by destruct w. Qed.

Lemma only_fs_bots w w' : only_fs w w' → bots w' = bots w.
Proof. intros ->. by destruct w. Qed.

Lemma only_fs_procs w w' : only_fs w w' → procs w' = procs w.
Proof. intros ->. by destruct w. Qed.

Lemma only_fs_calls w w' : only_fs w w' → calls w' = calls w.
Proof. intros ->. by destruct w. Qed.

Lemma FsOnly_ret {A} (a : A) : FsOnly (ret a).
Proof. intros w. apply only_fs_refl. Qed.

Lemma FsOnly_raise {A} e : FsOnly (@raise A e).
Proof. intros w. apply only_fs_refl. Qed.

Lemma FsOnly_bind {A B} (c : M A) (k : A → M B) :
  FsOnly c → (∀ a, FsOnly (k a)) → FsOnly (bind c k).
Proof.
  intros Hc Hk w. unfold bind. specialize (Hc w).
  destruct (c w) as [[a|e] w1]; simpl in *; [|done].
  eapply only_fs_trans; [exact Hc | apply Hk].
Qed.

Lemma FsOnly_get {A} (k : world → M A) :
  (∀ w0, FsOnly (k w0)) → FsOnly (bind get_world k).
Proof. intros Hk w. unfold bind, get_world. apply Hk. Qed.

Lemma FsOnly_makedirs p : FsOnly (makedirs p).
Proof.
  intros w. unfold makedirs.
  destruct (Dict.get p (fs w)) as [[]|]; simpl;
    auto using only_fs_refl, only_fs_set.
Qed.

Lemma FsOnly_write_node p n : FsOnly (write_node p n).
Proof.
  intros w. unfold write_node.
  destruct (Dict.get p (fs w)) as [[]|]; simpl;
    auto using only_fs_refl, only_fs_set.
Qed.

Lemma FsOnly_for_each {A} (l : list A) (f : A → M unit) :
  (∀ x, FsOnly (f x)) → FsOnly (for_each l f).
Proof.
  intros Hf. induction l as [|x l IH]; simpl.
  - apply FsOnly_ret.
  - apply FsOnly_bind; auto.
Qed.

Lemma FsOnly_mkdir_member p : FsOnly (mkdir_member p).
Proof.
  intros w. unfold mkdir_member.
  destruct (Dict.get p (fs w)) as [[]|]; simpl;
    auto using only_fs_refl, only_fs_set.
Qed.

Lemma FsOnly_extract_member d m : FsOnly (extract_member d m).
Proof.
  unfold extract_member. destruct (Str.endswith (fst m) "/").
  - apply FsOnly_for_each. intros x. apply FsOnly_mkdir_member.
  - destruct (arc_components (fst m)); [apply FsOnly_raise|].
    apply FsOnly_bind; [|intros _; apply FsOnly_write_node].
    apply FsOnly_for_each. intros x. apply FsOnly_mkdir_member.
Qed.

Lemma FsOnly_extractall p d : FsOnly (extractall p d).
Proof.
  apply FsOnly_get. intros w0.
  destruct (Dict.get p (fs w0)) as [[]|]; try apply FsOnly_raise.
  apply FsOnly_for_each. intros x. apply FsOnly_extract_member.
Qed.

Lemma FsOnly_copy src dst : FsOnly (copy src dst).
Proof.
  apply FsOnly_get. intros w0.
  destruct (Dict.get src (fs w0)) as [[]|]; try apply FsOnly_raise;
    destruct (Dict.get dst (fs w0)) as [[]|]; apply FsOnly_write_node.
Qed.

Lemma FsOnly_listdir d : FsOnly (listdir d).
Proof. apply FsOnly_get. intros w0. apply FsOnly_ret. Qed.

Lemma FsOnly_stage host token cc cp : FsOnly (stage host token cc cp).
Proof.
  unfold stage.
  apply FsOnly_bind; [apply FsOnly_makedirs | intros _].
  apply FsOnly_bind; [apply FsOnly_makedirs | intros _].
  destruct (Str.truthy _).
  { apply FsOnly_bind; [apply FsOnly_write_node | intros _; apply FsOnly_ret]. }
  destruct (Str.truthy cp); [|apply FsOnly_ret].
  destruct (Str.endswith _ ".zip").
  - apply FsOnly_bind; [apply FsOnly_extractall | intros _].
    apply FsOnly_bind; [apply FsOnly_listdir | intros ?; apply FsOnly_ret].
  - apply FsOnly_bind; [apply FsOnly_copy | intros _; apply FsOnly_ret].
Qed.

Lemma FsOnly_receive_payload host m : FsOnly (receive_payload host m).
Proof.
  unfold receive_payload. destruct (document m) as [[file_name data]|].
  - apply FsOnly_bind; [apply FsOnly_write_node | intros _; apply FsOnly_ret].
  - destruct (Str.truthy (text m)); apply FsOnly_ret.
Qed.

(** ** The outcomes of [register] *)

Lemma launch_cases host token name u is_site o staged w :
  launch_outcome host token name u is_site o staged w
    (launch host token name u is_site o staged w).
Proof.
  unfold launch. destruct (Str.truthy (fst staged)) eqn:Ht; simpl.
  - destruct (spawn o) as [coop|e] eqn:Hs.
    + destruct staged as [[entry|] rt]; simpl in *; [|done].
      cbv beta delta [bind get_world create_subprocess_exec modify ret] iota.
      apply (launch_spawned _ _ _ _ _ _ (Some entry, rt) _ coop entry); auto.
      intros ->. done.
    + cbv beta delta [bind get_world create_subprocess_exec raise] iota.
      by apply launch_spawn_fails.
  - by apply launch_no_entry.
Qed.

Lemma register_cases host token name cc cp is_site o w :
  register_outcome host token name cc cp is_site o w
    (register host token name cc cp is_site o w).
Proof.
  rewrite register_unfold. unfold try_except.
  destruct (check_token is_site o) as [u| |e0] eqn:Hc.
  - unfold bind. destruct (stage host token cc cp w) as [[staged|e] w1] eqn:Hst.
    + destruct (launch_cases host token name u is_site o staged w1)
        as [Hn|e Ht Hs|coop entry He Hne Hs].
      * by eapply register_no_entry.
      * by eapply register_spawn_fails.
      * destruct staged as [entry' rt]; simpl in *; subst entry'.
        by eapply register_done.
    + by eapply register_stage_raises.
  - by apply register_invalid_token.
  - by apply register_bot_raises.
Qed.

Lemma register_success host token name cc cp is_site o w u w' :
  register host token name cc cp is_site o w = (Ok (true, u), w') →
  ∃ entry_point runtime w1 coop,
    check_token is_site o = TokenOk u
    ∧ stage host token cc cp w = (Ok (Some entry_point, runtime), w1)
    ∧ entry_point ≠ ""
    ∧ spawn o = Spawned coop
    ∧ w' = launched host token name u is_site coop entry_point runtime w1.
Proof.
  intros Hreg. pose proof (register_cases host token name cc cp is_site o w) as Hc.
  rewrite Hreg in Hc. inversion Hc; subst.
  by eexists _, _, _, _.
Qed.

Lemma register_failure host token name cc cp is_site o w msg w' :
  register host token name cc cp is_site o w = (Ok (false, msg), w') →
  only_fs w w'.
Proof.
  intros Hreg. pose proof (register_cases host token name cc cp is_site o w) as Hc.
  rewrite Hreg in Hc.
  pose proof (FsOnly_stage host token cc cp w) as Hfs.
  inversion Hc; subst; try apply only_fs_refl;
    match goal with H : stage _ _ _ _ _ = _ |- _ => rewrite H in Hfs end; exact Hfs.
Qed.

Lemma register_returns host token name cc cp is_site o w :
  ∃ ok msg, fst (register host token name cc cp is_site o w) = Ok (ok, msg).
Proof.
  destruct (register_cases host token name cc cp is_site o w); simpl; eauto.
Qed.

(** *** Records *)

Lemma mk_record_process token name u pid port is_site :
  mk_record token name u pid port is_site !! "process" = Some (VProc pid).
Proof. reflexivity. Qed.

Lemma mk_record_port token name u pid port is_site :
  mk_record token name u pid port is_site !! "port"
  = Some (match port with Some p => VInt p | None => VNone end).
Proof. reflexivity. Qed.

Lemma mk_record_type token name u pid port is_site :
  mk_record token name u pid port is_site !! "type"
  = Some (VStr (if is_site then "site" else "bot")).
Proof. reflexivity. Qed.

Lemma mk_record_token token name u pid port is_site :
  mk_record token name u pid port is_site !! "token" = Some (VStr token).
Proof. reflexivity. Qed.

Lemma mk_record_username token name u pid port is_site :
  mk_record token name u pid port is_site !! "username" = Some (VStr u).
Proof. reflexivity. Qed.

Lemma mk_record_total_updates token name u pid port is_site :
  mk_record token name u pid port is_site !! "total_updates" = None.
Proof. reflexivity. Qed.

Lemma mk_record_log_file token name u pid port is_site :
  mk_record token name u pid port is_site !! "log_file" = None.
Proof. reflexivity. Qed.

Lemma mk_record_nonempty token name u pid port is_site :
  mk_record token name u pid port is_site ≠ ∅.
Proof.
  intros H. assert (mk_record token name u pid port is_site !! "token" = (∅ : pydict) !! "token")
    as E by (by rewrite H).
  rewrite mk_record_token in E. done.
Qed.

(** ** Stopping a child *)

Lemma stop_process_stopped pid w : stop_process pid w = (Ok tt, stopped pid w).
Proof.
  unfold stop_process, stopped, try_except, bind, terminate, wait_for, kill, is_running.
  destruct (procs w !! pid) as [p|] eqn:Hp; simpl; [|done].
  destruct (p_status p) eqn:Hs; simpl; [|done].
  rewrite Hp, Hs. destruct (p_coop p) eqn:Hc; simpl; [done|].
  rewrite Hp, Hs. done.
Qed.

Lemma bots_stopped pid w : bots (stopped pid w) = bots w.
Proof. unfold stopped. repeat case_match; reflexivity. Qed.

Lemma fs_stopped pid w : fs (stopped pid w) = fs w.
Proof. unfold stopped. repeat case_match; reflexivity. Qed.

Lemma length_procs_set_status pid st w :
  length (procs (set_status pid st w)) = length (procs w).
Proof. unfold set_status. simpl. apply length_alter. Qed.

Lemma length_procs_stopped pid w : length (procs (stopped pid w)) = length (procs w).
Proof.
  unfold stopped. repeat case_match; try reflexivity;
    by rewrite length_procs_set_status.
Qed.

Lemma is_running_set_status pid pid' w :
  is_running (set_status pid Exited w) pid'
  = if decide (pid = pid') then false else is_running w pid'.
Proof.
  unfold is_running, set_status. simpl. case_decide as E.
  - subst pid'. rewrite list_lookup_alter_eq. by destruct (procs w !! pid).
  - by rewrite list_lookup_alter_ne.
Qed.

Lemma is_running_stopped pid pid' w :
  is_running (stopped pid w) pid'
  = if decide (pid = pid') then false else is_running w pid'.
Proof.
  unfold stopped.
  destruct (procs w !! pid) as [p|] eqn:Hp.
  - destruct (p_status p) eqn:Hs.
    + destruct (p_coop p); rewrite is_running_set_status; reflexivity.
    + case_decide; [|reflexivity]. subst pid'.
      unfold is_running. simpl. by rewrite Hp, Hs.
  - case_decide; [|reflexivity]. subst pid'.
    unfold is_running. simpl. by rewrite Hp.
Qed.

(** The calls of [stopped] come after the earlier ones, start with the
    termination request and all address [pid]. *)
Lemma calls_stopped pid w :
  ∃ rest, calls (stopped pid w) = (calls w ++ Terminate pid :: rest)%list
          ∧ ∀ c, c ∈ rest → call_pid c = pid.
Proof.
  unfold stopped.
  destruct (procs w !! pid) as [p|]; [destruct (p_status p); [destruct (p_coop p)|]|]; simpl.
  - exists [Wait pid]. rewrite <- app_assoc. split; [done|].
    intros c Hc. apply list_elem_of_singleton in Hc. by subst.
  - exists [Wait pid; Kill pid]. rewrite <- !app_assoc. split; [done|].
    intros c Hc. apply elem_of_cons in Hc as [->|Hc]; [done|].
    apply list_elem_of_singleton in Hc. by subst.
  - exists []. split; [done|]. intros c Hc. by apply elem_of_nil in Hc.
  - exists []. split; [done|]. intros c Hc. by apply elem_of_nil in Hc.
Qed.

(** *** [unregister] and [process_update] on the records [register] makes *)

Lemma unregister_unknown token w :
  lookup_bot w token = None → unregister token w = (Ok false, w).
Proof.
  unfold lookup_bot, unregister, bind, get_world. intros ->. reflexivity.
Qed.

Lemma unregister_record token r pid w :
  lookup_bot w token = Some r →
  r !! "process" = Some (VProc pid) →
  r !! "log_file" = None →
  unregister token w = (Ok true, set_bots (Dict.del token) (stopped pid w)).
Proof.
  unfold lookup_bot, unregister. intros Hr Hp Hl.
  cbv beta delta [bind get_world] iota. rewrite Hr, Hp, Hl. simpl.
  change (try_except _ _ w) with (stop_process pid w).
  rewrite stop_process_stopped. reflexivity.
Qed.

Lemma process_update_unknown token d w :
  lookup_bot w token = None → process_update token d w = (Ok None, w).
Proof.
  unfold lookup_bot, process_update, bind, get_world. intros ->. reflexivity.
Qed.

Lemma process_update_record token r d w :
  lookup_bot w token = Some r →
  r !! "total_updates" = None →
  process_update token d w = (Ok (Some (ok_false (KeyError "total_updates"))), w).
Proof.
  unfold lookup_bot, process_update. intros Hr Ht.
  cbv beta delta [bind get_world try_except getitem] iota. rewrite Hr, Ht. reflexivity.
Qed.

(** ** The invariant of the registry *)

Lemma wf_record_process w token r :
  wf_record w token r → ∃ pid, process_of r = Some (VProc pid) ∧ pid < length (procs w).
Proof. intros (name & u & pid & port & s & -> & Hlt & _). by exists pid. Qed.

Lemma wf_record_mono w w' token r :
  (length (procs w) ≤ length (procs w'))%nat → wf_record w token r → wf_record w' token r.
Proof.
  intros Hle (name & u & pid & port & s & -> & Hlt & Hp).
  exists name, u, pid, port, s. split_and!; [done | lia | done].
Qed.

Lemma inv_init fs0 : inv (init_world fs0).
Proof.
  constructor; simpl; unfold lookup_bot; simpl; try done;
    try (intros ? Hc; by apply elem_of_nil in Hc).
  apply NoDup_nil_2.
Qed.

Lemma inv_only_fs w w' : only_fs w w' → inv w → inv w'.
Proof.
  intros -> [H1 H2 H3 H4 H5 H6]. destruct w. constructor; simpl in *; auto.
Qed.

Lemma inv_add_db_bot r w : inv w → inv (add_db_bot r w).
Proof. intros [H1 H2 H3 H4 H5 H6]. destruct w. constructor; simpl in *; auto. Qed.

Lemma inv_child_exit pid w : inv w → inv (child_exit pid w).
Proof.
  intros [H1 H2 H3 H4 H5 H6]. unfold child_exit.
  constructor; unfold lookup_bot in *.
  - exact H1.
  - intros token r Hr. eapply wf_record_mono; [|by apply H2].
    by rewrite length_procs_set_status.
  - exact H3.
  - intros c Hc. rewrite length_procs_set_status. by apply H4.
  - exact H5.
  - intros pid' Hc. rewrite is_running_set_status. case_decide; [done|]. by apply H6.
Qed.

Section Launched.
Variables (host : Host) (token name u : string) (is_site coop : bool)
          (entry rt : string) (w : world).

Let w' := launched host token name u is_site coop entry rt w.
Let rec := mk_record token name u (length (procs w)) (allocate_port is_site w) is_site.

Lemma bots_launched : bots w' = Dict.set token rec (bots w).
Proof. reflexivity. Qed.

Lemma calls_launched : calls w' = calls w.
Proof. reflexivity. Qed.

Lemma fs_launched : fs w' = fs w.
Proof. reflexivity. Qed.

Lemma procs_launched :
  procs w' = (procs w ++ [Proc (child_cmd rt entry) (target_dir_of host token)
                            (child_env host token (allocate_port is_site w))
                            coop Running])%list.
Proof. reflexivity. Qed.

Lemma length_procs_launched : length (procs w') = S (length (procs w)).
Proof. rewrite procs_launched, length_app. simpl. lia. Qed.

Lemma lookup_bot_launched_eq : lookup_bot w' token = Some rec.
Proof. unfold lookup_bot. rewrite bots_launched. apply get_set_eq. Qed.

Lemma lookup_bot_launched_ne t : token ≠ t → lookup_bot w' t = lookup_bot w t.
Proof. intros Hne. unfold lookup_bot. rewrite bots_launched. by apply get_set_ne. Qed.

Lemma is_running_launched pid :
  pid < length (procs w) → is_running w' pid = is_running w pid.
Proof.
  intros Hlt. unfold is_running. rewrite procs_launched.
  by rewrite lookup_app_l.
Qed.

Lemma is_running_launched_new : is_running w' (length (procs w)) = true.
Proof.
  unfold is_running. rewrite procs_launched.
  rewrite lookup_app_r by lia. by rewrite Nat.sub_diag.
Qed.

Lemma wf_record_launched : wf_record w' token rec.
Proof.
  exists name, u, (length (procs w)), (allocate_port is_site w), is_site.
  split_and!; [done | rewrite length_procs_launched; lia |].
  unfold allocate_port. destruct is_site; [|done].
  eexists. split; [done | lia].
Qed.

Lemma inv_launched : inv w → inv w'.
Proof.
  intros [H1 H2 H3 H4 H5 H6]. constructor.
  - rewrite bots_launched. by apply NoDup_keys_set.
  - intros t r Hr. destruct (decide (token = t)) as [<-|Hne].
    + rewrite lookup_bot_launched_eq in Hr. injection Hr as <-.
      apply wf_record_launched.
    + rewrite lookup_bot_launched_ne in Hr by done.
      eapply wf_record_mono; [|by apply H2].
      rewrite length_procs_launched. lia.
  - intros t1 t2 r1 r2 pid Hr1 Hr2 Hp1 Hp2.
    destruct (decide (token = t1)) as [<-|Hne1];
      destruct (decide (token = t2)) as [<-|Hne2]; [done | | |].
    + rewrite lookup_bot_launched_eq in Hr1. injection Hr1 as <-.
      rewrite lookup_bot_launched_ne in Hr2 by done.
      apply H2, wf_record_process in Hr2 as (pid' & Hp' & Hlt).
      unfold process_of in *. subst rec. rewrite mk_record_process in Hp1.
      rewrite Hp2 in Hp'. injection Hp1 as <-. injection Hp' as <-. lia.
    + rewrite lookup_bot_launched_eq in Hr2. injection Hr2 as <-.
      rewrite lookup_bot_launched_ne in Hr1 by done.
      apply H2, wf_record_process in Hr1 as (pid' & Hp' & Hlt).
      unfold process_of in *. subst rec. rewrite mk_record_process in Hp2.
      rewrite Hp1 in Hp'. injection Hp2 as <-. injection Hp' as <-. lia.
    + rewrite lookup_bot_launched_ne in Hr1, Hr2 by done. eauto.
  - intros c Hc. rewrite calls_launched in Hc. rewrite length_procs_launched.
    apply H4 in Hc. lia.
  - intros t r pid Hr Hp. rewrite calls_launched.
    destruct (decide (token = t)) as [<-|Hne].
    + rewrite lookup_bot_launched_eq in Hr. injection Hr as <-.
      unfold process_of in Hp. subst rec. rewrite mk_record_process in Hp.
      injection Hp as <-. intros Hc. apply H4 in Hc. simpl in Hc. lia.
    + rewrite lookup_bot_launched_ne in Hr by done. eauto.
  - intros pid Hc. rewrite calls_launched in Hc.
    rewrite is_running_launched; [by apply H6|]. by apply H4 in Hc.
Qed.
End Launched.

Lemma inv_register host token name cc cp is_site o w :
  inv w → inv (snd (register host token name cc cp is_site o w)).
Proof.
  intros Hinv.
  destruct (register_cases host token name cc cp is_site o w)
    as [Hc|e Hc|u e w1 Hc Hst|u staged w1 Hc Hst Hn|u staged w1 e Hc Hst Hn Hs
        |u entry rt w1 coop Hc Hst Hne Hs]; simpl; [done|done|..];
    pose proof (FsOnly_stage host token cc cp w) as Hfs;
    rewrite Hst in Hfs; simpl in Hfs;
    try (by eapply inv_only_fs).
  apply inv_launched. by eapply inv_only_fs.
Qed.

Lemma inv_unregister token w : inv w → inv (snd (unregister token w)).
Proof.
  intros Hinv. destruct (lookup_bot w token) as [r|] eqn:Hr.
  2: { by rewrite unregister_unknown. }
  pose proof Hinv as [H1 H2 H3 H4 H5 H6].
  destruct (H2 _ _ Hr) as (name & u & pid & port & s & -> & Hlt & Hport).
  erewrite unregister_record;
    [|exact Hr|apply mk_record_process|apply mk_record_log_file].
  simpl. destruct (calls_stopped pid w) as (rest & Hcalls & Hrest).
  assert (∀ t, lookup_bot (set_bots (Dict.del token) (stopped pid w)) t
               = if decide (token = t) then None else lookup_bot w t) as Hlk.
  { intros t. unfold lookup_bot. simpl. rewrite bots_stopped. case_decide as E.
    - subst t. by apply get_del_eq.
    - by apply get_del_ne. }
  assert (∀ c, c ∈ calls (stopped pid w) → c ∈ calls w ∨ call_pid c = pid) as Hcs.
  { intros c. rewrite Hcalls. rewrite elem_of_app, elem_of_cons.
    intros [?|[->|?]]; auto. }
  constructor.
  - simpl. rewrite bots_stopped. by apply NoDup_keys_del.
  - intros t r Ht. rewrite Hlk in Ht. case_decide; [done|].
    eapply wf_record_mono; [|by apply H2].
    simpl. by rewrite length_procs_stopped.
  - intros t1 t2 r1 r2 p Hr1 Hr2. rewrite Hlk in Hr1, Hr2.
    repeat case_decide; try done. eauto.
  - intros c Hc. simpl in *. rewrite length_procs_stopped.
    apply Hcs in Hc as [Hc| ->]; auto.
  - intros t r p Ht Hp. rewrite Hlk in Ht. case_decide as Hne; [done|].
    simpl. intros Hc. apply Hcs in Hc as [Hc|Hc].
    + by eapply H5.
    + simpl in Hc. subst p. apply Hne. symmetry.
      eapply (H3 t token); [exact Ht | exact Hr | exact Hp | apply mk_record_process].
  - intros p Hc. simpl in Hc.
    change (is_running (set_bots (Dict.del token) (stopped pid w)) p)
      with (is_running (stopped pid w) p).
    rewrite is_running_stopped. case_decide; [done|].
    apply Hcs in Hc as [Hc|Hc]; [by apply H6 | done].
Qed.

Lemma wf_record_total_updates w token r :
  wf_record w token r → r !! "total_updates" = None.
Proof. intros (name & u & pid & port & s & -> & _). reflexivity. Qed.

Lemma ok_false_nonempty e : ok_false e ≠ ∅.
Proof.
  intros H. assert (ok_false e !! "ok" = (∅ : pydict) !! "ok") as E by (by rewrite H).
  done.
Qed.

(** On the records [register] makes, the direct feed answers 200 with the
    failure body and changes nothing. *)
Lemma hosted_webhook_record token r d w :
  lookup_bot w token = Some r →
  r !! "total_updates" = None →
  hosted_webhook token (Some d) w
  = (Ok (json_response (ok_false (KeyError "total_updates"))), w).
Proof.
  intros Hr Ht. unfold hosted_webhook.
  cbv beta delta [try_except bind ret] iota.
  rewrite (process_update_record token r d w Hr Ht).
  rewrite bool_decide_eq_false_2 by apply ok_false_nonempty. reflexivity.
Qed.

Lemma hosted_webhook_unknown token d w :
  lookup_bot w token = None →
  hosted_webhook token (Some d) w = (Ok (Response 404 NoBody []), w).
Proof.
  intros Hr. unfold hosted_webhook.
  cbv beta delta [try_except bind ret] iota.
  rewrite (process_update_unknown token d w Hr). reflexivity.
Qed.

Lemma hosted_webhook_world token json w :
  inv w → snd (hosted_webhook token json w) = w.
Proof.
  intros Hinv. destruct json as [d|]; [|reflexivity].
  destruct (lookup_bot w token) as [r|] eqn:Hr.
  - erewrite hosted_webhook_record; [done | exact Hr |].
    eapply wf_record_total_updates. by apply (inv_records w Hinv).
  - by rewrite hosted_webhook_unknown.
Qed.

Lemma process_bot_code_unfold host st m o w :
  process_bot_code host st m o w =
  if negb (Str.truthy st) then (Ok None, w)
  else
    let token := default "" st in
    match receive_payload host m w with
    | (Raise e, w0) => (Raise e, w0)
    | (Ok payload, w0) =>
        match register host token "UserApp" (fst payload) (snd payload)
                (negb (Str.contains ":" token)) o w0 with
        | (Ok r, w1) =>
            (Ok (Some r),
             if fst r then add_db_bot (token, "UserApp", snd r) w1 else w1)
        | (Raise e, w1) => (Raise e, w1)
        end
    end.
Proof.
  unfold process_bot_code. destruct (Str.truthy st); simpl; [|reflexivity].
  unfold bind.
  destruct (receive_payload host m w) as [[payload|e] w0]; [|reflexivity].
  destruct (register _ _ _ _ _ _ _ w0) as [[[[] u]|e] w1]; reflexivity.
Qed.

Lemma inv_process_bot_code host st m o w :
  inv w → inv (snd (process_bot_code host st m o w)).
Proof.
  intros Hinv. rewrite process_bot_code_unfold.
  destruct (Str.truthy st); simpl; [|done].
  pose proof (FsOnly_receive_payload host m w) as Hfs.
  destruct (receive_payload host m w) as [[payload|e] w0]; simpl in *;
    [|by eapply inv_only_fs].
  assert (inv w0) as Hinv0 by (by eapply inv_only_fs).
  pose proof (inv_register host (default "" st) "UserApp" (fst payload) (snd payload)
                (negb (Str.contains ":" (default "" st))) o w0 Hinv0) as Hr.
  destruct (register _ _ _ _ _ _ _ w0) as [[[[] u]|e] w1]; simpl in *; [|done..].
  by apply inv_add_db_bot.
Qed.

Lemma inv_step host w a : inv w → inv (step host w a).
Proof.
  intros Hinv. destruct a; simpl.
  - by apply inv_register.
  - by apply inv_unregister.
  - by apply inv_process_bot_code.
  - by rewrite hosted_webhook_world.
  - by apply inv_child_exit.
Qed.

Lemma inv_run host ops : ∀ w, inv w → inv (run host w ops).
Proof.
  induction ops as [|a ops IH]; intros w Hinv; simpl; [done|].
  apply IH. by apply inv_step.
Qed.

Lemma reachable_inv host w : reachable host w → inv w.
Proof. intros (fs0 & ops & ->). apply inv_run, inv_init. Qed.

Lemma reachable_step host w a : reachable host w → reachable host (step host w a).
Proof.
  intros (fs0 & ops & ->). exists fs0, (ops ++ [a])%list.
  unfold run. by rewrite fold_left_app.
Qed.

(** ** Port allocation *)

(** A successful registration of a site stores the port
    [10000 + len(self._bots) + 1], counted before the record is stored. *)
Lemma register_site_port host token name cc cp o w u w' :
  register host token name cc cp true o w = (Ok (true, u), w') →
  ∃ r, lookup_bot w' token = Some r
       ∧ is_site_record r
       ∧ port_of r = Some (VInt (10000 + Z.of_nat (length (bots w)) + 1)).
Proof.
  intros Hreg.
  apply register_success in Hreg as (entry & rt & w1 & coop & Hc & Hst & Hne & Hs & ->).
  pose proof (FsOnly_stage host token cc cp w) as Hfs.
  rewrite Hst in Hfs. simpl in Hfs. apply only_fs_bots in Hfs.
  eexists. split; [apply lookup_bot_launched_eq|].
  split; [reflexivity|].
  unfold port_of. rewrite mk_record_port. unfold allocate_port. by rewrite Hfs.
Qed.

(** C1 (the code breaks it): after [port_reuse_ops] the registry holds the
    two distinct live Site records siteB and siteC, both with port 10002, so
    the allocated ports of live Site records are not pairwise distinct in a
    reachable state. *)
Theorem port_shared_after_unregister :
  let w := run demo_host (init_world []) port_reuse_ops in
  reachable demo_host w
  ∧ (∃ r1 r2,
        lookup_bot w "siteB" = Some r1 ∧ lookup_bot w "siteC" = Some r2
        ∧ is_site_record r1 ∧ is_site_record r2
        ∧ port_of r1 = Some (VInt 10002) ∧ port_of r2 = Some (VInt 10002))
  ∧ ¬ ports_pairwise_distinct w.
Proof.
  intros w.
  assert (reachable demo_host w) as Hreach by (by exists [], port_reuse_ops).
  assert (lookup_bot w "siteB"
          = Some (mk_record "siteB" "UserApp" "website" 1 (Some 10002%Z) true)) as H1
    by (vm_compute; reflexivity).
  assert (lookup_bot w "siteC"
          = Some (mk_record "siteC" "UserApp" "website" 2 (Some 10002%Z) true)) as H2
    by (vm_compute; reflexivity).
  clearbody w.
  split; [exact Hreach|]. split.
  - eexists _, _. split; [exact H1|]. split; [exact H2|]. by split_and!.
  - intros Hd. eapply (Hd "siteB" "siteC"); [done | exact H1 | exact H2 | done..].
Qed.

(** ** Direct feed *)

(** C2 (the code breaks it): in every reachable state, an event posted to
    [/webhook/{identity}] for a registered identity is answered with status
    200 but with the failure body [{"ok": False, "error": "'total_updates'"}];
    the event is not handed to any dispatcher and no counter is incremented,
    because the records [register] stores have no [total_updates], [bot] or
    [dp] entry. *)
Theorem direct_feed_registered_fails host w token r d :
  reachable host w →
  lookup_bot w token = Some r →
  let out := hosted_webhook token (Some d) w in
  fst out = Ok (json_response (ok_false (KeyError "total_updates")))
  ∧ ok_false (KeyError "total_updates") ≠ ok_true
  ∧ snd out = w
  ∧ fed (snd out) = fed w ∧ db_stats (snd out) = db_stats w
  ∧ lookup_bot (snd out) token = Some r.
Proof.
  intros Hreach Hr. apply reachable_inv in Hreach.
  pose proof (inv_records w Hreach token r Hr) as Hwf.
  simpl. rewrite (hosted_webhook_record token r d w Hr (wf_record_total_updates _ _ _ Hwf)).
  simpl. by split_and!.
Qed.

Lemma direct_feed_registered_fails_witness :
  let w := run demo_host (init_world []) [Register "123:abc" "UserApp" None None false fine] in
  let out := hosted_webhook "123:abc" (Some {["update_id" := VInt 1]}) w in
  status <$> (match fst out with Ok r => Some r | Raise _ => None end) = Some 200%Z
  ∧ fst out = Ok (json_response (ok_false (KeyError "total_updates")))
  ∧ fed (snd out) = [] ∧ db_stats (snd out) = [].
Proof.
  intros w.
  assert (reachable demo_host w) as Hreach by (by eexists [], _).
  assert (lookup_bot w "123:abc"
          = Some (mk_record "123:abc" "UserApp" "demo_bot" 0 None false)) as Hr
    by (vm_compute; reflexivity).
  assert (fed w = [] ∧ db_stats w = []) as [Hf Hs] by (split; vm_compute; reflexivity).
  clearbody w.
  destruct (direct_feed_registered_fails demo_host w "123:abc" _
              {["update_id" := VInt 1]} Hreach Hr) as (H1 & _ & H2 & _).
  intros out. subst out. rewrite H1, H2. by split_and!.
Defined.

(** The other half of the direct-feed path: an unknown identity is answered
    with 404 and nothing is touched. *)
Lemma direct_feed_unknown w token d :
  lookup_bot w token = None →
  hosted_webhook token (Some d) w = (Ok (Response 404 NoBody []), w).
Proof. apply hosted_webhook_unknown. Qed.

(** ** Unregistration *)

(** C4: [unregister] on an identity without a record returns [False] and
    leaves the state as it is; on a registered identity, in every reachable
    state, it returns [True], has called [terminate] on the record's process,
    leaves that process stopped, removes the identity's entry and keeps every
    other entry; when the process has already exited the only call is the
    [terminate] whose [ProcessLookupError] is passed over. *)
Theorem unregister_outcome host w token :
  reachable host w →
  (lookup_bot w token = None → unregister token w = (Ok false, w))
  ∧ (∀ r, lookup_bot w token = Some r →
       ∃ pid w',
         process_of r = Some (VProc pid)
         ∧ unregister token w = (Ok true, w')
         ∧ lookup_bot w' token = None
         ∧ Terminate pid ∈ calls w'
         ∧ is_running w' pid = false
         ∧ (is_running w pid = false →
            calls w' = (calls w ++ [Terminate pid])%list ∧ procs w' = procs w)
         ∧ (∀ t, t ≠ token → lookup_bot w' t = lookup_bot w t)).
Proof.
  intros Hreach. apply reachable_inv in Hreach. split.
  { apply unregister_unknown. }
  intros r Hr.
  destruct (inv_records w Hreach token r Hr) as (name & u & pid & port & s & -> & Hlt & _).
  exists pid, (set_bots (Dict.del token) (stopped pid w)).
  split; [apply mk_record_process|].
  split.
  { eapply unregister_record; [exact Hr|apply mk_record_process|apply mk_record_log_file]. }
  split.
  { unfold lookup_bot. simpl. rewrite bots_stopped.
    apply get_del_eq, (inv_nodup w Hreach). }
  split.
  { simpl. destruct (calls_stopped pid w) as (rest & -> & _).
    rewrite elem_of_app, elem_of_cons. auto. }
  split.
  { change (is_running (stopped pid w) pid = false).
    rewrite is_running_stopped. by case_decide. }
  split.
  { unfold is_running, stopped. simpl.
    destruct (procs w !! pid) as [p|]; [|done].
    by destruct (p_status p). }
  intros t Hne. unfold lookup_bot. simpl. rewrite bots_stopped.
  apply get_del_ne. congruence.
Qed.

Lemma unregister_outcome_witness :
  let w := run demo_host (init_world [])
             [Register "siteA" "UserApp" None None true fine; ChildExit 0] in
  unregister "ghost" w = (Ok false, w)
  ∧ ∃ w', unregister "siteA" w = (Ok true, w')
          ∧ lookup_bot w' "siteA" = None
          ∧ calls w' = [Terminate 0].
Proof.
  intros w.
  assert (reachable demo_host w) as Hreach by (by eexists [], _).
  assert (lookup_bot w "ghost" = None) as Hg by (vm_compute; reflexivity).
  assert (lookup_bot w "siteA"
          = Some (mk_record "siteA" "UserApp" "website" 0 (Some 10001%Z) true)) as Hr
    by (vm_compute; reflexivity).
  assert (is_running w 0 = false ∧ calls w = []) as [Hx Hc]
    by (split; vm_compute; reflexivity).
  clearbody w.
  destruct (unregister_outcome demo_host w "ghost" Hreach) as [H1 _].
  destruct (unregister_outcome demo_host w "siteA" Hreach) as [_ H2].
  destruct (H2 _ Hr) as (pid & w' & Hp & Hu & Hl & _ & _ & He & _).
  injection Hp as <-.
  split; [exact (H1 Hg)|].
  exists w'. split; [exact Hu|]. split; [exact Hl|].
  destruct (He Hx) as [-> _]. by rewrite Hc.
Defined.

(** ** Failed registrations *)

(** C5: [register] always returns a pair to its caller; when the outcome is
    a failure the registry mapping and the process table are the ones before
    the call; a failed token check, a staged tree without entry point and a
    spawn that raises each give a failure. *)
Theorem register_failure_keeps_registry host token name cc cp is_site o w :
  ∃ ok msg,
    fst (register host token name cc cp is_site o w) = Ok (ok, msg)
    ∧ (ok = false →
       bots (snd (register host token name cc cp is_site o w)) = bots w
       ∧ procs (snd (register host token name cc cp is_site o w)) = procs w)
    ∧ (check_token is_site o = TokenRejected → ok = false ∧ msg = "Invalid Token")
    ∧ (∀ u rt w1, check_token is_site o = TokenOk u →
         stage host token cc cp w = (Ok (None, rt), w1) →
         ok = false ∧ msg = "Could not find entry point")
    ∧ (∀ e, spawn o = SpawnFails e → ok = false).
Proof.
  destruct (register host token name cc cp is_site o w) as [[[ok msg]|e] w'] eqn:Hreg.
  2: { destruct (register_returns host token name cc cp is_site o w) as (? & ? & H).
       rewrite Hreg in H. discriminate H. }
  exists ok, msg. simpl. split; [done|].
  pose proof (register_cases host token name cc cp is_site o w) as Hc.
  rewrite Hreg in Hc.
  split_and!.
  - intros ->. apply register_failure in Hreg.
    split; [by apply only_fs_bots | by apply only_fs_procs].
  - intros Hk. inversion Hc; subst; first [done | exfalso; congruence].
  - intros u rt w1 Hk Hst.
    inversion Hc; subst; try done; exfalso; try congruence.
    match goal with H : stage _ _ _ _ _ = (Ok _, _), T : Str.truthy _ = true |- _ =>
      rewrite Hst in H; injection H as <- <-; discriminate T end.
  - intros e Hs. inversion Hc; subst; first [done | exfalso; congruence].
Qed.

Lemma register_failure_keeps_registry_witness :
  let w := run demo_host (init_world [])
             [Register "siteA" "UserApp" None None true fine] in
  let bad_token := Oracle None None (Spawned true) in
  let no_runtime := Oracle None (Some "demo_bot") (SpawnFails (FileNotFoundError "node")) in
  fst (register demo_host "1:x" "UserApp" (Some "print(1)") None false bad_token w)
    = Ok (false, "Invalid Token")
  ∧ bots (snd (register demo_host "1:x" "UserApp" (Some "print(1)") None false bad_token w))
    = bots w
  ∧ bots (snd (register demo_host "1:x" "UserApp" (Some "print(1)") None false no_runtime w))
    = bots w.
Proof.
  intros w bad_token no_runtime.
  destruct (register_failure_keeps_registry demo_host "1:x" "UserApp" (Some "print(1)") None
              false bad_token w) as (ok & msg & H1 & H2 & H3 & _).
  destruct (register_failure_keeps_registry demo_host "1:x" "UserApp" (Some "print(1)") None
              false no_runtime w) as (ok' & msg' & _ & H2' & _ & _ & H5').
  destruct (H3 eq_refl) as [-> ->].
  split; [exact H1|]. split; [exact (proj1 (H2 eq_refl))|].
  rewrite (H5' _ eq_refl) in H2'. exact (proj1 (H2' eq_refl)).
Defined.

(** ** Reverse proxy *)

Lemma matches_eqb token_id b :
  String.eqb (py_str (default VNone (b !! "username"))) token_id
  || String.eqb (py_str (default VNone (b !! "token"))) token_id = true
  ↔ matches token_id b.
Proof.
  unfold matches. rewrite orb_true_iff, !String.eqb_eq. reflexivity.
Qed.

(** [find_target] returns the first record of the list that matches. *)
Lemma find_target_first token_id vals b :
  find_target token_id vals = Some b ↔
  ∃ pre post, vals = (pre ++ b :: post)%list
              ∧ matches token_id b
              ∧ ∀ x, x ∈ pre → ¬ matches token_id x.
Proof.
  induction vals as [|v vals IH]; simpl.
  - split; [done|]. intros (pre & post & H & _). by destruct pre.
  - destruct (_ || _) eqn:E.
    + apply matches_eqb in E. split.
      * intros [= <-]. exists [], vals. split_and!; [done..|].
        intros x Hx. by apply elem_of_nil in Hx.
      * intros (pre & post & H & Hm & Hpre). destruct pre as [|x pre]; simpl in H.
        -- by injection H as -> _.
        -- injection H as -> _. exfalso. apply (Hpre x); [apply list_elem_of_here | done].
    + assert (¬ matches token_id v) as Hv.
      { intros Hm. apply matches_eqb in Hm. congruence. }
      rewrite IH. split.
      * intros (pre & post & -> & Hm & Hpre). exists (v :: pre), post.
        split_and!; [done..|]. intros x Hx. apply elem_of_cons in Hx as [->|Hx]; auto.
      * intros (pre & post & H & Hm & Hpre). destruct pre as [|x pre]; simpl in H.
        -- injection H as -> _. done.
        -- injection H as -> ->. exists pre, post. split_and!; [done..|].
           intros y Hy. apply Hpre. by apply list_elem_of_further.
Qed.

Lemma find_target_None token_id vals :
  find_target token_id vals = None ↔ ∀ b, b ∈ vals → ¬ matches token_id b.
Proof.
  induction vals as [|v vals IH]; simpl.
  - split; [|done]. intros _ b Hb. by apply elem_of_nil in Hb.
  - destruct (_ || _) eqn:E.
    + apply matches_eqb in E. split; [done|].
      intros H. exfalso. apply (H v); [apply list_elem_of_here | done].
    + assert (¬ matches token_id v) as Hv.
      { intros Hm. apply matches_eqb in Hm. congruence. }
      rewrite IH. split.
      * intros H b Hb. apply elem_of_cons in Hb as [->|Hb]; auto.
      * intros H b Hb. apply H. by apply list_elem_of_further.
Qed.

Lemma resolve_live host w token_id b :
  reachable host w → resolve w token_id = Some b →
  ∃ t, lookup_bot w t = Some b ∧ matches token_id b.
Proof.
  intros Hreach Hf. apply reachable_inv in Hreach.
  apply find_target_first in Hf as (pre & post & Hv & Hm & _).
  destruct (elem_values_get (bots w) b (inv_nodup w Hreach)) as [t Ht].
  { rewrite Hv. rewrite elem_of_app, elem_of_cons. auto. }
  by exists t.
Qed.

Lemma resolve_None_no_match w token_id :
  resolve w token_id = None →
  ∀ t r, lookup_bot w t = Some r → ¬ matches token_id r.
Proof.
  intros Hn t r Hr. unfold resolve in Hn.
  apply (proj1 (find_target_None token_id _) Hn).
  apply get_Some_elem in Hr. unfold Dict.values.
  apply list_elem_of_fmap. by exists (t, r).
Qed.

(** A live Site record has an allocated port above 10000. *)
Lemma site_record_port host w t r :
  reachable host w → lookup_bot w t = Some r → is_site_record r →
  ∃ p, port_of r = Some (VInt p) ∧ (10000 < p)%Z.
Proof.
  intros Hreach Hr Hs. apply reachable_inv in Hreach.
  destruct (inv_records w Hreach t r Hr) as (name & u & pid & port & s & -> & _ & Hp).
  unfold is_site_record in Hs. rewrite mk_record_type in Hs.
  destruct s; [|discriminate Hs].
  destruct Hp as (p & -> & Hlt). by exists p.
Qed.

(** When exactly one live record matches the path segment, the lookup
    resolves to it. *)
Lemma resolve_only_match host w token_id t r :
  reachable host w →
  lookup_bot w t = Some r → matches token_id r →
  (∀ t' r', lookup_bot w t' = Some r' → matches token_id r' → t' = t) →
  resolve w token_id = Some r.
Proof.
  intros Hreach Hr Hm Huniq.
  destruct (resolve w token_id) as [b|] eqn:Hb.
  - destruct (resolve_live host w token_id b Hreach Hb) as (tb & Htb & Hmb).
    rewrite (Huniq tb b Htb Hmb) in Htb. congruence.
  - exfalso. by apply (resolve_None_no_match w token_id Hb t r).
Qed.

(** C3: in every reachable state, a request to [/site/{identity}/{path}] is
    answered 404 when no live record matches the identity by public handle
    or raw token, and when the record it resolves to (the first live record
    that matches; the only one, when a single record matches) has no
    allocated port.  When it resolves to a live Site record, the handler
    never reaches the child: [aiohttp.ClientSession()] raises [NameError],
    since nothing binds [aiohttp] where the handler looks it up, and the
    exception leaves the handler.  So whatever a child answers, the 201 "ok"
    of the specification included, no downstream status and body is ever the
    router's answer. *)
Theorem site_proxy_fails_on_live_site host net w req :
  reachable host w →
  ((∀ t r, lookup_bot w t = Some r → ¬ matches (match_token req) r) →
   site_proxy net w req = Ok site_not_found)
  ∧ (∀ b, resolve w (match_token req) = Some b →
       (port_of b = None ∨ port_of b = Some VNone) →
       site_proxy net w req = Ok site_not_found)
  ∧ (∀ b, resolve w (match_token req) = Some b → is_site_record b →
       site_proxy net w req = Raise (NameError "aiohttp"))
  ∧ (∀ t r, lookup_bot w t = Some r → matches (match_token req) r →
       (∀ t' r', lookup_bot w t' = Some r' → matches (match_token req) r' → t' = t) →
       resolve w (match_token req) = Some r)
  ∧ (∀ st data hs, site_proxy net w req ≠ Ok (Response st (Bytes data) hs))
  ∧ status site_not_found = 404%Z.
Proof.
  intros Hreach.
  assert (name_bound "aiohttp" = false) as Hname by (vm_compute; reflexivity).
  split_and!;
    [| | |intros t r Hr Hm Hu; by apply (resolve_only_match host w _ t r)| |reflexivity].
  - intros Hno. unfold site_proxy.
    assert (find_target (match_token req) (Dict.values (bots w)) = None) as ->; [|done].
    apply find_target_None. intros b Hb.
    destruct (elem_values_get (bots w) b (inv_nodup w (reachable_inv _ _ Hreach)) Hb)
      as [t Ht].
    by eapply Hno.
  - intros b Hb Hp. unfold site_proxy. unfold resolve in Hb. rewrite Hb.
    unfold port_of in Hp.
    assert (truthy_val (default VNone (b !! "port")) = false) as ->
      by (by destruct Hp as [-> | ->]).
    by rewrite orb_true_r.
  - intros b Hb Hs.
    destruct (resolve_live host w _ b Hreach Hb) as (t & Ht & _).
    destruct (site_record_port host w t b Hreach Ht Hs) as (p & Hp & Hlt).
    unfold site_proxy. unfold resolve in Hb. rewrite Hb.
    unfold port_of in Hp. rewrite Hp. cbn [default from_option id truthy_val].
    assert (bool_decide (b = ∅) = false) as ->.
    { apply bool_decide_eq_false_2. intros ->. done. }
    assert (negb (negb (p =? 0)%Z) = false) as ->.
    { destruct (Z.eqb_spec p 0); [lia|done]. }
    cbn [orb]. rewrite Hname. reflexivity.
  - intros st data hs. unfold site_proxy.
    destruct (find_target _ _) as [b|]; [|discriminate].
    destruct (_ || _); [discriminate|].
    rewrite Hname. discriminate.
Qed.

Lemma site_proxy_fails_on_live_site_witness :
  let w := run demo_host (init_world []) proxy_demo_ops in
  demo_net "GET" "http://localhost:10002/ping" "" []
  = inr (201%Z, "ok", [("Content-Type", "text/plain")])
  ∧ site_proxy demo_net w (Request "siteA" "ping" "" "GET" [("Host", "example.org")] "")
    = Raise (NameError "aiohttp")
  ∧ site_proxy demo_net w (Request "demo_bot" "ping" "" "GET" [] "") = Ok site_not_found
  ∧ site_proxy demo_net w (Request "nobody" "ping" "" "GET" [] "") = Ok site_not_found.
Proof.
  intros w.
  assert (reachable demo_host w) as Hreach by (by eexists [], _).
  set (bot := mk_record "123:abc" "UserApp" "demo_bot" 0 None false).
  set (site := mk_record "siteA" "UserApp" "website" 1 (Some 10002%Z) true).
  assert (bots w = [("123:abc", bot); ("siteA", site)]) as Hbots
    by (vm_compute; reflexivity).
  assert (resolve w "siteA" = Some site) as Hsite
    by (unfold resolve; rewrite Hbots; vm_compute; reflexivity).
  assert (resolve w "demo_bot" = Some bot) as Hbot
    by (unfold resolve; rewrite Hbots; vm_compute; reflexivity).
  assert (resolve w "nobody" = None) as Hnone
    by (unfold resolve; rewrite Hbots; vm_compute; reflexivity).
  clearbody w.
  split_and!.
  - vm_compute. reflexivity.
  - set (req := Request "siteA" "ping" "" "GET" [("Host", "example.org")] "").
    destruct (site_proxy_fails_on_live_site demo_host demo_net w req Hreach)
      as (_ & _ & H3 & _).
    assert (is_site_record site) as Hs by (vm_compute; reflexivity).
    exact (H3 site Hsite Hs).
  - set (req := Request "demo_bot" "ping" "" "GET" [] "").
    destruct (site_proxy_fails_on_live_site demo_host demo_net w req Hreach)
      as (_ & H2 & _).
    apply (H2 bot Hbot). right. vm_compute. reflexivity.
  - set (req := Request "nobody" "ping" "" "GET" [] "").
    destruct (site_proxy_fails_on_live_site demo_host demo_net w req Hreach)
      as (H1 & _).
    apply H1. apply resolve_None_no_match. exact Hnone.
Defined.

(** ** Records and processes *)

Lemma tracked_trackedb w pid : tracked w pid → trackedb w pid = true.
Proof.
  intros (t & r & Hr & Hp). unfold trackedb. apply existsb_exists.
  exists r. split; [|by apply bool_decide_eq_true].
  apply list_elem_of_In. unfold Dict.values. apply list_elem_of_fmap.
  exists (t, r). split; [done|]. by apply get_Some_elem.
Qed.

(** *** Every record holds a launched, unterminated process *)

Lemma tracked_live host w pid :
  reachable host w → tracked w pid →
  launched_process w pid ∧ ¬ confirmed_terminated w pid.
Proof.
  intros Hreach (t & r & Hr & Hp). apply reachable_inv in Hreach. split.
  - destruct (wf_record_process _ _ _ (inv_records w Hreach t r Hr)) as (pid' & Hp' & Hlt).
    rewrite Hp in Hp'. by injection Hp' as <-.
  - by eapply (inv_tracked_unsignalled w Hreach).
Qed.

Lemma tracked_only_fs w w' pid : only_fs w w' → tracked w pid → tracked w' pid.
Proof.
  intros Hfs (t & r & Hr & Hp). exists t, r. split; [|done].
  unfold lookup_bot in *. by rewrite (only_fs_bots _ _ Hfs).
Qed.

Lemma cover_only_fs w w' : only_fs w w' → cover w → cover w'.
Proof.
  intros Hfs Hc pid Hl Ht. eapply tracked_only_fs; [done|]. apply Hc.
  - unfold launched_process in *. by rewrite <- (only_fs_procs _ _ Hfs).
  - unfold confirmed_terminated in *. by rewrite <- (only_fs_calls _ _ Hfs).
Qed.

Lemma cover_add_db_bot r w : cover w → cover (add_db_bot r w).
Proof. intros Hc pid Hl Ht. destruct (Hc pid Hl Ht) as (t & r' & H1 & H2). by exists t, r'. Qed.

Lemma cover_child_exit pid w : cover w → cover (child_exit pid w).
Proof.
  intros Hc p Hl Ht. unfold launched_process, child_exit in Hl.
  rewrite length_procs_set_status in Hl.
  destruct (Hc p Hl Ht) as (t & r' & H1 & H2). by exists t, r'.
Qed.

Lemma cover_launched host token name u is_site coop entry rt w :
  lookup_bot w token = None → cover w →
  cover (launched host token name u is_site coop entry rt w).
Proof.
  intros Hnew Hc pid Hl Ht. unfold launched_process in Hl.
  rewrite length_procs_launched in Hl.
  destruct (decide (pid = length (procs w))) as [->|Hne].
  - eexists token, _. split; [apply lookup_bot_launched_eq | apply mk_record_process].
  - destruct (Hc pid) as (t & r & Hr & Hp); [unfold launched_process; lia | done |].
    exists t, r. split; [|done]. rewrite lookup_bot_launched_ne; [done|].
    intros <-. congruence.
Qed.

Lemma cover_register host token name cc cp is_site o w :
  Dict.mem token (bots w) = false → cover w →
  cover (snd (register host token name cc cp is_site o w)).
Proof.
  intros Hnew Hc.
  assert (lookup_bot w token = None) as Hnone.
  { unfold lookup_bot, Dict.mem in *. by destruct (Dict.get token (bots w)). }
  destruct (register host token name cc cp is_site o w) as [[[[] msg]|e] w'] eqn:Hreg; simpl.
  - apply register_success in Hreg as (entry & rt & w1 & coop & _ & Hst & _ & _ & ->).
    pose proof (FsOnly_stage host token cc cp w) as Hfs. rewrite Hst in Hfs. simpl in Hfs.
    apply cover_launched; [|by eapply cover_only_fs].
    unfold lookup_bot in *. by rewrite (only_fs_bots _ _ Hfs).
  - apply register_failure in Hreg. by eapply cover_only_fs.
  - destruct (register_returns host token name cc cp is_site o w) as (? & ? & H).
    rewrite Hreg in H. discriminate H.
Qed.

Lemma cover_unregister token w : inv w → cover w → cover (snd (unregister token w)).
Proof.
  intros Hinv Hc. destruct (lookup_bot w token) as [r|] eqn:Hr.
  2: { by rewrite unregister_unknown. }
  destruct (inv_records w Hinv token r Hr) as (name & u & pid0 & port & s & -> & Hlt & _).
  erewrite unregister_record;
    [|exact Hr|apply mk_record_process|apply mk_record_log_file].
  simpl. intros pid Hl Ht.
  unfold launched_process, confirmed_terminated in *. simpl in *.
  rewrite length_procs_stopped in Hl.
  destruct (calls_stopped pid0 w) as (rest & Hcalls & _). rewrite Hcalls in Ht.
  rewrite elem_of_app, elem_of_cons in Ht.
  destruct (Hc pid Hl) as (t & r & Ht' & Hp); [tauto|].
  exists t, r. split; [|done].
  unfold lookup_bot in *. simpl. rewrite bots_stopped.
  rewrite get_del_ne; [done|]. intros <-.
  rewrite Hr in Ht'. injection Ht' as <-.
  unfold process_of in Hp. rewrite mk_record_process in Hp. injection Hp as <-. tauto.
Qed.

Lemma cover_process_bot_code host st m o w :
  Str.truthy st && Dict.mem (default "" st) (bots w) = false →
  cover w → cover (snd (process_bot_code host st m o w)).
Proof.
  intros Hnew Hc. rewrite process_bot_code_unfold.
  destruct (Str.truthy st); simpl in *; [|done].
  pose proof (FsOnly_receive_payload host m w) as Hfs.
  destruct (receive_payload host m w) as [[payload|e] w0]; simpl in *;
    [|by eapply cover_only_fs].
  assert (cover w0) as Hc0 by (by eapply cover_only_fs).
  assert (Dict.mem (default "" st) (bots w0) = false) as Hnew0
    by (by rewrite (only_fs_bots _ _ Hfs)).
  pose proof (cover_register host (default "" st) "UserApp" (fst payload) (snd payload)
                (negb (Str.contains ":" (default "" st))) o w0 Hnew0 Hc0) as Hr.
  destruct (register _ _ _ _ _ _ _ w0) as [[[[] u]|e] w1]; simpl in *; [|done..].
  by apply cover_add_db_bot.
Qed.

Lemma cover_step host w a :
  inv w → redeploys w a = false → cover w → cover (step host w a).
Proof.
  intros Hinv Hre Hc. destruct a; simpl in *.
  - by apply cover_register.
  - by apply cover_unregister.
  - by apply cover_process_bot_code.
  - by rewrite hosted_webhook_world.
  - by apply cover_child_exit.
Qed.

Lemma cover_run host ops :
  ∀ w, inv w → cover w → no_redeploy host w ops = true → cover (run host w ops).
Proof.
  induction ops as [|a ops IH]; intros w Hinv Hc Hno; simpl in *; [done|].
  apply andb_true_iff in Hno as [Ha Hno]. apply negb_true_iff in Ha.
  apply IH; [by apply inv_step | by apply cover_step | done].
Qed.

Lemma cover_init fs0 : cover (init_world fs0).
Proof. intros pid Hl. unfold launched_process in Hl. simpl in Hl. lia. Qed.

(** C6, as stated, fails: after code is uploaded twice for the same
    identity, the first child is launched, still running and never
    terminated, but no record holds it. *)
Lemma redeploy_orphans_process :
  let w := run demo_host (init_world []) redeploy_ops in
  reachable demo_host w
  ∧ launched_process w 0 ∧ is_running w 0 = true ∧ ¬ confirmed_terminated w 0
  ∧ ¬ tracked w 0
  ∧ ¬ registry_tracks_processes w.
Proof.
  intros w.
  assert (reachable demo_host w) as Hreach by (by eexists [], _).
  assert (length (procs w) = 2) as Hlen by (vm_compute; reflexivity).
  assert (is_running w 0 = true) as Hrun by (vm_compute; reflexivity).
  assert (calls w = []) as Hcalls by (vm_compute; reflexivity).
  assert (trackedb w 0 = false) as Htr by (vm_compute; reflexivity).
  clearbody w.
  assert (launched_process w 0) as Hl by (unfold launched_process; lia).
  assert (¬ confirmed_terminated w 0) as Hc.
  { unfold confirmed_terminated. rewrite Hcalls. apply not_elem_of_nil. }
  assert (¬ tracked w 0) as Hnt.
  { intros H. apply tracked_trackedb in H. congruence. }
  split_and!; try done.
  intros H. apply Hnt. by apply H.
Qed.

(** C6, amended: in every state of every run, each record holds a process
    that has been launched and on which the supervisor has not yet run its
    termination; and when no operation of the run registers an identity that
    has a live record, the converse holds too: every launched process not
    yet terminated by the supervisor is held by a record, so no running
    child is untracked. *)
Theorem registry_tracks_processes_without_redeploy host fs0 ops :
  let w := run host (init_world fs0) ops in
  (∀ pid, tracked w pid → launched_process w pid ∧ ¬ confirmed_terminated w pid)
  ∧ (no_redeploy host (init_world fs0) ops = true →
     registry_tracks_processes w
     ∧ ∀ pid, is_running w pid = true → tracked w pid).
Proof.
  intros w.
  assert (reachable host w) as Hreach by (by exists fs0, ops).
  split; [intros pid; by apply (tracked_live host)|].
  intros Hno.
  assert (cover w) as Hc.
  { apply cover_run; [apply inv_init | apply cover_init | done]. }
  split.
  - intros pid. split; [by apply (tracked_live host)|]. intros [Hl Ht]. by apply Hc.
  - intros pid Hrun. apply Hc.
    + unfold launched_process, is_running in *.
      destruct (procs w !! pid) eqn:E; [|done].
      apply lookup_lt_is_Some. by eexists.
    + intros Ht. apply (inv_signalled_exited w (reachable_inv _ _ Hreach)) in Ht. congruence.
Qed.

Lemma registry_tracks_processes_without_redeploy_witness :
  let w := run demo_host (init_world []) port_reuse_ops in
  registry_tracks_processes w ∧ tracked w 1 ∧ tracked w 2 ∧ ¬ tracked w 0.
Proof.
  intros w.
  assert (no_redeploy demo_host (init_world []) port_reuse_ops = true) as Hno
    by (vm_compute; reflexivity).
  assert (is_running w 1 = true ∧ is_running w 2 = true) as [H1 H2]
    by (split; vm_compute; reflexivity).
  assert (trackedb w 0 = false) as Htr by (vm_compute; reflexivity).
  destruct (registry_tracks_processes_without_redeploy demo_host [] port_reuse_ops)
    as [_ Hb].
  destruct (Hb Hno) as [Hiff Hrun]. fold w in Hiff, Hrun.
  clearbody w.
  split; [exact Hiff|]. split; [exact (Hrun 1 H1)|]. split; [exact (Hrun 2 H2)|].
  intros H. apply tracked_trackedb in H. congruence.
Defined.

(** ** Entry point of an archive *)

Lemma not_recognized x :
  x ∉ recognized →
  String.eqb x "main.py" = false ∧ String.eqb x "index.js" = false
  ∧ String.eqb x "package.json" = false.
Proof.
  unfold recognized. rewrite !not_elem_of_cons. intros (H1 & H2 & H3 & _).
  rewrite !String.eqb_neq. done.
Qed.

Lemma find_entry_skip d rt pre rest :
  (∀ x, x ∈ pre → x ∉ recognized) →
  find_entry d rt (pre ++ rest) = find_entry d rt rest.
Proof.
  induction pre as [|x pre IH]; intros Hpre; simpl; [done|].
  destruct (not_recognized x) as (-> & -> & ->).
  { apply Hpre, list_elem_of_here. }
  apply IH. intros y Hy. apply Hpre. by apply list_elem_of_further.
Qed.

Lemma find_entry_first d rt pre n post :
  n ∈ recognized → (∀ x, x ∈ pre → x ∉ recognized) →
  find_entry d rt (pre ++ n :: post) = entry_for d rt n.
Proof.
  intros Hn Hpre. rewrite find_entry_skip by done. simpl. unfold entry_for.
  unfold recognized in Hn. rewrite !elem_of_cons in Hn.
  destruct Hn as [->|[->|[->|Hn]]]; [done..|]. by apply elem_of_nil in Hn.
Qed.

Lemma find_entry_none d rt names :
  (∀ x, x ∈ names → x ∉ recognized) → find_entry d rt names = (None, rt).
Proof.
  intros H. rewrite <- (app_nil_r names). by rewrite find_entry_skip.
Qed.

Lemma register_no_entry_point host token name cc cp is_site o u rt w w1 :
  check_token is_site o = TokenOk u →
  stage host token cc cp w = (Ok (None, rt), w1) →
  register host token name cc cp is_site o w
  = (Ok (false, "Could not find entry point"), w1).
Proof.
  intros Hc Hst. rewrite register_unfold. unfold try_except, bind.
  rewrite Hc, Hst. reflexivity.
Qed.

Lemma write_node_ok p n w w' :
  write_node p n w = (Ok tt, w') → fs w' = Dict.set p n (fs w).
Proof.
  unfold write_node. destruct (Dict.get p (fs w)) as [[]|]; intros [= <-]; reflexivity.
Qed.

Lemma write_text_keeps_files p c q w w' :
  write_text p c w = (Ok tt, w') → is_file w q → is_file w' q.
Proof.
  intros Hw [c0 Hq]. apply write_node_ok in Hw. unfold is_file. rewrite Hw.
  destruct (decide (p = q)) as [->|Hne].
  - exists c. apply get_set_eq.
  - exists c0. by rewrite get_set_ne.
Qed.

Lemma mkdir_member_keeps_files p q w w' :
  mkdir_member p w = (Ok tt, w') → is_file w q → is_file w' q.
Proof.
  unfold mkdir_member, is_file. intros Hm [c Hq].
  destruct (Dict.get p (fs w)) as [[]|] eqn:E; try discriminate Hm;
    injection Hm as <-; [by exists c|].
  exists c. simpl. rewrite get_set_ne; [done|]. intros ->. congruence.
Qed.

Lemma for_each_mkdir_keeps_files l :
  ∀ q w w', for_each l mkdir_member w = (Ok tt, w') → is_file w q → is_file w' q.
Proof.
  induction l as [|p l IH]; intros q w w' H Hq; simpl in H.
  - by injection H as <-.
  - unfold bind in H.
    destruct (mkdir_member p w) as [[[]|e] w0] eqn:Hm; [|discriminate H].
    eapply IH; [exact H|]. by eapply mkdir_member_keeps_files.
Qed.

Lemma extract_member_files d m w w' :
  extract_member d m w = (Ok tt, w') →
  (∀ q, is_file w q → is_file w' q)
  ∧ (Str.endswith (fst m) "/" = false → is_file w' (member_path d (fst m))).
Proof.
  unfold extract_member. destruct (Str.endswith (fst m) "/").
  - intros H. split; [|done]. intros q. by apply (for_each_mkdir_keeps_files _ q _ _ H).
  - destruct (arc_components (fst m)) as [|c comps] eqn:Ec; [done|].
    unfold bind.
    destruct (for_each _ mkdir_member w) as [[[]|e] w0] eqn:Hd; [|done].
    intros Hw. split.
    + intros q Hq. eapply write_text_keeps_files; [exact Hw|].
      by apply (for_each_mkdir_keeps_files _ q _ _ Hd).
    + intros _. apply write_node_ok in Hw. unfold is_file. rewrite Hw.
      eexists. apply get_set_eq.
Qed.

Lemma for_each_extract_members d members :
  ∀ w w',
    for_each members (extract_member d) w = (Ok tt, w') →
    (∀ q, is_file w q → is_file w' q)
    ∧ ∀ n c, (n, c) ∈ members → Str.endswith n "/" = false →
             is_file w' (member_path d n).
Proof.
  induction members as [|[n0 c0] members IH]; intros w w' H; simpl in H.
  - injection H as <-. split; [done|]. intros n c Hin. by apply elem_of_nil in Hin.
  - unfold bind in H.
    destruct (extract_member d (n0, c0) w) as [[[]|e] w0] eqn:Hw; [|discriminate H].
    destruct (IH _ _ H) as [Hkeep Hall].
    destruct (extract_member_files _ _ _ _ Hw) as [Hkeep0 Hnew]. split.
    + intros q Hq. by apply Hkeep, Hkeep0.
    + intros n c Hin Hn. apply elem_of_cons in Hin as [[= -> ->]|Hin]; [|by eapply Hall].
      apply Hkeep. by apply Hnew.
Qed.

Lemma makedirs_ok p w w' :
  makedirs p w = (Ok tt, w') →
  ∀ q n, n ≠ Dir → Dict.get q (fs w') = Some n → Dict.get q (fs w) = Some n.
Proof.
  unfold makedirs. destruct (Dict.get p (fs w)) as [[]|] eqn:E; intros [= <-]; try done.
  intros q n Hn. simpl. destruct (decide (p = q)) as [->|Hne].
  - rewrite get_set_eq. congruence.
  - by rewrite get_set_ne.
Qed.

Lemma truthy_Some p : p ≠ "" → Str.truthy (Some p) = true.
Proof.
  intros Hp. unfold Str.truthy. apply negb_true_iff. by apply String.eqb_neq.
Qed.

Lemma stage_archive host token cc p w staged w1 :
  Str.truthy cc = false → p ≠ "" → Str.endswith p ".zip" = true →
  stage host token cc (Some p) w = (Ok staged, w1) →
  (∃ members,
      Dict.get p (fs w) = Some (Zip members)
      ∧ ∀ n c, (n, c) ∈ members → Str.endswith n "/" = false →
               is_file w1 (member_path (target_dir_of host token) n))
  ∧ staged = find_entry (target_dir_of host token) (sys_executable host)
               (listing (target_dir_of host token) w1).
Proof.
  intros Hcc Hp Hzip. unfold stage.
  rewrite Hcc, (truthy_Some p Hp). cbn [negb andb]. rewrite Hcc.
  change (default "" (Some p)) with p. rewrite Hzip.
  unfold bind at 1.
  destruct (makedirs (abspath host "hosted_apps") w) as [[[]|e] wa] eqn:Ha; [|done].
  unfold bind at 1.
  destruct (makedirs (target_dir_of host token) wa) as [[[]|e] wb] eqn:Hb; [|done].
  unfold bind at 1.
  destruct (extractall p (target_dir_of host token) wb) as [[[]|e] wc] eqn:Hx; [|done].
  unfold bind, listdir, get_world, ret. intros [= <- <-].
  split; [|reflexivity].
  unfold extractall, bind, get_world in Hx.
  destruct (Dict.get p (fs wb)) as [[| |members]|] eqn:Hz; try discriminate Hx.
  exists members. split.
  - eapply makedirs_ok; [exact Ha|done|]. eapply makedirs_ok; [exact Hb|done|exact Hz].
  - by apply (for_each_extract_members _ _ _ _ Hx).
Qed.

(** C7, as stated, fails: for an archive that holds both [index.js] and
    [main.py], with [index.js] enumerated first, the child is started as
    [node .../index.js], while the priority order of the specification
    selects [main.py]; with the same two names listed the other way round
    the loop selects [main.py]. *)
Lemma archive_entry_follows_listing_order :
  let w := run demo_host (init_world two_entries_fs)
             [Register "siteA" "UserApp" None (Some "/srv/tmp_app.zip") true fine] in
  let d := target_dir_of demo_host "siteA" in
  let rt := sys_executable demo_host in
  listing d w = ["index.js"; "main.py"]
  ∧ p_cmd <$> procs w !! 0 = Some ["node"; path_join d "index.js"]
  ∧ resolve_by_priority d rt (listing d w) = (Some (path_join d "main.py"), rt)
  ∧ find_entry d rt (listing d w) ≠ resolve_by_priority d rt (listing d w)
  ∧ find_entry d rt ["main.py"; "index.js"] ≠ find_entry d rt ["index.js"; "main.py"].
Proof.
  intros w d rt.
  assert (listing d w = ["index.js"; "main.py"]) as Hl by (vm_compute; reflexivity).
  assert (p_cmd <$> procs w !! 0 = Some ["node"; path_join d "index.js"]) as Hc
    by (vm_compute; reflexivity).
  clearbody w. rewrite Hl. clear Hl.
  split; [reflexivity|]. split; [exact Hc|]. clear Hc.
  split; [vm_compute; reflexivity|].
  split; vm_compute; discriminate.
Qed.

(** C7, amended: when the staging of an archive payload succeeds, the
    archive's file members are files under the working directory, and the entry
    point is the first entry of the listing of the working directory (its
    top level, in enumeration order) that is one of [main.py], [index.js],
    [package.json]; when the listing has none of them the registration fails
    with "Could not find entry point". *)
Theorem archive_entry_first_listed host token cc p w staged w1 :
  Str.truthy cc = false → p ≠ "" → Str.endswith p ".zip" = true →
  stage host token cc (Some p) w = (Ok staged, w1) →
  let d := target_dir_of host token in
  let rt := sys_executable host in
  (∃ members,
      Dict.get p (fs w) = Some (Zip members)
      ∧ ∀ n c, (n, c) ∈ members → Str.endswith n "/" = false →
               is_file w1 (member_path d n))
  ∧ staged = find_entry d rt (listing d w1)
  ∧ (∀ pre n post,
       listing d w1 = (pre ++ n :: post)%list →
       n ∈ recognized → (∀ x, x ∈ pre → x ∉ recognized) →
       staged = entry_for d rt n)
  ∧ ((∀ x, x ∈ listing d w1 → x ∉ recognized) →
     staged = (None, rt)
     ∧ ∀ name is_site o u,
         check_token is_site o = TokenOk u →
         register host token name cc (Some p) is_site o w
         = (Ok (false, "Could not find entry point"), w1)).
Proof.
  intros Hcc Hp Hzip Hst d rt.
  destruct (stage_archive host token cc p w staged w1 Hcc Hp Hzip Hst) as [Hm Hs].
  fold d rt in Hm, Hs. split; [exact Hm|]. split; [exact Hs|]. split.
  - intros pre n post Hl Hn Hpre. rewrite Hs, Hl. by apply find_entry_first.
  - intros Hnone.
    assert (staged = (None, rt)) as E by (rewrite Hs; by apply find_entry_none).
    split; [exact E|]. intros name is_site o u Hk.
    eapply register_no_entry_point; [exact Hk|]. by rewrite <- E.
Qed.

Lemma archive_entry_first_listed_witness :
  let w0 := init_world two_entries_fs in
  let w0' := init_world docs_only_fs in
  let w1 := snd (stage demo_host "siteA" None (Some "/srv/tmp_app.zip") w0) in
  let w2 := snd (stage demo_host "siteD" None (Some "/srv/tmp_docs.zip") w0') in
  let d := target_dir_of demo_host "siteA" in
  fst (stage demo_host "siteA" None (Some "/srv/tmp_app.zip") w0)
  = Ok (entry_for d "/usr/bin/python3" "index.js")
  ∧ is_file w1 (member_path d "main.py")
  ∧ register demo_host "siteD" "UserApp" None (Some "/srv/tmp_docs.zip") true fine w0'
    = (Ok (false, "Could not find entry point"), w2).
Proof.
  assert ("/srv/tmp_app.zip" ≠ "" ∧ "/srv/tmp_docs.zip" ≠ "") as [Hp1 Hp2]
    by (split; discriminate).
  assert ("index.js" ∈ recognized) as Hjs.
  { unfold recognized. rewrite !elem_of_cons. right; left; reflexivity. }
  assert (∀ x, x ∈ ["README.md"; "src"] → x ∉ recognized) as Hdocs.
  { intros x Hx. unfold recognized.
    rewrite !elem_of_cons in Hx. rewrite !not_elem_of_cons.
    destruct Hx as [->|[->|Hx]]; [| |by apply elem_of_nil in Hx];
      split_and!; try discriminate; apply not_elem_of_nil. }
  assert (∀ x : string, x ∈ [] → x ∉ recognized) as Hnil.
  { intros x Hx. by apply elem_of_nil in Hx. }
  intros w0 w0' w1 w2 d.
  set (st1 := find_entry d "/usr/bin/python3" ["index.js"; "main.py"]).
  assert (stage demo_host "siteA" None (Some "/srv/tmp_app.zip") w0 = (Ok st1, w1)) as H1
    by (vm_compute; reflexivity).
  assert (listing d w1 = ([] ++ "index.js" :: ["main.py"])%list) as Hl1
    by (vm_compute; reflexivity).
  assert (stage demo_host "siteD" None (Some "/srv/tmp_docs.zip") w0'
          = (Ok (None, "/usr/bin/python3"), w2)) as H2 by (vm_compute; reflexivity).
  assert (listing (target_dir_of demo_host "siteD") w2 = ["README.md"; "src"]) as Hl2
    by (vm_compute; reflexivity).
  assert (Dict.get "/srv/tmp_app.zip" (fs w0)
          = Some (Zip [("index.js", "console.log(1)"); ("main.py", "print(1)")])) as Hz0
    by (vm_compute; reflexivity).
  clearbody w1 w2 st1 w0 w0'.
  destruct (archive_entry_first_listed demo_host "siteA" None "/srv/tmp_app.zip" _ _ _
              eq_refl Hp1 eq_refl H1) as ((members & Hz & Hfiles) & _ & Hfirst & _).
  destruct (archive_entry_first_listed demo_host "siteD" None "/srv/tmp_docs.zip" _ _ _
              eq_refl Hp2 eq_refl H2) as (_ & _ & _ & Hnone).
  rewrite Hl2 in Hnone. fold d in Hfiles, Hfirst. clearbody d.
  split; [|split].
  - rewrite H1. cbn [fst]. f_equal. exact (Hfirst [] "index.js" ["main.py"] Hl1 Hjs Hnil).
  - apply (Hfiles "main.py" "print(1)"); [|reflexivity].
    rewrite Hz0 in Hz. injection Hz as <-.
    rewrite !elem_of_cons. right; left; reflexivity.
  - exact (proj2 (Hnone Hdocs) "UserApp" true fine "website" eq_refl).
Defined.

(** ** Payload resolution *)

Lemma stage_inline host token text cp w :
  text ≠ "" →
  stage host token (Some text) cp w =
  (makedirs (abspath host "hosted_apps") ;;
   makedirs (target_dir_of host token) ;;
   write_text (path_join (target_dir_of host token) "main.py") text ;;
   ret (Some (path_join (target_dir_of host token) "main.py"), sys_executable host)) w.
Proof.
  intros Ht. unfold stage. rewrite (truthy_Some text Ht). cbn [negb andb].
  rewrite (truthy_Some text Ht). reflexivity.
Qed.

Lemma stage_default host token cc cp w :
  Str.truthy cc = false → Str.truthy cp = false →
  stage host token cc cp w = stage host token (Some (DEFAULT_SERVICE_CODE host)) None w.
Proof.
  intros Hcc Hcp. rewrite (stage_inline host token (DEFAULT_SERVICE_CODE host) None w)
    by discriminate.
  unfold stage. rewrite Hcc, Hcp. cbn [negb andb].
  rewrite (truthy_Some (DEFAULT_SERVICE_CODE host)) by discriminate. reflexivity.
Qed.

Lemma register_stage_ext host token name cc cp cc' cp' is_site o w :
  stage host token cc cp w = stage host token cc' cp' w →
  register host token name cc cp is_site o w = register host token name cc' cp' is_site o w.
Proof.
  intros Hst. rewrite !register_unfold. unfold try_except.
  destruct (check_token is_site o); [|reflexivity..].
  unfold bind. by rewrite Hst.
Qed.

Lemma stage_inline_written host token text cp w staged w1 :
  text ≠ "" →
  stage host token (Some text) cp w = (Ok staged, w1) →
  staged = (Some (path_join (target_dir_of host token) "main.py"), sys_executable host)
  ∧ Dict.get (path_join (target_dir_of host token) "main.py") (fs w1) = Some (File text).
Proof.
  intros Ht. rewrite stage_inline by done.
  unfold bind at 1.
  destruct (makedirs (abspath host "hosted_apps") w) as [[[]|e] wa]; [|done].
  unfold bind at 1.
  destruct (makedirs (target_dir_of host token) wa) as [[[]|e] wb]; [|done].
  unfold bind at 1.
  destruct (write_text _ text wb) as [[[]|e] wc] eqn:Hw; [|done].
  unfold ret. intros [= <- <-]. split; [reflexivity|].
  apply write_node_ok in Hw. rewrite Hw. apply get_set_eq.
Qed.

(** C8: when a non-empty inline text is supplied, [register] behaves the
    same whatever file path comes with it; when its staging succeeds, the
    entry point is [main.py] in the working directory and that file holds
    exactly the text, and after a successful registration the child runs that
    file; when neither an inline text nor a file path is supplied, [register]
    behaves as it does with [DEFAULT_SERVICE_CODE] as the inline text. *)
Theorem inline_text_wins host token name text cp is_site o w :
  text ≠ "" →
  let entry := path_join (target_dir_of host token) "main.py" in
  (∀ cp', register host token name (Some text) cp is_site o w
          = register host token name (Some text) cp' is_site o w)
  ∧ (∀ staged w1,
       stage host token (Some text) cp w = (Ok staged, w1) →
       staged = (Some entry, sys_executable host)
       ∧ Dict.get entry (fs w1) = Some (File text))
  ∧ (∀ u w',
       register host token name (Some text) cp is_site o w = (Ok (true, u), w') →
       Dict.get entry (fs w') = Some (File text)
       ∧ ∃ p, procs w' !! length (procs w) = Some p
              ∧ p_cmd p = child_cmd (sys_executable host) entry)
  ∧ (∀ cc0 cp0,
       Str.truthy cc0 = false → Str.truthy cp0 = false →
       register host token name cc0 cp0 is_site o w
       = register host token name (Some (DEFAULT_SERVICE_CODE host)) None is_site o w).
Proof.
  intros Ht entry. split_and!.
  - intros cp'. apply register_stage_ext. by rewrite !stage_inline.
  - intros staged w1 Hst. by apply (stage_inline_written host token text cp w).
  - intros u w' Hreg.
    apply register_success in Hreg as (e & rt & w1 & coop & _ & Hst & _ & _ & ->).
    pose proof (FsOnly_stage host token (Some text) cp w) as Hfs.
    rewrite Hst in Hfs. simpl in Hfs.
    destruct (stage_inline_written host token text cp w _ _ Ht Hst) as [Hs Hfile].
    pose proof (f_equal fst Hs) as He. pose proof (f_equal snd Hs) as Hrt.
    cbn [fst snd] in He, Hrt. apply (inj Some) in He. fold entry in He, Hfile.
    subst e rt. clear Hs.
    split; [by rewrite fs_launched|].
    eexists. split.
    + rewrite procs_launched, <- (only_fs_procs _ _ Hfs).
      rewrite lookup_app_r by lia. by rewrite Nat.sub_diag.
    + reflexivity.
  - intros cc0 cp0 Hcc Hcp. apply register_stage_ext. by apply stage_default.
Qed.

Lemma inline_text_wins_witness :
  let w0 := init_world two_entries_fs in
  let r := register demo_host "123:abc" "UserApp" (Some "print('hi')")
             (Some "/srv/tmp_app.zip") false fine w0 in
  r = register demo_host "123:abc" "UserApp" (Some "print('hi')") None false fine w0
  ∧ Dict.get (path_join (target_dir_of demo_host "123:abc") "main.py") (fs (snd r))
    = Some (File "print('hi')")
  ∧ register demo_host "123:abc" "UserApp" None None false fine w0
    = register demo_host "123:abc" "UserApp" (Some (DEFAULT_SERVICE_CODE demo_host)) None
        false fine w0.
Proof.
  assert ("print('hi')" ≠ "") as Ht by discriminate.
  intros w0 r.
  assert (r = (Ok (true, "demo_bot"), snd r)) as Hr by (vm_compute; reflexivity).
  clearbody w0.
  destruct (inline_text_wins demo_host "123:abc" "UserApp" "print('hi')"
              (Some "/srv/tmp_app.zip") false fine w0 Ht) as (H1 & _ & H3 & H4).
  fold r in H1, H3. clearbody r.
  split; [exact (H1 None)|]. split.
  - exact (proj1 (H3 _ _ Hr)).
  - exact (H4 None None eq_refl eq_refl).
Defined.

(** ** Working directories *)

Lemma SameDirs_ret {A} (a : A) : SameDirs (ret a).
Proof. intros w q. reflexivity. Qed.

Lemma SameDirs_raise {A} e : SameDirs (@raise A e).
Proof. intros w q. reflexivity. Qed.

Lemma SameDirs_bind {A B} (c : M A) (k : A → M B) :
  SameDirs c → (∀ a, SameDirs (k a)) → SameDirs (bind c k).
Proof.
  intros Hc Hk w q. unfold bind. specialize (Hc w q).
  destruct (c w) as [[a|e] w1]; simpl in *; [|done].
  by rewrite (Hk a w1 q).
Qed.

Lemma SameDirs_get {A} (k : world → M A) :
  (∀ w0, SameDirs (k w0)) → SameDirs (bind get_world k).
Proof. intros Hk w q. unfold bind, get_world. apply Hk. Qed.

Lemma SameDirs_write_node p n : n ≠ Dir → SameDirs (write_node p n).
Proof.
  intros Hn w q. unfold write_node, is_dir.
  destruct (Dict.get p (fs w)) as [[]|] eqn:E; simpl; try reflexivity;
    (destruct (decide (p = q)) as [->|Hne];
     [rewrite get_set_eq, E; split; congruence | by rewrite get_set_ne]).
Qed.

Lemma SameDirs_for_each {A} (l : list A) (f : A → M unit) :
  (∀ x, SameDirs (f x)) → SameDirs (for_each l f).
Proof.
  intros Hf. induction l as [|x l IH]; simpl.
  - apply SameDirs_ret.
  - apply SameDirs_bind; auto.
Qed.

Lemma SameDirs_copy src dst : SameDirs (copy src dst).
Proof.
  apply SameDirs_get. intros w0.
  destruct (Dict.get src (fs w0)) as [[]|]; try apply SameDirs_raise;
    destruct (Dict.get dst (fs w0)) as [[]|]; by apply SameDirs_write_node.
Qed.

Lemma SameDirs_listdir d : SameDirs (listdir d).
Proof. apply SameDirs_get. intros w0. apply SameDirs_ret. Qed.

Lemma SameDirs_within d {A} (c : M A) : SameDirs c → DirsWithin d c.
Proof. intros H w q. rewrite (H w q). tauto. Qed.

Lemma DirsWithin_bind d {A B} (c : M A) (k : A → M B) :
  DirsWithin d c → (∀ a, DirsWithin d (k a)) → DirsWithin d (bind c k).
Proof.
  intros Hc Hk w q. unfold bind. destruct (Hc w q) as [H1 H2].
  destruct (c w) as [[a|e] w1]; simpl in *; [|done].
  destruct (Hk a w1 q) as [H3 H4]. split; [auto|].
  intros H. apply H4 in H as [H|H]; auto.
Qed.

Lemma DirsWithin_for_each d {A} (l : list A) (f : A → M unit) :
  (∀ x, x ∈ l → DirsWithin d (f x)) → DirsWithin d (for_each l f).
Proof.
  induction l as [|x l IH]; intros Hf; simpl.
  - apply SameDirs_within, SameDirs_ret.
  - apply DirsWithin_bind; [apply Hf, list_elem_of_here|]. intros _.
    apply IH. intros y Hy. by apply Hf, list_elem_of_further.
Qed.

Lemma DirsWithin_mkdir_member d p : under d p → DirsWithin d (mkdir_member p).
Proof.
  intros Hp w q. unfold mkdir_member, is_dir.
  destruct (Dict.get p (fs w)) as [[]|] eqn:E; simpl; try tauto.
  destruct (decide (p = q)) as [->|Hne].
  - rewrite get_set_eq. split; [congruence|auto].
  - rewrite get_set_ne by done. tauto.
Qed.

Lemma append_assoc' (a b c : string) : (a ++ b) ++ c = a ++ b ++ c.
Proof. induction a as [|x a IH]; [reflexivity|]. change (String x ((a ++ b) ++ c) = String x (a ++ b ++ c)). by f_equal. Qed.

Lemma all_dirs_prefix comps :
  ∀ pre p, p ∈ all_dirs pre comps → ∃ r, p = pre ++ r.
Proof.
  induction comps as [|c comps IH]; intros pre p Hp; simpl in Hp.
  - by apply elem_of_nil in Hp.
  - apply elem_of_cons in Hp as [->|Hp]; [by exists c|].
    apply IH in Hp as [r ->]. exists ((c ++ "/") ++ r).
    by rewrite append_assoc'.
Qed.

Lemma upper_dirs_prefix comps :
  ∀ pre p, p ∈ upper_dirs pre comps → ∃ r, p = pre ++ r.
Proof.
  induction comps as [|c comps IH]; intros pre p Hp; simpl in Hp.
  - by apply elem_of_nil in Hp.
  - destruct comps as [|c' comps]; [by apply elem_of_nil in Hp|].
    apply elem_of_cons in Hp as [->|Hp]; [by exists c|].
    apply IH in Hp as [r ->]. exists ((c ++ "/") ++ r).
    by rewrite append_assoc'.
Qed.

Lemma under_prefix d r : under d ((d ++ "/") ++ r).
Proof. exists r. by rewrite append_assoc'. Qed.

Lemma DirsWithin_extract_member d m : DirsWithin d (extract_member d m).
Proof.
  unfold extract_member. destruct (Str.endswith (fst m) "/").
  - apply DirsWithin_for_each. intros p Hp. apply DirsWithin_mkdir_member.
    apply all_dirs_prefix in Hp as [r ->]. apply under_prefix.
  - destruct (arc_components (fst m)) as [|c comps];
      [apply SameDirs_within, SameDirs_raise|].
    apply DirsWithin_bind.
    + apply DirsWithin_for_each. intros p Hp. apply DirsWithin_mkdir_member.
      apply upper_dirs_prefix in Hp as [r ->]. apply under_prefix.
    + intros _. by apply SameDirs_within, SameDirs_write_node.
Qed.

Lemma DirsWithin_extractall p d : DirsWithin d (extractall p d).
Proof.
  unfold extractall. intros w q. unfold bind, get_world.
  destruct (Dict.get p (fs w)) as [[]|]; try (simpl; tauto).
  apply DirsWithin_for_each. intros x _. apply DirsWithin_extract_member.
Qed.

(** [makedirs p] adds the directory [p] when it succeeds, and nothing else. *)
Lemma makedirs_dirs p w r w' :
  makedirs p w = (r, w') →
  ∀ q, is_dir w' q ↔ is_dir w q ∨ (r = Ok tt ∧ q = p).
Proof.
  unfold makedirs, is_dir. destruct (Dict.get p (fs w)) as [[]|] eqn:E;
    intros [= <- <-] q; simpl.
  - split; [tauto|]. intros [H|[_ ->]]; done.
  - split; [tauto|]. intros [H|[H _]]; done.
  - split; [tauto|]. intros [H|[H _]]; done.
  - destruct (decide (p = q)) as [->|Hne].
    + rewrite get_set_eq. split; [auto|done].
    + rewrite get_set_ne by done. split; [tauto|]. intros [H|[_ ->]]; done.
Qed.

(** The directories after a successful staging: those before it, the
    [hosted_apps] directory, the working directory of the identity, and
    directories below the working directory. *)
Lemma stage_dirs host token cc cp w staged w1 :
  stage host token cc cp w = (Ok staged, w1) →
  is_dir w1 (abspath host "hosted_apps")
  ∧ is_dir w1 (target_dir_of host token)
  ∧ ∀ q, (is_dir w q → is_dir w1 q)
         ∧ (is_dir w1 q →
            is_dir w q ∨ q = abspath host "hosted_apps" ∨ q = target_dir_of host token
            ∨ under (target_dir_of host token) q).
Proof.
  unfold stage. unfold bind at 1.
  destruct (makedirs (abspath host "hosted_apps") w) as [[[]|e] wa] eqn:Ha; [|done].
  unfold bind at 1.
  destruct (makedirs (target_dir_of host token) wa) as [[[]|e] wb] eqn:Hb; [|done].
  pose proof (makedirs_dirs _ _ _ _ Ha) as Da.
  pose proof (makedirs_dirs _ _ _ _ Hb) as Db.
  match goal with |- ?c wb = _ → _ =>
    assert (DirsWithin (target_dir_of host token) c) as Hrest end.
  { destruct (Str.truthy _).
    { apply SameDirs_within, SameDirs_bind;
        [by apply SameDirs_write_node | intros _; apply SameDirs_ret]. }
    destruct (Str.truthy cp); [|apply SameDirs_within, SameDirs_ret].
    destruct (Str.endswith _ ".zip").
    - apply DirsWithin_bind; [apply DirsWithin_extractall | intros _].
      apply SameDirs_within, SameDirs_bind;
        [apply SameDirs_listdir | intros ?; apply SameDirs_ret].
    - apply SameDirs_within, SameDirs_bind;
        [apply SameDirs_copy | intros _; apply SameDirs_ret]. }
  intros Hc.
  assert (∀ q, (is_dir wb q → is_dir w1 q)
               ∧ (is_dir w1 q → is_dir wb q ∨ under (target_dir_of host token) q)) as Dc.
  { intros q. specialize (Hrest wb q). by rewrite Hc in Hrest. }
  split_and!.
  - apply Dc, Db. left. apply Da. auto.
  - apply Dc, Db. auto.
  - intros q. split.
    + intros H. apply Dc, Db. left. apply Da. auto.
    + intros H. apply Dc in H as [H|H]; [|auto].
      apply Db in H as [H|[_ ->]]; [|auto].
      apply Da in H as [H|[_ ->]]; auto.
Qed.

Lemma append_inj_r (a x y : string) : a ++ x = a ++ y → x = y.
Proof. induction a as [|c a IH]; simpl; [done|]. intros [= H]. auto. Qed.

Lemma target_dir_of_inj host t1 t2 :
  target_dir_of host t1 = target_dir_of host t2 → MD5.hexdigest t1 = MD5.hexdigest t2.
Proof.
  unfold target_dir_of, abspath, path_join.
  change ("hosted_apps/app_" ++ ?h) with (String "h" ("osted_apps/app_" ++ h)).
  cbv beta iota.
  destruct (_ || _); intros H; repeat (apply append_inj_r in H; simpl in H);
    injection H as H; by apply append_inj_r in H.
Qed.

(** C9: the working directory is [target_dir_of host identity], a function
    of the identity through its MD5 digest only.  Every successful
    registration of the identity, whatever the payload and the state, runs
    the child in that directory, which exists afterwards; a successful
    staging removes no directory and adds none besides [hosted_apps], the
    working directory and directories below it, so staging the identity
    again, with any payload, adds no directory outside its working
    directory; identities with distinct digests have distinct directories,
    and identities with the same digest share theirs. *)
Theorem working_directory_by_identity host t1 t2 :
  (∀ name cc cp is_site o w u w',
      register host t1 name cc cp is_site o w = (Ok (true, u), w') →
      is_dir w' (target_dir_of host t1)
      ∧ ∃ p, procs w' !! length (procs w) = Some p ∧ p_cwd p = target_dir_of host t1)
  ∧ (∀ cc cp w staged w1,
      stage host t1 cc cp w = (Ok staged, w1) →
      is_dir w1 (target_dir_of host t1)
      ∧ ∀ q, (is_dir w q → is_dir w1 q)
             ∧ (is_dir w1 q →
                is_dir w q ∨ q = abspath host "hosted_apps" ∨ q = target_dir_of host t1
                ∨ under (target_dir_of host t1) q))
  ∧ (∀ cc cp w staged w1 cc' cp' staged' w2,
      stage host t1 cc cp w = (Ok staged, w1) →
      stage host t1 cc' cp' w1 = (Ok staged', w2) →
      ∀ q, (is_dir w1 q → is_dir w2 q)
           ∧ (is_dir w2 q → is_dir w1 q ∨ under (target_dir_of host t1) q))
  ∧ (MD5.hexdigest t1 ≠ MD5.hexdigest t2 → target_dir_of host t1 ≠ target_dir_of host t2)
  ∧ (MD5.hexdigest t1 = MD5.hexdigest t2 → target_dir_of host t1 = target_dir_of host t2).
Proof.
  split_and!.
  - intros name cc cp is_site o w u w' Hreg.
    apply register_success in Hreg as (e & rt & w1 & coop & _ & Hst & _ & _ & ->).
    pose proof (FsOnly_stage host t1 cc cp w) as Hfs. rewrite Hst in Hfs. simpl in Hfs.
    split.
    + destruct (stage_dirs host t1 cc cp w _ _ Hst) as (_ & Hd & _). exact Hd.
    + eexists. split.
      * rewrite procs_launched, <- (only_fs_procs _ _ Hfs).
        rewrite lookup_app_r by lia. by rewrite Nat.sub_diag.
      * reflexivity.
  - intros cc cp w staged w1 Hst.
    destruct (stage_dirs host t1 cc cp w staged w1 Hst) as (_ & Hd & Hq). by split.
  - intros cc cp w staged w1 cc' cp' staged' w2 H1 H2 q.
    destruct (stage_dirs _ _ _ _ _ _ _ H1) as (Hh & Hd & _).
    destruct (stage_dirs _ _ _ _ _ _ _ H2) as (_ & _ & Hq).
    destruct (Hq q) as [Hk Hn]. split; [exact Hk|].
    intros H. apply Hn in H as [H|[->|[->|H]]]; auto.
  - intros Hne Heq. by apply Hne, (target_dir_of_inj host).
  - unfold target_dir_of. by intros ->.
Qed.

Lemma working_directory_by_identity_witness :
  let w := run demo_host (init_world two_entries_fs)
             [ Register "siteA" "UserApp" (Some "print(1)") None true fine;
               Register "siteA" "UserApp" None (Some "/srv/tmp_app.zip") true fine ] in
  p_cwd <$> procs w !! 0 = Some "/srv/hosted_apps/app_19fecf00ef5efe1a40e186b174e3f7d0"
  ∧ p_cwd <$> procs w !! 0 = p_cwd <$> procs w !! 1
  ∧ target_dir_of demo_host "siteA" ≠ target_dir_of demo_host "siteB".
Proof.
  intros w.
  set (w0 := init_world two_entries_fs).
  set (w1 := snd (register demo_host "siteA" "UserApp" (Some "print(1)") None true fine w0)).
  assert (register demo_host "siteA" "UserApp" (Some "print(1)") None true fine w0
          = (Ok (true, "website"), w1)) as H1 by (vm_compute; reflexivity).
  assert (register demo_host "siteA" "UserApp" None (Some "/srv/tmp_app.zip") true fine w1
          = (Ok (true, "website"), w)) as H2 by (vm_compute; reflexivity).
  assert (length (procs w0) = 0 ∧ length (procs w1) = 1) as [L0 L1]
    by (split; vm_compute; reflexivity).
  assert (procs w !! 0 = procs w1 !! 0) as Hkeep by (vm_compute; reflexivity).
  assert (target_dir_of demo_host "siteA"
          = "/srv/hosted_apps/app_19fecf00ef5efe1a40e186b174e3f7d0") as Hd
    by (vm_compute; reflexivity).
  assert (MD5.hexdigest "siteA" ≠ MD5.hexdigest "siteB") as Hne
    by (vm_compute; discriminate).
  clearbody w w1 w0.
  destruct (working_directory_by_identity demo_host "siteA" "siteB")
    as (Hreg & _ & _ & Hinj & _).
  destruct (Hreg _ _ _ _ _ _ _ _ H1) as (_ & p1 & Hp1 & Hc1).
  destruct (Hreg _ _ _ _ _ _ _ _ H2) as (_ & p2 & Hp2 & Hc2).
  rewrite L0 in Hp1. rewrite L1 in Hp2.
  rewrite Hkeep, Hp1, Hp2. cbn [fmap option_fmap option_map].
  rewrite Hc1, Hc2, Hd. split; [reflexivity|]. split; [reflexivity|].
  rewrite <- Hd. exact (Hinj Hne).
Defined.

(** ** Classification of uploads *)

Lemma register_invalid host token name cc cp o w :
  new_bot o = None → get_me o = None →
  register host token name cc cp false o w = (Ok (false, "Invalid Token"), w).
Proof.
  intros Hn Hg. rewrite register_unfold. unfold try_except, check_token. simpl.
  by rewrite Hn, Hg.
Qed.

Lemma register_malformed host token name cc cp o w e :
  new_bot o = Some e →
  register host token name cc cp false o w = (Ok (false, str_exn e), w).
Proof.
  intros Hn. rewrite register_unfold. unfold try_except, check_token. simpl.
  by rewrite Hn.
Qed.

(** C10, as stated, fails: the identity [abc:def] has a [:], so the upload
    flow treats it as a bot token, and the constructor [Bot(token=...)]
    refuses it (what stands before the colon is not a number).  The
    constructor is called outside the [try] around [get_me], so [get_me] is
    never asked, whatever it would answer, and the failure that the handler
    reports is the constructor's "Token is invalid!", not "Invalid
    Token". *)
Lemma malformed_token_is_not_invalid_token :
  let w := init_world [] in
  let code := Message None (Some "print(1)") in
  let refused := Some (TokenValidationError "Token is invalid!") in
  Str.contains ":" "abc:def" = true
  ∧ process_bot_code demo_host (Some "abc:def") code (Oracle refused None (Spawned true)) w
    = (Ok (Some (false, "Token is invalid!")), w)
  ∧ process_bot_code demo_host (Some "abc:def") code
      (Oracle refused (Some "demo_bot") (Spawned true)) w
    = (Ok (Some (false, "Token is invalid!")), w)
  ∧ "Token is invalid!" ≠ "Invalid Token".
Proof.
  intros w code refused. split_and!; [vm_compute; reflexivity..|discriminate].
Qed.

(** C10, amended: in the upload flow the workload is registered as a site
    exactly when the identity has no [:].  An identity with a [:] goes to
    the [Bot] constructor first: when the constructor refuses it, the
    outcome is the failure with the constructor's message; when the
    constructor accepts it, it is checked with [get_me] before any staging,
    and when that check fails the outcome is the failure "Invalid Token".
    In both cases the state is the one right after the upload was received:
    nothing is staged, launched or registered. *)
Theorem upload_classified_by_colon host token m o w :
  token ≠ "" →
  (∀ u w',
     process_bot_code host (Some token) m o w = (Ok (Some (true, u)), w') →
     ∃ r, lookup_bot w' token = Some r
          ∧ (is_site_record r ↔ Str.contains ":" token = false)
          ∧ (Str.contains ":" token = true →
             r !! "type" = Some (VStr "bot") ∧ get_me o = Some u))
  ∧ (Str.contains ":" token = true → new_bot o = None → get_me o = None →
     ∀ payload w0,
       receive_payload host m w = (Ok payload, w0) →
       process_bot_code host (Some token) m o w = (Ok (Some (false, "Invalid Token")), w0)
       ∧ bots w0 = bots w ∧ procs w0 = procs w
       ∧ (document m = None → w0 = w))
  ∧ (Str.contains ":" token = true → ∀ e, new_bot o = Some e →
     ∀ payload w0,
       receive_payload host m w = (Ok payload, w0) →
       process_bot_code host (Some token) m o w = (Ok (Some (false, str_exn e)), w0)
       ∧ bots w0 = bots w ∧ procs w0 = procs w
       ∧ (document m = None → w0 = w))
  ∧ (new_bot o = None → get_me o = None →
     ∀ name cc cp w0,
       register host token name cc cp false o w0 = (Ok (false, "Invalid Token"), w0)).
Proof.
  intros Ht. split_and!.
  - intros u w'. rewrite process_bot_code_unfold, (truthy_Some token Ht). cbn [negb].
    change (default "" (Some token)) with token.
    destruct (receive_payload host m w) as [[payload|e] w0]; [|done].
    destruct (register host token "UserApp" payload.1 payload.2
                (negb (Str.contains ":" token)) o w0) as [[[ok u']|e] w1] eqn:Hreg; [|done].
    intros [= -> -> <-]. cbn [fst snd].
    apply register_success in Hreg as (e & rt & w2 & coop & Hk & _ & _ & _ & ->).
    eexists. split.
    { unfold lookup_bot. apply get_set_eq. }
    rewrite mk_record_type. unfold is_site_record. rewrite mk_record_type.
    unfold check_token in Hk.
    destruct (Str.contains ":" token); cbn [negb] in *.
    + split; [split; discriminate|]. intros _. split; [done|].
      destruct (new_bot o); [discriminate Hk|].
      destruct (get_me o); [|discriminate Hk]. by injection Hk as ->.
    + split; [done | discriminate].
  - intros Hcolon Hn Hg payload w0 Hrecv.
    rewrite process_bot_code_unfold, (truthy_Some token Ht). cbn [negb].
    change (default "" (Some token)) with token.
    rewrite Hrecv, Hcolon. cbn [negb].
    rewrite (register_invalid host token "UserApp" _ _ o w0 Hn Hg). cbn [fst].
    pose proof (FsOnly_receive_payload host m w) as Hfs. rewrite Hrecv in Hfs.
    split_and!; [done | by apply only_fs_bots | by apply only_fs_procs |].
    intros Hdoc. unfold receive_payload in Hrecv. rewrite Hdoc in Hrecv.
    destruct (Str.truthy (text m)); by injection Hrecv.
  - intros Hcolon e Hn payload w0 Hrecv.
    rewrite process_bot_code_unfold, (truthy_Some token Ht). cbn [negb].
    change (default "" (Some token)) with token.
    rewrite Hrecv, Hcolon. cbn [negb].
    rewrite (register_malformed host token "UserApp" _ _ o w0 e Hn). cbn [fst].
    pose proof (FsOnly_receive_payload host m w) as Hfs. rewrite Hrecv in Hfs.
    split_and!; [done | by apply only_fs_bots | by apply only_fs_procs |].
    intros Hdoc. unfold receive_payload in Hrecv. rewrite Hdoc in Hrecv.
    destruct (Str.truthy (text m)); by injection Hrecv.
  - intros Hn Hg name cc cp w0. by apply register_invalid.
Qed.

Lemma upload_classified_by_colon_witness :
  let w := init_world [] in
  let code := Message None (Some "print(1)") in
  (∃ w' r, process_bot_code demo_host (Some "siteA") code fine w
           = (Ok (Some (true, "website")), w')
           ∧ lookup_bot w' "siteA" = Some r ∧ is_site_record r)
  ∧ process_bot_code demo_host (Some "123:abc") code (Oracle None None (Spawned true)) w
    = (Ok (Some (false, "Invalid Token")), w)
  ∧ process_bot_code demo_host (Some "abc:def") code
      (Oracle (Some (TokenValidationError "Token is invalid!")) None (Spawned true)) w
    = (Ok (Some (false, "Token is invalid!")), w).
Proof.
  assert ("siteA" ≠ "" ∧ "123:abc" ≠ "") as [Ha Hb] by (split; discriminate).
  assert ("abc:def" ≠ "") as Hc by discriminate.
  intros w code.
  set (w' := snd (process_bot_code demo_host (Some "siteA") code fine w)).
  assert (process_bot_code demo_host (Some "siteA") code fine w
          = (Ok (Some (true, "website")), w')) as H1 by (vm_compute; reflexivity).
  assert (receive_payload demo_host code w = (Ok (Some "print(1)", None), w)) as Hrecv
    by (vm_compute; reflexivity).
  clearbody w' w.
  destruct (upload_classified_by_colon demo_host "siteA" code fine w Ha) as (Hs & _ & _).
  destruct (upload_classified_by_colon demo_host "123:abc" code (Oracle None None (Spawned true))
              w Hb) as (_ & Hinv & _).
  destruct (upload_classified_by_colon demo_host "abc:def" code
              (Oracle (Some (TokenValidationError "Token is invalid!")) None (Spawned true))
              w Hc) as (_ & _ & Href & _).
  destruct (Hs _ _ H1) as (r & Hr & Hsite & _).
  split_and!.
  - exists w', r. split; [exact H1|]. split; [exact Hr|]. apply Hsite. reflexivity.
  - exact (proj1 (Hinv eq_refl eq_refl eq_refl _ _ Hrecv)).
  - exact (proj1 (Href eq_refl _ eq_refl _ _ Hrecv)).
Defined.

(** ** [get_bot] *)

(** X1: in every reachable state [get_bot] returns [None] for an identity
    without a record and raises [KeyError('bot')] for every registered
    identity, because no record has a [bot] entry; the state is untouched
    either way. *)
Theorem get_bot_never_returns_a_bot host w token :
  reachable host w →
  (lookup_bot w token = None → get_bot token w = (Ok VNone, w))
  ∧ (∀ r, lookup_bot w token = Some r → get_bot token w = (Raise (KeyError "bot"), w)).
Proof.
  intros Hreach. apply reachable_inv in Hreach. unfold lookup_bot, get_bot.
  cbv beta delta [bind get_world] iota. split.
  - intros ->. reflexivity.
  - intros r Hr. rewrite Hr.
    destruct (inv_records w Hreach token r Hr) as (name & u & pid & port & s & -> & _).
    rewrite bool_decide_eq_false_2 by apply mk_record_nonempty. reflexivity.
Qed.

Lemma get_bot_never_returns_a_bot_witness :
  let w := run demo_host (init_world []) [Register "123:abc" "UserApp" None None false fine] in
  get_bot "ghost" w = (Ok VNone, w)
  ∧ get_bot "123:abc" w = (Raise (KeyError "bot"), w).
Proof.
  intros w.
  assert (reachable demo_host w) as Hreach by (by eexists [], _).
  assert (lookup_bot w "ghost" = None) as Hg by (vm_compute; reflexivity).
  assert (lookup_bot w "123:abc"
          = Some (mk_record "123:abc" "UserApp" "demo_bot" 0 None false)) as Hr
    by (vm_compute; reflexivity).
  clearbody w.
  destruct (get_bot_never_returns_a_bot demo_host w "ghost" Hreach) as [H1 _].
  destruct (get_bot_never_returns_a_bot demo_host w "123:abc" Hreach) as [_ H2].
  split; [exact (H1 Hg) | exact (H2 _ Hr)].
Defined.

(** ** [shutdown] *)

Lemma lookup_bot_unregister token w t :
  inv w →
  lookup_bot (snd (unregister token w)) t
  = if decide (token = t) then None else lookup_bot w t.
Proof.
  intros Hinv. destruct (lookup_bot w token) as [r|] eqn:Hr.
  - destruct (inv_records w Hinv token r Hr) as (name & u & pid & port & s & -> & _).
    erewrite unregister_record;
      [|exact Hr|apply mk_record_process|apply mk_record_log_file].
    unfold lookup_bot. simpl. rewrite bots_stopped. case_decide as E.
    + subst t. apply get_del_eq, (inv_nodup w Hinv).
    + by apply get_del_ne.
  - rewrite unregister_unknown by done. simpl. case_decide; [by subst|done].
Qed.

Lemma unregister_returns token w :
  inv w → ∃ b, fst (unregister token w) = Ok b.
Proof.
  intros Hinv. destruct (lookup_bot w token) as [r|] eqn:Hr.
  - destruct (inv_records w Hinv token r Hr) as (name & u & pid & port & s & -> & _).
    erewrite unregister_record;
      [|exact Hr|apply mk_record_process|apply mk_record_log_file].
    by exists true.
  - rewrite unregister_unknown by done. by exists false.
Qed.

(** [unregister] never touches the file system. *)
Lemma fs_unregister token w : fs (snd (unregister token w)) = fs w.
Proof.
  unfold unregister. cbv beta delta [bind get_world] iota.
  destruct (Dict.get token (bots w)) as [info|]; [|reflexivity].
  destruct (truthy_val (default VNone (info !! "process"))) eqn:Ht.
  - destruct (default VNone (info !! "process")) as [| | | |pid]; simpl; try reflexivity.
    change (try_except _ _ w) with (stop_process pid w).
    rewrite stop_process_stopped.
    destruct (truthy_val (default VNone (info !! "log_file"))); simpl; apply fs_stopped.
  - simpl. destruct (truthy_val (default VNone (info !! "log_file"))); reflexivity.
Qed.

Lemma length_procs_unregister token w :
  inv w → length (procs (snd (unregister token w))) = length (procs w).
Proof.
  intros Hinv. destruct (lookup_bot w token) as [r|] eqn:Hr.
  - destruct (inv_records w Hinv token r Hr) as (name & u & pid & port & s & -> & _).
    erewrite unregister_record;
      [|exact Hr|apply mk_record_process|apply mk_record_log_file].
    simpl. apply length_procs_stopped.
  - by rewrite unregister_unknown.
Qed.

(** What one [unregister] does to the processes and to the calls. *)
Lemma unregister_effect token w :
  inv w →
  let w1 := snd (unregister token w) in
  (∀ c, c ∈ calls w → c ∈ calls w1)
  ∧ (∀ pid, is_running w1 pid = true → is_running w pid = true)
  ∧ (∀ r pid, lookup_bot w token = Some r → process_of r = Some (VProc pid) →
       Terminate pid ∈ calls w1 ∧ is_running w1 pid = false)
  ∧ (∀ pid, (∀ r, lookup_bot w token = Some r → process_of r ≠ Some (VProc pid)) →
       is_running w1 pid = is_running w pid
       ∧ ∀ c, c ∈ calls w1 → call_pid c = pid → c ∈ calls w).
Proof.
  intros Hinv. destruct (lookup_bot w token) as [r|] eqn:Hr.
  2: { rewrite unregister_unknown by done. simpl. split_and!; done. }
  destruct (inv_records w Hinv token r Hr) as (name & u & pid0 & port & s & -> & _).
  erewrite unregister_record;
    [|exact Hr|apply mk_record_process|apply mk_record_log_file].
  simpl. destruct (calls_stopped pid0 w) as (rest & Hcalls & Hrest).
  split_and!.
  - intros c Hc. rewrite Hcalls. rewrite elem_of_app. by left.
  - intros pid.
    change (is_running (set_bots (Dict.del token) (stopped pid0 w)) pid)
      with (is_running (stopped pid0 w) pid).
    rewrite is_running_stopped. by case_decide.
  - intros r pid [= <-]. unfold process_of. rewrite mk_record_process. intros [= <-].
    split.
    + rewrite Hcalls. rewrite elem_of_app, elem_of_cons. auto.
    + change (is_running (stopped pid0 w) pid0 = false).
      rewrite is_running_stopped. by case_decide.
  - intros pid Hne.
    assert (pid0 ≠ pid) as Hp.
    { intros ->. eapply Hne; [done|]. apply mk_record_process. }
    split.
    + change (is_running (stopped pid0 w) pid = is_running w pid).
      rewrite is_running_stopped. by case_decide.
    + intros c. rewrite Hcalls. rewrite elem_of_app, elem_of_cons.
      intros [Hc|[->|Hc]] Hpid; [done| |].
      * simpl in Hpid. done.
      * apply Hrest in Hc. congruence.
Qed.

(** The loop of [shutdown] over any list of identities. *)
Lemma unregister_each_spec tokens :
  ∀ w, inv w →
  ∃ w', unregister_each tokens w = (Ok tt, w')
    ∧ inv w'
    ∧ fs w' = fs w
    ∧ length (procs w') = length (procs w)
    ∧ (∀ t, lookup_bot w' t = if bool_decide (t ∈ tokens) then None else lookup_bot w t)
    ∧ (∀ c, c ∈ calls w → c ∈ calls w')
    ∧ (∀ pid, is_running w' pid = true → is_running w pid = true)
    ∧ (∀ t r pid, t ∈ tokens → lookup_bot w t = Some r → process_of r = Some (VProc pid) →
         Terminate pid ∈ calls w' ∧ is_running w' pid = false)
    ∧ (∀ pid, (∀ t r, t ∈ tokens → lookup_bot w t = Some r →
                      process_of r ≠ Some (VProc pid)) →
         is_running w' pid = is_running w pid
         ∧ ∀ c, c ∈ calls w' → call_pid c = pid → c ∈ calls w).
Proof.
  induction tokens as [|k tokens IH]; intros w Hinv.
  { exists w. split_and!; try done.
    intros t r pid Ht. by apply elem_of_nil in Ht. }
  unfold unregister_each. simpl. cbv beta delta [bind] iota.
  destruct (unregister_returns k w Hinv) as [b Hb].
  pose proof (inv_unregister k w Hinv) as Hinv1.
  pose proof (fs_unregister k w) as Hfs1.
  pose proof (length_procs_unregister k w Hinv) as Hlen1.
  pose proof (lookup_bot_unregister k w) as Hlk1.
  pose proof (unregister_effect k w Hinv) as (Hc1 & Hmono1 & Hstop1 & Hspare1).
  destruct (unregister k w) as [[b'|e] w1]; simpl in *; [|discriminate Hb].
  cbv beta delta [ret] iota.
  destruct (IH w1 Hinv1) as (w' & Hrun & Hinv' & Hfs & Hlen & Hlk & Hc & Hmono & Hstop & Hspare).
  exists w'. split; [exact Hrun|]. split; [exact Hinv'|].
  split; [congruence|]. split; [congruence|].
  split_and!.
  - intros t. rewrite Hlk, Hlk1 by done.
    destruct (decide (k = t)) as [<-|Hne].
    + rewrite (bool_decide_eq_true_2 (k ∈ k :: tokens)) by apply list_elem_of_here.
      by case_bool_decide.
    + case_bool_decide as E1; case_bool_decide as E2; try done.
      * exfalso. apply E2. by apply list_elem_of_further.
      * exfalso. apply elem_of_cons in E2 as [->|E2]; done.
  - auto.
  - auto.
  - intros t r pid Ht Hr Hp. destruct (decide (k = t)) as [<-|Hne].
    + destruct (Hstop1 r pid Hr Hp) as [Hterm Hstopd]. split; [auto|].
      destruct (is_running w' pid) eqn:E; [|done].
      apply Hmono in E. congruence.
    + apply elem_of_cons in Ht as [->|Ht]; [done|].
      apply (Hstop t r pid Ht); [|done].
      rewrite Hlk1 by done. by case_decide.
  - intros pid Hne.
    destruct (Hspare1 pid) as [Hr1 Hcalls1].
    { intros r Hr. apply (Hne k r); [apply list_elem_of_here | done]. }
    destruct (Hspare pid) as [Hr2 Hcalls2].
    { intros t r Ht Hr. rewrite Hlk1 in Hr by done. case_decide; [done|].
      apply (Hne t r); [by apply list_elem_of_further | done]. }
    split; [congruence|]. intros c Hc' Hpid. auto.
Qed.

Lemma tracked_key w pid :
  tracked w pid ↔
  ∃ t r, t ∈ Dict.keys (bots w) ∧ lookup_bot w t = Some r ∧ process_of r = Some (VProc pid).
Proof.
  split.
  - intros (t & r & Hr & Hp). exists t, r. split; [|done].
    apply get_Some_elem in Hr. unfold Dict.keys. apply list_elem_of_fmap. by exists (t, r).
  - intros (t & r & _ & Hr & Hp). by exists t, r.
Qed.

Lemma trackedb_tracked w pid :
  NoDup (Dict.keys (bots w)) → trackedb w pid = true → tracked w pid.
Proof.
  intros Hnd H. apply existsb_exists in H as (r & Hin & Hp).
  apply bool_decide_eq_true in Hp. apply list_elem_of_In in Hin.
  unfold Dict.values in Hin. apply list_elem_of_fmap in Hin as ([t r'] & -> & Hin).
  exists t, r'. split; [|done]. by apply elem_get.
Qed.

Lemma set_bots_nil w : bots w = [] → set_bots (fun _ => []) w = w.
Proof. destruct w. simpl. by intros ->. Qed.

(** X2: from every reachable state [shutdown] returns normally and leaves
    an empty registry; every process that a record held has received
    [terminate] and is no longer running; the process table keeps its length
    and the file system is untouched; a second [shutdown] changes nothing. *)
Theorem shutdown_stops_tracked_processes host w :
  reachable host w →
  ∃ w', shutdown w = (Ok tt, w')
    ∧ bots w' = []
    ∧ (∀ pid, tracked w pid → Terminate pid ∈ calls w' ∧ is_running w' pid = false)
    ∧ length (procs w') = length (procs w)
    ∧ fs w' = fs w
    ∧ shutdown w' = (Ok tt, w').
Proof.
  intros Hreach. apply reachable_inv in Hreach.
  destruct (unregister_each_spec (Dict.keys (bots w)) w Hreach)
    as (w1 & Hrun & Hinv1 & Hfs & Hlen & Hlk & Hc & Hmono & Hstop & Hspare).
  exists (set_bots (fun _ => []) w1).
  unfold shutdown. cbv beta delta [bind get_world modify] iota. rewrite Hrun.
  split; [reflexivity|]. split; [reflexivity|]. split_and!.
  - intros pid Ht. apply tracked_key in Ht as (t & r & Hk & Hr & Hp).
    exact (Hstop t r pid Hk Hr Hp).
  - exact Hlen.
  - exact Hfs.
  - simpl. unfold unregister_each. simpl. cbv beta delta [ret] iota.
    by destruct w1.
Qed.

Lemma shutdown_stops_tracked_processes_witness :
  let w := run demo_host (init_world []) port_reuse_ops in
  ∃ w', shutdown w = (Ok tt, w') ∧ bots w' = []
        ∧ is_running w' 1 = false ∧ is_running w' 2 = false.
Proof.
  intros w.
  assert (reachable demo_host w) as Hreach by (by eexists [], _).
  assert (trackedb w 1 = true ∧ trackedb w 2 = true) as [H1 H2]
    by (split; vm_compute; reflexivity).
  clearbody w.
  pose proof (inv_nodup w (reachable_inv _ _ Hreach)) as Hnd.
  destruct (shutdown_stops_tracked_processes demo_host w Hreach)
    as (w' & Hs & Hb & Hstop & _).
  exists w'. split; [exact Hs|]. split; [exact Hb|].
  split; [exact (proj2 (Hstop 1 (trackedb_tracked w 1 Hnd H1)))
         | exact (proj2 (Hstop 2 (trackedb_tracked w 2 Hnd H2)))].
Defined.

(** X3: [shutdown] signals only the processes that records hold: a process
    that no record holds (the first child of an identity deployed twice,
    say) receives no call and keeps its status, so it survives the
    shutdown of the platform. *)
Theorem shutdown_spares_untracked host w pid :
  reachable host w →
  ¬ tracked w pid →
  let w' := snd (shutdown w) in
  is_running w' pid = is_running w pid
  ∧ ∀ c, c ∈ calls w' → call_pid c = pid → c ∈ calls w.
Proof.
  intros Hreach Hnt. apply reachable_inv in Hreach.
  destruct (unregister_each_spec (Dict.keys (bots w)) w Hreach)
    as (w1 & Hrun & Hinv1 & Hfs & Hlen & Hlk & Hc & Hmono & Hstop & Hspare).
  unfold shutdown. cbv beta delta [bind get_world modify] iota. rewrite Hrun.
  simpl. apply (Hspare pid).
  intros t r Ht Hr Hp. apply Hnt. by exists t, r.
Qed.

Lemma shutdown_spares_untracked_witness :
  let w := run demo_host (init_world []) redeploy_ops in
  is_running (snd (shutdown w)) 0 = true.
Proof.
  intros w.
  assert (reachable demo_host w) as Hreach by (by eexists [], _).
  assert (is_running w 0 = true) as Hrun by (vm_compute; reflexivity).
  assert (trackedb w 0 = false) as Htr by (vm_compute; reflexivity).
  clearbody w.
  assert (¬ tracked w 0) as Hnt.
  { intros H. apply tracked_trackedb in H. congruence. }
  destruct (shutdown_spares_untracked demo_host w 0 Hreach Hnt) as [H _].
  rewrite H. exact Hrun.
Defined.

(** ** [register] followed by [unregister] *)

Lemma del_set_eq {V} (k : string) (v : V) d : Dict.del k (Dict.set k v d) = Dict.del k d.
Proof.
  induction d as [|[k' v'] d IH]; simpl.
  - by rewrite eqb_refl'.
  - destruct (String.eqb k k') eqn:E; simpl.
    + by rewrite eqb_refl'.
    + by rewrite E, IH.
Qed.

Lemma del_absent {V} (k : string) (d : list (string * V)) :
  Dict.get k d = None → Dict.del k d = d.
Proof.
  induction d as [|[k' v'] d IH]; simpl; [done|].
  destruct (String.eqb k k'); [done|]. intros H. by rewrite IH.
Qed.

(** X4: in every reachable state, a successful [register] followed by
    [unregister] of the same identity returns [True], stops the child that
    the registration launched and leaves the registry as it was without that
    identity (exactly as it was, when the identity was new); the files that
    the registration staged stay on disk. *)
Theorem register_then_unregister host token name cc cp is_site o w u w1 :
  reachable host w →
  register host token name cc cp is_site o w = (Ok (true, u), w1) →
  ∃ w2, unregister token w1 = (Ok true, w2)
    ∧ bots w2 = Dict.del token (bots w)
    ∧ (lookup_bot w token = None → bots w2 = bots w)
    ∧ fs w2 = fs w1
    ∧ Terminate (length (procs w)) ∈ calls w2
    ∧ is_running w2 (length (procs w)) = false.
Proof.
  intros Hreach Hreg.
  apply register_success in Hreg as (entry & rt & w0 & coop & Hc & Hst & Hne & Hs & ->).
  pose proof (FsOnly_stage host token cc cp w) as Hfs.
  rewrite Hst in Hfs. simpl in Hfs.
  pose proof (only_fs_bots _ _ Hfs) as Hb. pose proof (only_fs_procs _ _ Hfs) as Hp.
  set (w1 := launched host token name u is_site coop entry rt w0).
  set (pid := length (procs w0)).
  assert (unregister token w1 = (Ok true, set_bots (Dict.del token) (stopped pid w1))) as Hu.
  { eapply unregister_record;
      [apply lookup_bot_launched_eq | apply mk_record_process | apply mk_record_log_file]. }
  exists (set_bots (Dict.del token) (stopped pid w1)).
  assert (bots (set_bots (Dict.del token) (stopped pid w1)) = Dict.del token (bots w)) as Hd.
  { simpl. rewrite bots_stopped. subst w1. rewrite bots_launched, del_set_eq. by rewrite Hb. }
  split; [exact Hu|]. split; [exact Hd|]. split_and!.
  - intros Hnone. rewrite Hd. by apply del_absent.
  - simpl. rewrite fs_stopped. reflexivity.
  - rewrite <- Hp. fold pid. simpl.
    destruct (calls_stopped pid w1) as (rest & -> & _).
    rewrite elem_of_app, elem_of_cons. auto.
  - rewrite <- Hp. fold pid.
    change (is_running (stopped pid w1) pid = false).
    rewrite is_running_stopped. by case_decide.
Qed.

Lemma register_then_unregister_witness :
  let w := run demo_host (init_world []) [Register "siteA" "UserApp" None None true fine] in
  ∃ w1 w2,
    register demo_host "siteB" "UserApp" (Some "print(1)") None true fine w
      = (Ok (true, "website"), w1)
    ∧ unregister "siteB" w1 = (Ok true, w2)
    ∧ bots w2 = bots w
    ∧ is_running w2 1 = false.
Proof.
  intros w.
  assert (reachable demo_host w) as Hreach by (by eexists [], _).
  assert (lookup_bot w "siteB" = None) as Hnone by (vm_compute; reflexivity).
  assert (length (procs w) = 1) as Hlen by (vm_compute; reflexivity).
  assert (fst (register demo_host "siteB" "UserApp" (Some "print(1)") None true fine w)
          = Ok (true, "website")) as Hreg by (vm_compute; reflexivity).
  clearbody w.
  destruct (register demo_host "siteB" "UserApp" (Some "print(1)") None true fine w)
    as [r w1] eqn:E.
  cbn [fst] in Hreg. subst r.
  destruct (register_then_unregister demo_host _ _ _ _ _ _ w _ w1 Hreach E)
    as (w2 & Hu & _ & Hb & _ & _ & Hrun).
  exists w1, w2. split; [reflexivity|]. split; [exact Hu|].
  split; [exact (Hb Hnone)|]. rewrite Hlen in Hrun. exact Hrun.
Defined.

(** ** Ports in runs that never shrink the registry *)

Lemma site_record_wf w t r :
  wf_record w t r → is_site_record r → ∃ p, port_of r = Some (VInt p).
Proof.
  intros (name & u & pid & port & s & -> & _ & Hp) Hs.
  unfold is_site_record in Hs. rewrite mk_record_type in Hs.
  destruct s; [|discriminate Hs].
  destruct Hp as (p & -> & _). by exists p.
Qed.

Lemma ports_same_bots w w' :
  bots w' = bots w →
  ports_bounded w ∧ ports_pairwise_distinct w →
  ports_bounded w' ∧ ports_pairwise_distinct w'.
Proof.
  unfold ports_bounded, ports_pairwise_distinct, lookup_bot. intros ->. done.
Qed.

Lemma ports_launched host token name u is_site coop entry rt w :
  inv w → lookup_bot w token = None →
  ports_bounded w ∧ ports_pairwise_distinct w →
  ports_bounded (launched host token name u is_site coop entry rt w)
  ∧ ports_pairwise_distinct (launched host token name u is_site coop entry rt w).
Proof.
  intros Hinv Hnew [Hb Hd].
  set (w' := launched host token name u is_site coop entry rt w).
  assert (length (bots w') = S (length (bots w))) as Hlen.
  { subst w'. rewrite bots_launched, length_set. unfold Dict.mem.
    unfold lookup_bot in Hnew. by rewrite Hnew. }
  assert (∀ p, port_of (mk_record token name u (length (procs w))
                          (allocate_port is_site w) is_site) = Some (VInt p) →
               p = (10000 + Z.of_nat (length (bots w)) + 1)%Z) as Hnewport.
  { intros p. unfold port_of. rewrite mk_record_port. unfold allocate_port.
    destruct is_site; [|done]. by intros [= <-]. }
  split.
  - intros t r p Hr Hp. rewrite Hlen. destruct (decide (token = t)) as [<-|Hne].
    + subst w'. rewrite lookup_bot_launched_eq in Hr. injection Hr as <-.
      apply Hnewport in Hp. lia.
    + subst w'. rewrite lookup_bot_launched_ne in Hr by done.
      pose proof (Hb t r p Hr Hp). lia.
  - intros t1 t2 r1 r2 Hne Hr1 Hr2 Hs1 Hs2. subst w'.
    destruct (decide (token = t1)) as [<-|Hne1];
      destruct (decide (token = t2)) as [<-|Hne2]; [done | | |].
    + rewrite lookup_bot_launched_eq in Hr1. injection Hr1 as <-.
      rewrite lookup_bot_launched_ne in Hr2 by done.
      destruct (site_record_wf w t2 r2 (inv_records w Hinv _ _ Hr2) Hs2) as [p2 Hp2].
      intros Heq. rewrite Hp2 in Heq. apply Hnewport in Heq.
      pose proof (Hb t2 r2 p2 Hr2 Hp2). lia.
    + rewrite lookup_bot_launched_eq in Hr2. injection Hr2 as <-.
      rewrite lookup_bot_launched_ne in Hr1 by done.
      destruct (site_record_wf w t1 r1 (inv_records w Hinv _ _ Hr1) Hs1) as [p1 Hp1].
      intros Heq. rewrite Hp1 in Heq. symmetry in Heq. apply Hnewport in Heq.
      pose proof (Hb t1 r1 p1 Hr1 Hp1). lia.
    + rewrite lookup_bot_launched_ne in Hr1, Hr2 by done.
      exact (Hd t1 t2 r1 r2 Hne Hr1 Hr2 Hs1 Hs2).
Qed.

Lemma ports_register host token name cc cp is_site o w :
  inv w → Dict.mem token (bots w) = false →
  ports_bounded w ∧ ports_pairwise_distinct w →
  ports_bounded (snd (register host token name cc cp is_site o w))
  ∧ ports_pairwise_distinct (snd (register host token name cc cp is_site o w)).
Proof.
  intros Hinv Hnew Hp.
  assert (lookup_bot w token = None) as Hnone.
  { unfold lookup_bot, Dict.mem in *. by destruct (Dict.get token (bots w)). }
  destruct (register host token name cc cp is_site o w) as [[[[] msg]|e] w'] eqn:Hreg; simpl.
  - apply register_success in Hreg as (entry & rt & w1 & coop & _ & Hst & _ & _ & ->).
    pose proof (FsOnly_stage host token cc cp w) as Hfs. rewrite Hst in Hfs. simpl in Hfs.
    apply ports_launched.
    + by eapply inv_only_fs.
    + unfold lookup_bot in *. by rewrite (only_fs_bots _ _ Hfs).
    + eapply ports_same_bots; [|exact Hp]. by apply only_fs_bots.
  - apply register_failure in Hreg.
    eapply ports_same_bots; [|exact Hp]. by apply only_fs_bots.
  - destruct (register_returns host token name cc cp is_site o w) as (? & ? & H).
    rewrite Hreg in H. discriminate H.
Qed.

Lemma ports_process_bot_code host st m o w :
  inv w → Str.truthy st && Dict.mem (default "" st) (bots w) = false →
  ports_bounded w ∧ ports_pairwise_distinct w →
  ports_bounded (snd (process_bot_code host st m o w))
  ∧ ports_pairwise_distinct (snd (process_bot_code host st m o w)).
Proof.
  intros Hinv Hnew Hp. rewrite process_bot_code_unfold.
  destruct (Str.truthy st); simpl in *; [|done].
  pose proof (FsOnly_receive_payload host m w) as Hfs.
  destruct (receive_payload host m w) as [[payload|e] w0]; simpl in *.
  2: { eapply ports_same_bots; [|exact Hp]. by apply only_fs_bots. }
  assert (inv w0) as Hinv0 by (by eapply inv_only_fs).
  assert (Dict.mem (default "" st) (bots w0) = false) as Hnew0
    by (by rewrite (only_fs_bots _ _ Hfs)).
  assert (ports_bounded w0 ∧ ports_pairwise_distinct w0) as Hp0.
  { eapply ports_same_bots; [|exact Hp]. by apply only_fs_bots. }
  pose proof (ports_register host (default "" st) "UserApp" (fst payload) (snd payload)
                (negb (Str.contains ":" (default "" st))) o w0 Hinv0 Hnew0 Hp0) as Hr.
  destruct (register _ _ _ _ _ _ _ w0) as [[[[] u]|e] w1]; simpl in *; [|done..].
  eapply ports_same_bots; [|exact Hr]. by destruct w1.
Qed.

Lemma ports_step host w a :
  inv w → redeploys w a = false → removes w a = false →
  ports_bounded w ∧ ports_pairwise_distinct w →
  ports_bounded (step host w a) ∧ ports_pairwise_distinct (step host w a).
Proof.
  intros Hinv Hre Hrm Hp. destruct a; simpl in *.
  - by apply ports_register.
  - rewrite unregister_unknown; [done|].
    unfold lookup_bot, Dict.mem in *. by destruct (Dict.get token (bots w)).
  - by apply ports_process_bot_code.
  - by rewrite hosted_webhook_world.
  - eapply ports_same_bots; [|exact Hp]. reflexivity.
Qed.

Lemma ports_run host ops :
  ∀ w, inv w →
       no_redeploy host w ops = true → no_removal host w ops = true →
       ports_bounded w ∧ ports_pairwise_distinct w →
       ports_bounded (run host w ops) ∧ ports_pairwise_distinct (run host w ops).
Proof.
  induction ops as [|a ops IH]; intros w Hinv Hre Hrm Hp; simpl in *; [done|].
  apply andb_true_iff in Hre as [Ha Hre]. apply negb_true_iff in Ha.
  apply andb_true_iff in Hrm as [Hb Hrm]. apply negb_true_iff in Hb.
  apply IH; [by apply inv_step | done | done | by apply ports_step].
Qed.

(** X5: in the state reached by a run in which no operation removes a live
    record and no operation registers an identity that already has one,
    the ports of the live Site records are pairwise distinct, and every
    allocated port is at most [10000 + len(self._bots)]. *)
Theorem ports_distinct_while_registry_grows host fs0 ops :
  no_redeploy host (init_world fs0) ops = true →
  no_removal host (init_world fs0) ops = true →
  let w := run host (init_world fs0) ops in
  ports_pairwise_distinct w ∧ ports_bounded w.
Proof.
  intros Hre Hrm w.
  destruct (ports_run host ops (init_world fs0) (inv_init fs0) Hre Hrm) as [Hb Hd].
  - split.
    + intros t r p Hr. unfold lookup_bot in Hr. simpl in Hr. done.
    + intros t1 t2 r1 r2 _ Hr. unfold lookup_bot in Hr. simpl in Hr. done.
  - by split.
Qed.

Lemma ports_distinct_while_registry_grows_witness :
  let ops := [ Register "siteA" "UserApp" None None true fine;
               Register "123:abc" "UserApp" None None false fine;
               Unregister "ghost";
               Register "siteB" "UserApp" None None true fine ] in
  let w := run demo_host (init_world []) ops in
  ports_pairwise_distinct w
  ∧ port_of <$> lookup_bot w "siteA" = Some (Some (VInt 10001))
  ∧ port_of <$> lookup_bot w "siteB" = Some (Some (VInt 10003)).
Proof.
  intros ops w.
  assert (no_redeploy demo_host (init_world []) ops = true) as Hre
    by (vm_compute; reflexivity).
  assert (no_removal demo_host (init_world []) ops = true) as Hrm
    by (vm_compute; reflexivity).
  assert (port_of <$> lookup_bot w "siteA" = Some (Some (VInt 10001))) as HA
    by (vm_compute; reflexivity).
  assert (port_of <$> lookup_bot w "siteB" = Some (Some (VInt 10003))) as HB
    by (vm_compute; reflexivity).
  pose proof (ports_distinct_while_registry_grows demo_host [] ops Hre Hrm) as [Hd _].
  fold w in Hd. clearbody w.
  split; [exact Hd|]. split; [exact HA | exact HB].
Defined.

(** ** [RateLimitMiddleware] *)

Module RateLimitFacts.
Import RateLimit.
Local Open Scope Z_scope.

Lemma length_clean m now ts : (length (clean m now ts) ≤ length ts)%nat.
Proof. unfold clean. apply List.filter_length_le. Qed.

Lemma stored_call_eq m u now :
  stored (snd (call m (Some u) now)) u
  = match fst (call m (Some u) now) with
    | Ok Passed => (clean m now (stored m u) ++ [now])%list
    | _ => clean m now (stored m u)
    end.
Proof.
  unfold call, stored.
  destruct (users m !! u) as [ts|] eqn:E; simpl;
    destruct (rate_limit m <=? _); simpl; by rewrite lookup_insert_eq.
Qed.

Lemma stored_call_ne m u v now : u ≠ v → stored (snd (call m (Some u) now)) v = stored m v.
Proof.
  intros Hne. unfold call, stored.
  destruct (rate_limit m <=? _); simpl; by rewrite lookup_insert_ne.
Qed.

Lemma call_verdict m u now :
  fst (call m (Some u) now)
  = if rate_limit m <=? Z.of_nat (length (clean m now (stored m u)))
    then Ok Limited else Ok Passed.
Proof.
  unfold call, stored. destruct (users m !! u) as [ts|]; simpl;
    by destruct (rate_limit m <=? _).
Qed.

Lemma call_params m fu now :
  rate_limit (snd (call m fu now)) = rate_limit m ∧ window (snd (call m fu now)) = window m.
Proof.
  unfold call. destruct fu as [u|]; [|done]. by destruct (rate_limit m <=? _).
Qed.

Lemma feed_params events : ∀ m,
  rate_limit (snd (feed m events)) = rate_limit m ∧ window (snd (feed m events)) = window m.
Proof.
  induction events as [|[u now] events IH]; intros m; simpl; [done|].
  pose proof (call_params m (Some u) now) as [H1 H2].
  destruct (call m (Some u) now) as [v m1]. simpl in *.
  pose proof (IH m1) as [H3 H4].
  destruct (feed m1 events) as [p m2]. simpl in *. split; congruence.
Qed.

(** One call keeps the length of every stored list within the limit. *)
Lemma call_bounded m fu now :
  (∀ v, Z.of_nat (length (stored m v)) ≤ Z.max 0 (rate_limit m)) →
  ∀ v, Z.of_nat (length (stored (snd (call m fu now)) v)) ≤ Z.max 0 (rate_limit m).
Proof.
  intros Hb v. destruct fu as [u|]; [|apply Hb].
  destruct (decide (u = v)) as [<-|Hne]; [|by rewrite stored_call_ne].
  rewrite stored_call_eq, call_verdict.
  pose proof (length_clean m now (stored m u)). pose proof (Hb u).
  destruct (Z.leb_spec (rate_limit m) (Z.of_nat (length (clean m now (stored m u))))).
  - lia.
  - rewrite length_app. simpl. lia.
Qed.

Lemma feed_bounded events : ∀ m,
  (∀ v, Z.of_nat (length (stored m v)) ≤ Z.max 0 (rate_limit m)) →
  ∀ v, Z.of_nat (length (stored (snd (feed m events)) v)) ≤ Z.max 0 (rate_limit m).
Proof.
  induction events as [|[u now] events IH]; intros m Hb v; simpl; [apply Hb|].
  pose proof (call_bounded m (Some u) now Hb) as Hb1.
  pose proof (call_params m (Some u) now) as [H1 _].
  destruct (call m (Some u) now) as [vd m1]. simpl in *.
  rewrite <- H1 in Hb1. specialize (IH m1 Hb1 v). rewrite H1 in IH.
  by destruct (feed m1 events) as [p m2].
Qed.

Lemma stored_init rl wd v : stored (init rl wd) v = [].
Proof. reflexivity. Qed.

(** A timestamp that is at most a window old (and not in the future) is
    kept by the cleaning. *)
Lemma seconds_recent m now t :
  0 ≤ now - t → now - t < window m * 1000000 → (seconds (now - t) <? window m) = true.
Proof.
  intros H0 Hw. apply Z.ltb_lt. unfold seconds.
  assert (0 ≤ (now - t) / 1000000) by (apply Z.div_pos; lia).
  assert ((now - t) / 1000000 < window m) by (apply Z.div_lt_upper_bound; lia).
  pose proof (Z.mod_le ((now - t) / 1000000) 86400). lia.
Qed.

Lemma count_ge_le a l : (count_ge a l ≤ length l)%nat.
Proof. apply List.filter_length_le. Qed.

Lemma count_ge_app a l1 l2 : count_ge a (l1 ++ l2) = (count_ge a l1 + count_ge a l2)%nat.
Proof. unfold count_ge. by rewrite List.filter_app, length_app. Qed.

Lemma count_ge_clean m now a l :
  Forall (fun t => t ≤ now) l → now - a < window m * 1000000 →
  count_ge a (clean m now l) = count_ge a l.
Proof.
  intros Hl Hw. unfold count_ge, clean. induction Hl as [|t l Ht Hl IH]; simpl; [done|].
  destruct (a <=? t) eqn:Ea.
  - assert (a ≤ t) by (by apply Z.leb_le).
    rewrite seconds_recent by lia. simpl. rewrite Ea. simpl. by rewrite IH.
  - destruct (seconds (now - t) <? window m); simpl; [rewrite Ea|]; exact IH.
Qed.

Lemma Forall_clean m now l (P : Z → Prop) : Forall P l → Forall P (clean m now l).
Proof.
  intros H. unfold clean. apply Forall_forall. intros x Hx.
  apply list_elem_of_In, List.filter_In in Hx as [Hx _]. apply list_elem_of_In in Hx.
  rewrite Forall_forall in H. auto.
Qed.

Lemma in_interval_late u a b events : ∀ m t0,
  b < t0 → monotone_from t0 (snd <$> events) = true →
  in_interval u a b (fst (feed m events)) = [].
Proof.
  induction events as [|[v now] events IH]; intros m t0 Hlate Hmono; simpl in *; [done|].
  apply andb_true_iff in Hmono as [H0 Hmono]. apply Z.leb_le in H0.
  destruct (call m (Some v) now) as [vd m1].
  assert (b < now) as Hlate' by lia.
  specialize (IH m1 now Hlate' Hmono).
  destruct (feed m1 events) as [p m2]. simpl in *.
  destruct vd as [[]|]; simpl; try exact IH.
  assert ((now <=? b) = false) as -> by (apply Z.leb_gt; lia).
  rewrite andb_false_r. exact IH.
Qed.

(** The counting argument: what is stored for the user from [a] on, plus
    what passes in [[a, b]], stays within the limit. *)
Lemma feed_window u a b events : ∀ m t0,
  monotone_from t0 (snd <$> events) = true →
  b - a < window m * 1000000 →
  Forall (fun t => t ≤ t0) (stored m u) →
  Z.of_nat (length (stored m u)) ≤ Z.max 0 (rate_limit m) →
  Z.of_nat (count_ge a (stored m u)
            + length (in_interval u a b (fst (feed m events))))
  ≤ Z.max 0 (rate_limit m).
Proof.
  induction events as [|[v now] events IH]; intros m t0 Hmono Hw Hle Hb.
  { simpl. pose proof (count_ge_le a (stored m u)). lia. }
  simpl in Hmono. apply andb_true_iff in Hmono as [H0 Hmono]. apply Z.leb_le in H0.
  destruct (Z.lt_ge_cases b now) as [Hlate|Hin].
  { rewrite (in_interval_late u a b ((v, now) :: events) m now Hlate).
    - simpl. pose proof (count_ge_le a (stored m u)). lia.
    - simpl. rewrite Z.leb_refl. exact Hmono. }
  assert (Forall (fun t => t ≤ now) (stored m u)) as Hle'.
  { eapply Forall_impl; [exact Hle|]. simpl. intros. lia. }
  simpl.
  pose proof (call_params m (Some v) now) as [Hrl Hwd].
  pose proof (stored_call_eq m v now) as Heq.
  pose proof (stored_call_ne m v u now) as Hneq.
  pose proof (call_verdict m v now) as Hv.
  destruct (call m (Some v) now) as [vd m1]. simpl in *.
  specialize (IH m1 now Hmono).
  rewrite Hrl, Hwd in IH.
  destruct (feed m1 events) as [p m2]. simpl in *.
  destruct (decide (v = u)) as [->|Hne].
  - (* the user's own call *)
    pose proof (length_clean m now (stored m u)) as Hlc.
    assert (now - a < window m * 1000000) as Hna by lia.
    pose proof (count_ge_clean m now a (stored m u) Hle' Hna) as Hcc.
    destruct (Z.leb_spec (rate_limit m) (Z.of_nat (length (clean m now (stored m u)))))
      as [Hfull|Hroom]; subst vd.
    + rewrite Heq in IH. rewrite Hcc in IH. apply IH; [done| |lia].
      by apply Forall_clean.
    + rewrite Heq in IH. rewrite count_ge_app, Hcc in IH.
      unfold in_interval at 1. simpl. rewrite Z.eqb_refl. simpl.
      assert ((now <=? b) = true) as -> by (apply Z.leb_le; lia).
      rewrite andb_true_r.
      assert (Z.of_nat (count_ge a (stored m u) + count_ge a [now]
                        + length (in_interval u a b p)) ≤ Z.max 0 (rate_limit m)) as IH'.
      { apply IH; [done| |].
        - apply Forall_app. split; [by apply Forall_clean|].
          apply Forall_singleton. lia.
        - rewrite length_app. simpl. lia. }
      unfold count_ge in IH' at 2. simpl in IH'.
      destruct (a <=? now); simpl in *; fold (in_interval u a b p); lia.
  - (* somebody else's call *)
    rewrite Hneq in IH by done.
    assert (in_interval u a b (match vd with Ok Passed => (v, now) :: p | _ => p end)
            = in_interval u a b p) as ->.
    { destruct vd as [[]|]; try done. unfold in_interval. simpl.
      assert ((v =? u) = false) as -> by (apply Z.eqb_neq; done). done. }
    apply IH; done.
Qed.

Lemma seconds_day_shift d k : seconds (d + k * 86400000000) = seconds d.
Proof.
  unfold seconds.
  replace (d + k * 86400000000) with (d + (k * 86400) * 1000000) by lia.
  rewrite Z.div_add by lia. by rewrite Z.mod_add by lia.
Qed.

Lemma clean_day_shift m now k ts :
  clean m (now + k * 86400000000) ts = clean m now ts.
Proof.
  unfold clean. apply List.filter_ext. intros t.
  replace (now + k * 86400000000 - t) with (now - t + k * 86400000000) by lia.
  by rewrite seconds_day_shift.
Qed.

Lemma seconds_expired m now t :
  window m * 1000000 ≤ now - t < 86400000000 → (seconds (now - t) <? window m) = false.
Proof.
  intros [Hw Hd]. apply Z.ltb_ge. unfold seconds.
  pose proof (Z.mod_pos_bound ((now - t) / 1000000) 86400 ltac:(lia)) as Hm.
  destruct (Z.le_gt_cases (window m) 0) as [Hneg|Hpos]; [lia|].
  assert (window m ≤ (now - t) / 1000000) by (apply Z.div_le_lower_bound; lia).
  assert ((now - t) / 1000000 < 86400) by (apply Z.div_lt_upper_bound; lia).
  rewrite Z.mod_small by lia. lia.
Qed.

Lemma clean_expired m now ts :
  (∀ t, t ∈ ts → window m * 1000000 ≤ now - t < 86400000000) → clean m now ts = [].
Proof.
  unfold clean. induction ts as [|t ts IH]; intros H; simpl; [done|].
  rewrite seconds_expired by (apply H, list_elem_of_here).
  apply IH. intros t' Ht'. apply H. by apply list_elem_of_further.
Qed.

End RateLimitFacts.

(** X6: starting from a fresh middleware, after any sequence of calls
    (whatever the clock readings) the list stored for any user holds at most
    [rate_limit] timestamps (none when [rate_limit] is negative). *)
Theorem rate_limit_store_bounded rl wd events user_id :
  (Z.of_nat (length (RateLimit.stored (snd (RateLimit.feed (RateLimit.init rl wd) events))
                                      user_id))
   ≤ Z.max 0 rl)%Z.
Proof.
  apply (RateLimitFacts.feed_bounded events (RateLimit.init rl wd)).
  intros v. rewrite RateLimitFacts.stored_init. simpl. lia.
Qed.

(** X7: starting from a fresh middleware and with clock readings that never
    go back, among the calls of one user whose readings lie in an interval
    shorter than [window] seconds, at most [rate_limit] reach the handler. *)
Theorem rate_limit_window_guarantee rl wd events user_id a b :
  RateLimit.nondecreasing (snd <$> events) = true →
  (b - a < wd * 1000000)%Z →
  (Z.of_nat (length (RateLimit.in_interval user_id a b
                       (fst (RateLimit.feed (RateLimit.init rl wd) events))))
   ≤ Z.max 0 rl)%Z.
Proof.
  intros Hmono Hw. destruct events as [|[v now] events]; [simpl; lia|].
  pose proof (RateLimitFacts.feed_window user_id a b ((v, now) :: events)
                (RateLimit.init rl wd) now) as H.
  rewrite RateLimitFacts.stored_init in H. simpl in H. simpl.
  apply H; [|done|constructor|lia].
  simpl in Hmono. rewrite Z.leb_refl. exact Hmono.
Qed.

Lemma rate_limit_window_guarantee_witness :
  let events := [(7, 0); (7, 1000000); (8, 1500000); (7, 2000000); (7, 3000000);
                 (7, 12000000)]%Z in
  (Z.of_nat (length (RateLimit.in_interval 7 0 9999999
                       (fst (RateLimit.feed (RateLimit.init 3 10) events)))) ≤ Z.max 0 3)%Z
  ∧ fst (RateLimit.feed (RateLimit.init 3 10) events)
    = [(7, 0); (7, 1000000); (8, 1500000); (7, 2000000); (7, 12000000)]%Z.
Proof.
  intros events. split.
  - apply (rate_limit_window_guarantee 3 10 events 7 0 9999999).
    + vm_compute. reflexivity.
    + lia.
  - vm_compute. reflexivity.
Defined.

(** X8: the cleaning looks at the seconds component of an age only, so the
    branch that a call takes and the timestamps it keeps are the same when
    the clock reading is moved by any whole number of days: timestamps older
    than a day are not forgotten, their age wraps around. *)
Theorem rate_limit_ignores_whole_days m from_user now k :
  fst (RateLimit.call m from_user (now + k * 86400000000)%Z)
  = fst (RateLimit.call m from_user now)
  ∧ ∀ ts, RateLimit.clean m (now + k * 86400000000)%Z ts = RateLimit.clean m now ts.
Proof.
  split; [|intros ts; apply RateLimitFacts.clean_day_shift].
  destruct from_user as [u|]; [|reflexivity].
  rewrite !RateLimitFacts.call_verdict. by rewrite RateLimitFacts.clean_day_shift.
Qed.

(** The quota filled within four seconds still blocks the user one day and
    five seconds later. *)
Example rate_limit_day_later :
  let m := snd (RateLimit.feed (RateLimit.init 5 10)
                  [(7, 0); (7, 1000000); (7, 2000000); (7, 3000000); (7, 4000000)]%Z) in
  fst (RateLimit.call m (Some 7%Z) (86400000000 + 5000000)%Z) = Ok RateLimit.Limited.
Proof. vm_compute. reflexivity. Qed.

(** X9: with a positive limit, a call whose clock reading is at least
    [window] seconds and less than a day after every timestamp stored for
    the user reaches the handler, and the stored list becomes that reading
    alone. *)
Theorem rate_limit_recovers m user_id now :
  (0 < RateLimit.rate_limit m)%Z →
  (∀ t, t ∈ RateLimit.stored m user_id →
        (RateLimit.window m * 1000000 ≤ now - t < 86400000000)%Z) →
  fst (RateLimit.call m (Some user_id) now) = Ok RateLimit.Passed
  ∧ RateLimit.stored (snd (RateLimit.call m (Some user_id) now)) user_id = [now].
Proof.
  intros Hrl Hold.
  pose proof (RateLimitFacts.clean_expired m now _ Hold) as Hc.
  assert (fst (RateLimit.call m (Some user_id) now) = Ok RateLimit.Passed) as Hv.
  { rewrite RateLimitFacts.call_verdict, Hc. simpl.
    destruct (Z.leb_spec (RateLimit.rate_limit m) (Z.of_nat 0)); [lia|done]. }
  split; [exact Hv|].
  by rewrite RateLimitFacts.stored_call_eq, Hv, Hc.
Qed.

Lemma rate_limit_recovers_witness :
  let m := snd (RateLimit.feed (RateLimit.init 2 10) [(7, 0); (7, 1000000); (7, 2000000)]%Z) in
  RateLimit.stored m 7%Z = [0; 1000000]%Z
  ∧ fst (RateLimit.call m (Some 7%Z) 5000000%Z) = Ok RateLimit.Limited
  ∧ fst (RateLimit.call m (Some 7%Z) 11000000%Z) = Ok RateLimit.Passed
  ∧ RateLimit.stored (snd (RateLimit.call m (Some 7%Z) 11000000%Z)) 7%Z = [11000000%Z].
Proof.
  intros m.
  assert (RateLimit.stored m 7%Z = [0; 1000000]%Z) as Hs by (vm_compute; reflexivity).
  assert (fst (RateLimit.call m (Some 7%Z) 5000000%Z) = Ok RateLimit.Limited) as Hl
    by (vm_compute; reflexivity).
  assert (RateLimit.rate_limit m = 2%Z ∧ RateLimit.window m = 10%Z) as [Hrl Hwd]
    by (split; vm_compute; reflexivity).
  clearbody m.
  destruct (rate_limit_recovers m 7%Z 11000000%Z) as [H1 H2].
  - rewrite Hrl. lia.
  - intros t. rewrite Hs, Hwd. intros Ht.
    apply elem_of_cons in Ht as [->|Ht]; [lia|].
    apply list_elem_of_singleton in Ht as ->. lia.
  - by split_and!.
Defined.

(** ** [on_startup] *)

(** [load_bots] is the run of its registrations, and never raises. *)
Lemma load_bots_run host rows :
  ∀ w, load_bots host rows w = (Ok tt, run host w (load_ops rows)).
Proof.
  induction rows as [|[bot_data o] rows IH]; intros w; [reflexivity|].
  unfold load_bots. simpl. cbv beta delta [bind try_except] iota.
  destruct (register_returns host (row_token bot_data) (row_name bot_data) None
              (row_code_path bot_data) false o w) as (ok & msg & Hret).
  destruct (register host (row_token bot_data) (row_name bot_data) None
              (row_code_path bot_data) false o w) as [[r|e] w1] eqn:Hreg;
    simpl in Hret; [|discriminate Hret].
  cbv beta delta [ret] iota. apply IH.
Qed.

Lemma reachable_run host w ops : reachable host w → reachable host (run host w ops).
Proof.
  intros (fs0 & ops0 & ->). exists fs0, (ops0 ++ ops)%list.
  unfold run. by rewrite fold_left_app.
Qed.

Lemma no_site_same_bots w w' : bots w' = bots w → no_site w → no_site w'.
Proof. unfold no_site, lookup_bot. by intros ->. Qed.

Lemma no_site_register_bot host token name cc cp o w :
  no_site w → no_site (snd (register host token name cc cp false o w)).
Proof.
  intros Hns.
  destruct (register host token name cc cp false o w) as [[[[] msg]|e] w'] eqn:Hreg; simpl.
  - apply register_success in Hreg as (entry & rt & w1 & coop & _ & Hst & _ & _ & ->).
    pose proof (FsOnly_stage host token cc cp w) as Hfs. rewrite Hst in Hfs. simpl in Hfs.
    intros t r Hr. destruct (decide (token = t)) as [<-|Hne].
    + rewrite lookup_bot_launched_eq in Hr. injection Hr as <-.
      unfold is_site_record. by rewrite mk_record_type.
    + rewrite lookup_bot_launched_ne in Hr by done.
      apply (Hns t r). unfold lookup_bot in *. by rewrite <- (only_fs_bots _ _ Hfs).
  - apply register_failure in Hreg.
    eapply no_site_same_bots; [|exact Hns]. by apply only_fs_bots.
  - destruct (register_returns host token name cc cp false o w) as (? & ? & H).
    rewrite Hreg in H. discriminate H.
Qed.

Lemma no_site_load_ops host rows :
  ∀ w, no_site w → no_site (run host w (load_ops rows)).
Proof.
  induction rows as [|[bot_data o] rows IH]; intros w Hns; [done|].
  simpl. apply IH. by apply no_site_register_bot.
Qed.

(** Without a Site record the router has nothing to forward to. *)
Lemma no_site_proxy host net w req :
  reachable host w → no_site w → site_proxy net w req = Ok site_not_found.
Proof.
  intros Hreach Hns. unfold site_proxy.
  destruct (find_target (match_token req) (Dict.values (bots w))) as [b|] eqn:Hb; [|done].
  destruct (resolve_live host w _ b Hreach Hb) as (t & Ht & _).
  destruct (inv_records w (reachable_inv _ _ Hreach) t b Ht)
    as (name & u & pid & port & s & -> & _ & Hp).
  destruct s.
  - exfalso. apply (Hns t _ Ht). unfold is_site_record. by rewrite mk_record_type.
  - subst port. rewrite mk_record_port. simpl. by rewrite orb_true_r.
Qed.

(** X10: [load_bots] registers every row as a bot, never as a site.  From a
    reachable state without Site record (the empty registry of a start, in
    particular) it returns normally in a reachable state where every record
    is of type [bot] without port, so that every request to
    [/site/{identity}/{path}] is answered 404 "Site Not Found", whatever the
    database held. *)
Theorem startup_restores_no_site host rows w :
  reachable host w → no_site w →
  ∃ w', load_bots host rows w = (Ok tt, w')
    ∧ reachable host w'
    ∧ (∀ t r, lookup_bot w' t = Some r →
              r !! "type" = Some (VStr "bot") ∧ port_of r = Some VNone)
    ∧ ∀ net req, site_proxy net w' req = Ok site_not_found.
Proof.
  intros Hreach Hns. exists (run host w (load_ops rows)).
  pose proof (reachable_run host w (load_ops rows) Hreach) as Hreach'.
  pose proof (no_site_load_ops host rows w Hns) as Hns'.
  split; [apply load_bots_run|]. split; [exact Hreach'|]. split.
  - intros t r Hr.
    destruct (inv_records _ (reachable_inv _ _ Hreach') t r Hr)
      as (name & u & pid & port & s & -> & _ & Hp).
    destruct s.
    + exfalso. apply (Hns' t _ Hr). unfold is_site_record. by rewrite mk_record_type.
    + subst port. split; [apply mk_record_type | apply mk_record_port].
  - intros net req. by apply (no_site_proxy host).
Qed.

Lemma startup_restores_no_site_witness :
  let rows :=
    [ (BotRow "123:abc" "UserApp" "demo_bot" None, fine);
      (BotRow "siteA" "UserApp" "website" None,
       Oracle (Some (TokenValidationError "Token is invalid!")) None (Spawned true));
      (BotRow "siteB" "UserApp" "website" None, fine) ] in
  ∃ w', load_bots demo_host rows (init_world []) = (Ok tt, w')
    ∧ Dict.keys (bots w') = ["123:abc"; "siteB"]
    ∧ site_proxy demo_net w' (Request "siteB" "ping" "" "GET" [] "") = Ok site_not_found.
Proof.
  intros rows.
  assert (reachable demo_host (init_world [])) as Hreach by (by exists [], []).
  assert (no_site (init_world [])) as Hns by (intros t r Hr; discriminate Hr).
  destruct (startup_restores_no_site demo_host rows (init_world []) Hreach Hns)
    as (w' & Hl & _ & _ & Hproxy).
  exists w'. split; [exact Hl|]. split; [|apply Hproxy].
  assert (fst (load_bots demo_host rows (init_world [])) = Ok tt
          ∧ Dict.keys (bots (snd (load_bots demo_host rows (init_world []))))
            = ["123:abc"; "siteB"]) as [_ Hk] by (split; vm_compute; reflexivity).
  rewrite Hl in Hk. exact Hk.
Defined.

(** The state after a staging whose directories exist. *)
Lemma stage_default_written host token cp w text :
  Str.truthy cp = false →
  is_dir w (abspath host "hosted_apps") →
  is_dir w (target_dir_of host token) →
  Dict.get (path_join (target_dir_of host token) "main.py") (fs w) = Some (File text) →
  ∃ staged w1,
    stage host token None cp w = (Ok staged, w1)
    ∧ Dict.get (path_join (target_dir_of host token) "main.py") (fs w1)
      = Some (File (DEFAULT_SERVICE_CODE host)).
Proof.
  intros Hcp Hd1 Hd2 Hf.
  rewrite (stage_default host token None cp w eq_refl Hcp).
  destruct (stage host token (Some (DEFAULT_SERVICE_CODE host)) None w)
    as [[staged|e] w1] eqn:Hst.
  - exists staged, w1. split; [reflexivity|].
    eapply stage_inline_written; [|exact Hst]. discriminate.
  - exfalso. rewrite stage_inline in Hst by discriminate.
    unfold is_dir in Hd1, Hd2.
    unfold bind at 1 in Hst. unfold makedirs at 1 in Hst. rewrite Hd1 in Hst.
    unfold bind at 1 in Hst. unfold makedirs at 1 in Hst. rewrite Hd2 in Hst.
    unfold bind at 1 in Hst. unfold write_text, write_node in Hst.
    rewrite Hf in Hst. discriminate Hst.
Qed.

(** X11: a row whose [code_path] is [NULL] is registered without payload,
    so its staging writes [DEFAULT_SERVICE_CODE]: when the token check
    passes and the working directory holds the [main.py] of an earlier
    deployment, that file holds the default service code after [load_bots],
    whatever it held before. *)
Theorem startup_replaces_inline_code host bot_data o w text u :
  Str.truthy (row_code_path bot_data) = false →
  check_token false o = TokenOk u →
  let entry := path_join (target_dir_of host (row_token bot_data)) "main.py" in
  is_dir w (abspath host "hosted_apps") →
  is_dir w (target_dir_of host (row_token bot_data)) →
  Dict.get entry (fs w) = Some (File text) →
  Dict.get entry (fs (snd (load_bots host [(bot_data, o)] w)))
  = Some (File (DEFAULT_SERVICE_CODE host)).
Proof.
  intros Hcp Hc entry Hd1 Hd2 Hf.
  rewrite load_bots_run. simpl.
  destruct (stage_default_written host (row_token bot_data) (row_code_path bot_data) w text
              Hcp Hd1 Hd2 Hf) as (staged & w1 & Hst & Hw).
  fold entry in Hw.
  destruct (register_cases host (row_token bot_data) (row_name bot_data) None
              (row_code_path bot_data) false o w)
    as [Hk|e Hk|u' e w1' Hk Hst'|u' staged' w1' Hk Hst' Hn|u' staged' w1' e Hk Hst' Hn Hs
        |u' entry' rt w1' coop Hk Hst' Hne Hs]; simpl;
    try congruence;
    rewrite Hst in Hst'; injection Hst' as _ <-; try exact Hw.
Qed.

Lemma startup_replaces_inline_code_witness :
  let w := run demo_host (init_world [])
             [Upload (Some "123:abc") (Message None (Some "print(1)")) fine] in
  let row := BotRow "123:abc" "UserApp" "demo_bot" None in
  Dict.get (path_join (target_dir_of demo_host "123:abc") "main.py") (fs w)
  = Some (File "print(1)")
  ∧ Dict.get (path_join (target_dir_of demo_host "123:abc") "main.py")
      (fs (snd (load_bots demo_host [(row, fine)] w)))
    = Some (File (DEFAULT_SERVICE_CODE demo_host)).
Proof.
  intros w row.
  assert (Dict.get (path_join (target_dir_of demo_host "123:abc") "main.py") (fs w)
          = Some (File "print(1)")) as Hf by (vm_compute; reflexivity).
  assert (is_dir w (abspath demo_host "hosted_apps")) as Hd1 by (vm_compute; reflexivity).
  assert (is_dir w (target_dir_of demo_host "123:abc")) as Hd2 by (vm_compute; reflexivity).
  clearbody w.
  split; [exact Hf|].
  exact (startup_replaces_inline_code demo_host row fine w "print(1)" "demo_bot"
           eq_refl eq_refl Hd1 Hd2 Hf).
Defined.

(** ** [I18n] *)

Module I18nFacts.
Import I18n.

(** The table that [get] reads for a language: the Arabic one for ["ar"],
    the English one for everything else. *)
Lemma table_en l :
  l ≠ "ar" → Dict.get (if Dict.mem l strings then l else "en") strings = Some en.
Proof.
  intros Hl. unfold Dict.mem, strings. cbn [Dict.get].
  destruct (String.eqb l "en") eqn:E1.
  - by rewrite E1.
  - destruct (String.eqb l "ar") eqn:E2.
    + apply String.eqb_eq in E2. contradiction.
    + reflexivity.
Qed.

Lemma table_ar : Dict.get (if Dict.mem "ar" strings then "ar" else "en") strings = Some ar.
Proof. reflexivity. Qed.

Lemma get_other_lang key lang kwargs :
  lang ≠ Some "ar" → get key lang kwargs = get key (Some "en") kwargs.
Proof.
  intros Hl. destruct lang as [l|]; [|reflexivity].
  unfold get. cbv zeta.
  rewrite (table_en l) by congruence. rewrite (table_en "en") by discriminate.
  reflexivity.
Qed.

Lemma get_en key :
  get key (Some "en") []
  = Some (inr (match Dict.get key en with Some v => v | None => Txt key end)).
Proof.
  unfold get. cbv zeta. rewrite (table_en "en") by discriminate.
  change (Dict.get "en" strings) with (Some en). cbn [default from_option id].
  destruct (Dict.get key en); reflexivity.
Qed.

Lemma get_ar key :
  get key (Some "ar") []
  = Some (inr (match Dict.get key ar with
               | Some v => v
               | None => match Dict.get key en with Some v => v | None => Txt key end
               end)).
Proof.
  unfold get. cbv zeta. rewrite table_ar.
  change (Dict.get "en" strings) with (Some en). cbn [default from_option id].
  reflexivity.
Qed.

(** Without keyword arguments [get] returns the entry of the language, else
    the English entry, else the key itself. *)
Lemma get_plain key lang :
  get key lang []
  = Some (inr (match Dict.get key (if bool_decide (lang = Some "ar") then ar else en) with
               | Some v => v
               | None => match Dict.get key en with Some v => v | None => Txt key end
               end)).
Proof.
  case_bool_decide as E.
  - subst lang. apply get_ar.
  - rewrite get_other_lang by exact E. rewrite get_en.
    destruct (Dict.get key en); reflexivity.
Qed.

Lemma admin_text_other_lang lang st :
  lang ≠ Some "ar" → admin_text lang st = admin_text (Some "en") st.
Proof.
  intros E. unfold admin_text.
  rewrite (get_other_lang "admin_panel_msg" lang _ E).
  rewrite (get_other_lang "total_users" lang _ E).
  rewrite (get_other_lang "total_bots" lang _ E).
  rewrite (get_other_lang "total_updates" lang _ E).
  rewrite (get_other_lang "total_messages" lang _ E).
  destruct (top_bot st) as [[name updates]|]; [|reflexivity].
  rewrite (get_other_lang "top_bot" lang _ E). reflexivity.
Qed.

Lemma in_dict_get {V} (d : list (string * V)) (P : string → V → bool) key v :
  forallb (fun kv => P (fst kv) (snd kv)) d = true →
  Dict.get key d = Some v → P key v = true.
Proof.
  intros Hall Hget. apply get_Some_elem in Hget.
  rewrite forallb_forall in Hall. apply list_elem_of_In in Hget.
  exact (Hall _ Hget).
Qed.

End I18nFacts.

(** X12: every key of the English table has an entry of the same kind in
    the Arabic table, so for [lang = 'ar'] and a key that the English table
    defines, [get] returns the Arabic entry and never falls back; for a key
    that neither table defines, [get] without keyword arguments returns the
    key itself, in every language. *)
Theorem i18n_arabic_covers_english key :
  (∀ v, Dict.get key I18n.en = Some v →
        ∃ v', Dict.get key I18n.ar = Some v'
              ∧ I18n.get key (Some "ar") [] = Some (inr v')
              ∧ match v, v' with
                | I18n.Txt _, I18n.Txt _ | I18n.Sub _, I18n.Sub _ => True
                | _, _ => False
                end)
  ∧ (Dict.get key I18n.en = None → Dict.get key I18n.ar = None →
     ∀ lang, I18n.get key lang [] = Some (inr (I18n.Txt key))).
Proof.
  split.
  - intros v Hv.
    pose proof (I18nFacts.in_dict_get I18n.en
      (fun k v => match Dict.get k I18n.ar, v with
                  | Some (I18n.Txt _), I18n.Txt _ | Some (I18n.Sub _), I18n.Sub _ => true
                  | _, _ => false
                  end) key v) as H.
    cbv beta in H. specialize (H ltac:(vm_compute; reflexivity) Hv).
    destruct (Dict.get key I18n.ar) as [v'|] eqn:Hv'; [|discriminate H].
    exists v'. split; [reflexivity|]. split.
    + rewrite I18nFacts.get_ar. rewrite Hv'. reflexivity.
    + destruct v', v; first [exact I | discriminate H].
  - intros Hen Har lang. rewrite I18nFacts.get_plain.
    case_bool_decide; rewrite ?Har, Hen; reflexivity.
Qed.

Lemma i18n_arabic_covers_english_witness :
  I18n.get "refresh" (Some "ar") [] = Some (inr (I18n.Txt "🔄 تحديث"))
  ∧ I18n.get "broadcast" (Some "fr") [] = Some (inr (I18n.Txt "broadcast")).
Proof.
  destruct (i18n_arabic_covers_english "refresh") as [H1 _].
  destruct (i18n_arabic_covers_english "broadcast") as [_ H2].
  destruct (H1 _ eq_refl) as (v' & Hv' & Hg & _).
  split.
  - rewrite Hg. f_equal. f_equal. vm_compute in Hv'. by injection Hv' as <-.
  - apply H2; reflexivity.
Defined.

(** X13: the descriptions that [setup_bot_commands] sends for the command
    menu are the dotted keys themselves ([commands.start] and so on): [get]
    looks a key up at the top level of a table only, so it never reaches the
    descriptions stored under [commands]. *)
Theorem setup_bot_commands_sends_raw_keys command description :
  (command, description) ∈ I18n.commands_en →
  description = Some (inr (I18n.Txt ("commands." ++ command)))
  ∧ ∃ nested, Dict.get "commands" I18n.en = Some (I18n.Sub nested)
              ∧ ∃ d, Dict.get command nested = Some d
                     ∧ description ≠ Some (inr (I18n.Txt d)).
Proof.
  intros Hin. unfold I18n.commands_en in Hin.
  repeat (apply elem_of_cons in Hin as [[= -> ->]|Hin];
          [split; [vm_compute; reflexivity|];
           eexists; split; [vm_compute; reflexivity|];
           eexists; split; [vm_compute; reflexivity|]; vm_compute; discriminate|]).
  by apply elem_of_nil in Hin.
Qed.

Lemma setup_bot_commands_sends_raw_keys_witness :
  I18n.get "commands.start" (Some "en") [] = Some (inr (I18n.Txt "commands.start")).
Proof.
  apply (setup_bot_commands_sends_raw_keys "start").
  unfold I18n.commands_en. apply list_elem_of_here.
Defined.

(** X14: the text of the administrator panel does not depend on the
    statistics: after the header of the language come the four keys
    [total_users], [total_bots], [total_updates] and [total_messages] as they
    are, since no table defines them, and [top_bot] when there is a top
    bot; no count appears in it. *)
Theorem cmd_admin_text_shows_no_count lang st :
  let header := if bool_decide (lang = Some "ar")
                then "👑 <b>لوحة التحكم</b>" else "admin_panel_msg" in
  I18n.admin_text lang st
  = Some (inr (I18n.Txt
      (header ++ I18n.nl ++ I18n.nl
       ++ "total_users" ++ I18n.nl ++ "total_bots" ++ I18n.nl
       ++ "total_updates" ++ I18n.nl ++ "total_messages" ++ I18n.nl
       ++ match I18n.top_bot st with
          | Some _ => I18n.nl ++ "top_bot"
          | None => ""
          end))).
Proof.
  intros header. subst header. case_bool_decide as E.
  - subst lang. destruct st as [a b c d [[n u]|]]; vm_compute; reflexivity.
  - rewrite (I18nFacts.admin_text_other_lang lang st E).
    destruct st as [a b c d [[n u]|]]; vm_compute; reflexivity.
Qed.

(** ** [I18n.get_keyboard] *)

Lemma build_row_plain row lang :
  (∀ b, b ∈ row → ∃ key, b = Keyboard.Key key ∧ key ≠ "commands") →
  ∃ labels, Keyboard.build_row row lang = inr labels
            ∧ length labels = length row
            ∧ ∀ i key, row !! i = Some (Keyboard.Key key) →
                       I18n.get key lang [] = Some (inr (I18n.Txt (default "" (labels !! i)))).
Proof.
  induction row as [|b row IH]; intros Hp.
  { exists []. split_and!; [done..|]. intros i key H. by rewrite lookup_nil in H. }
  destruct (Hp b (list_elem_of_here _ _)) as (key & -> & Hkey).
  destruct IH as (labels & Hb & Hlen & Hget).
  { intros b Hin. apply Hp. by apply list_elem_of_further. }
  assert (∃ label, I18n.get key lang [] = Some (inr (I18n.Txt label))) as [label Hl].
  { rewrite I18nFacts.get_plain.
    assert (∀ d : list (string * I18n.value),
              forallb (fun kv => match snd kv with
                                 | I18n.Txt _ => true
                                 | I18n.Sub _ => String.eqb (fst kv) "commands"
                                 end) d = true →
              ∀ v, Dict.get key d = Some v → ∃ l, v = I18n.Txt l) as Htxt.
    { intros d Hall v Hv.
      pose proof (I18nFacts.in_dict_get d
        (fun k v => match v with I18n.Txt _ => true | I18n.Sub _ => String.eqb k "commands" end)
        key v Hall Hv) as H.
      destruct v as [l|sub]; [by exists l|]. apply String.eqb_eq in H. done. }
    assert (∀ v, Dict.get key I18n.en = Some v → ∃ l, v = I18n.Txt l) as Hen
      by (apply Htxt; vm_compute; reflexivity).
    assert (∀ v, Dict.get key I18n.ar = Some v → ∃ l, v = I18n.Txt l) as Har
      by (apply Htxt; vm_compute; reflexivity).
    case_bool_decide.
    - destruct (Dict.get key I18n.ar) as [v|] eqn:E1.
      + destruct (Har v eq_refl) as [l ->]. by exists l.
      + destruct (Dict.get key I18n.en) as [v|] eqn:E2.
        * destruct (Hen v eq_refl) as [l ->]. by exists l.
        * by exists key.
    - destruct (Dict.get key I18n.en) as [v|] eqn:E2.
      + destruct (Hen v eq_refl) as [l ->]. by exists l.
      + by exists key. }
  exists (label :: labels). cbn [Keyboard.build_row]. rewrite Hl, Hb.
  split; [reflexivity|]. split; [cbn [length]; by rewrite Hlen|].
  intros [|i] k Hi.
  - cbn [lookup list_lookup] in Hi. injection Hi as <-. exact Hl.
  - apply (Hget i k). exact Hi.
Qed.

(** X15: for buttons given by their keys (none of them [commands]),
    [get_keyboard] returns a keyboard of the same shape whose labels are the
    translations of the keys; a dictionary button raises
    [NameError('InlineKeyboardButton')], because the module never binds that
    name. *)
Theorem get_keyboard_shape buttons lang :
  (Keyboard.plain buttons →
   ∃ rows, Keyboard.get_keyboard buttons lang = inr rows
           ∧ length rows = length buttons
           ∧ ∀ i j row key,
               buttons !! i = Some row → row !! j = Some (Keyboard.Key key) →
               ∃ labels, rows !! i = Some labels ∧ length labels = length row
                         ∧ I18n.get key lang []
                           = Some (inr (I18n.Txt (default "" (labels !! j)))))
  ∧ (∀ t c rest more,
       buttons = (Keyboard.Inline t c :: rest) :: more →
       Keyboard.get_keyboard buttons lang = inl (Keyboard.NameError "InlineKeyboardButton")).
Proof.
  split.
  - induction buttons as [|row buttons IH]; intros Hp.
    { exists []. split_and!; [done..|]. intros i j row key H. by rewrite lookup_nil in H. }
    destruct (build_row_plain row lang) as (labels & Hb & Hlen & Hget).
    { intros b Hin. apply (Hp row b); [apply list_elem_of_here | done]. }
    destruct IH as (rows & Hk & Hlen' & Hget').
    { intros r b Hr Hin. apply (Hp r b); [by apply list_elem_of_further | done]. }
    exists (labels :: rows). cbn [Keyboard.get_keyboard]. rewrite Hb, Hk.
    split; [reflexivity|]. split; [cbn [length]; by rewrite Hlen'|].
    intros [|i] j r key Hi Hj.
    + cbn [lookup list_lookup] in Hi. injection Hi as <-.
      exists labels. split; [reflexivity|]. split; [exact Hlen|]. by apply Hget.
    + exact (Hget' i j r key Hi Hj).
  - intros t c rest more ->. reflexivity.
Qed.

Lemma get_keyboard_shape_witness :
  Keyboard.get_keyboard [[Keyboard.Key "broadcast"; Keyboard.Key "refresh"];
                         [Keyboard.Key "back"]] (Some "en")
  = inr [["broadcast"; "🔄 Refresh"]; ["🔙 Back"]].
Proof.
  destruct (get_keyboard_shape [[Keyboard.Key "broadcast"; Keyboard.Key "refresh"];
                                [Keyboard.Key "back"]] (Some "en")) as [H _].
  destruct H as (rows & Hk & _).
  - intros row b Hrow Hb.
    repeat (apply elem_of_cons in Hrow as [->|Hrow];
            [repeat (apply elem_of_cons in Hb as [->|Hb]; [by eexists|]);
             by apply elem_of_nil in Hb|]).
    by apply elem_of_nil in Hrow.
  - rewrite Hk. revert Hk. vm_compute. by intros [= <-].
Defined.

(** ** [cleanup_task] *)

Lemma until_slash_no_slash s : Str.contains "/" (Str.until_slash s) = false.
Proof.
  induction s as [|a s IH]; simpl; [done|].
  destruct (Ascii.eqb a "/") eqn:E; simpl; [done|]. by rewrite E.
Qed.

Lemma child_of_no_slash d p f : child_of d p = Some f → Str.contains "/" f = false.
Proof.
  unfold child_of. destruct (Str.strip_prefix (d ++ "/") p) as [rest|]; [|done].
  destruct (String.eqb rest ""); [done|]. intros [= <-]. apply until_slash_no_slash.
Qed.

Lemma listing_no_slash d w f : f ∈ listing d w → Str.contains "/" f = false.
Proof.
  unfold listing. rewrite elem_of_remove_dups, list_elem_of_omap.
  intros (p & _ & Hp). by eapply child_of_no_slash.
Qed.

Lemma listing_nil d w : has_below w d = false → listing d w = [].
Proof.
  unfold has_below, listing. intros H.
  assert (omap (child_of d) (Dict.keys (fs w)) = []) as ->; [|done].
  induction (Dict.keys (fs w)) as [|q l IH]; simpl in *; [done|].
  apply orb_false_iff in H as [Hq Hl].
  apply bool_decide_eq_false in Hq.
  destruct (child_of d q); [exfalso; apply Hq; by eexists|]. auto.
Qed.

(** The path that the loop removes for a listed name. *)
Lemma logs_path host f :
  Str.contains "/" f = false →
  abspath host (path_join "logs" f) = (abspath host "logs" ++ "/" ++ f)%string.
Proof.
  intros Hf.
  assert (path_join "logs" f = ("logs" ++ "/" ++ f)%string) as ->.
  { unfold path_join. destruct f as [|a f]; [reflexivity|].
    simpl in Hf. destruct (Ascii.eqb a "/") eqn:E; [done|].
    destruct a as [[] [] [] [] [] [] [] []]; try reflexivity. discriminate E. }
  unfold abspath, path_join. cbn [append]. cbv beta iota.
  destruct (_ || _); by rewrite ?append_assoc'.
Qed.

Lemma get_del_Some {V} (k q : string) (d : list (string * V)) v :
  NoDup (Dict.keys d) → Dict.get q (Dict.del k d) = Some v → Dict.get q d = Some v ∧ q ≠ k.
Proof.
  intros Hnd H. destruct (decide (k = q)) as [->|Hne].
  - rewrite get_del_eq in H by done. discriminate H.
  - rewrite get_del_ne in H by done. split; [done|congruence].
Qed.

(** What [os.remove] does, in a file system without duplicate entries. *)
Lemma os_remove_spec p w :
  NoDup (Dict.keys (fs w)) →
  ∃ r w', os_remove p w = (r, w')
    ∧ only_fs w w'
    ∧ NoDup (Dict.keys (fs w'))
    ∧ (regular w p → Dict.get p (fs w') = None)
    ∧ (∀ q, Dict.get q (fs w') = Dict.get q (fs w)
            ∨ (Dict.get q (fs w') = None ∧ q = p ∧ regular w p)).
Proof.
  intros Hnd. unfold os_remove, regular.
  destruct (Dict.get p (fs w)) as [n|] eqn:E.
  - destruct n as [|c|ms].
    + eexists _, w. split_and!; [done | apply only_fs_refl | done | | by left].
      intros (n & [= <-] & Hn). done.
    + eexists _, _. split_and!; [done | apply only_fs_set | by apply NoDup_keys_del | |].
      * intros _. simpl. by apply get_del_eq.
      * intros q. simpl. destruct (decide (p = q)) as [<-|Hne].
        -- right. split_and!; [by apply get_del_eq | done | by eexists].
        -- left. by apply get_del_ne.
    + eexists _, _. split_and!; [done | apply only_fs_set | by apply NoDup_keys_del | |].
      * intros _. simpl. by apply get_del_eq.
      * intros q. simpl. destruct (decide (p = q)) as [<-|Hne].
        -- right. split_and!; [by apply get_del_eq | done | by eexists].
        -- left. by apply get_del_ne.
  - destruct (has_below w p); eexists _, w;
      (split_and!; [done | apply only_fs_refl | done | | by left]);
      intros (n & Hn & _); done.
Qed.

Section CleanLogs.
Variable host : Host.

(** The names of the list for which the loop removes [q] from [w]. *)
Let hit (names : list string) (w : world) (q : string) : Prop :=
  ∃ f, f ∈ names ∧ f ≠ "main_bot.log"
       ∧ q = abspath host (path_join "logs" f) ∧ regular w q.

Lemma clean_logs_spec names :
  ∀ w, NoDup (Dict.keys (fs w)) →
  ∃ w', clean_logs host names w = (Ok tt, w')
    ∧ only_fs w w'
    ∧ NoDup (Dict.keys (fs w'))
    ∧ (∀ q, hit names w q → Dict.get q (fs w') = None)
    ∧ (∀ q, Dict.get q (fs w') = Dict.get q (fs w)
            ∨ (Dict.get q (fs w') = None ∧ hit names w q)).
Proof.
  induction names as [|f names IH]; intros w Hnd.
  { exists w. split_and!; [done | apply only_fs_refl | done | | by left].
    intros q (f & Hf & _). by apply elem_of_nil in Hf. }
  unfold clean_logs. cbn [for_each]. fold (clean_logs host names).
  cbv beta delta [bind] iota.
  (* the first name *)
  assert (∃ w1, (if negb (String.eqb f "main_bot.log")
                 then try_except (os_remove (abspath host (path_join "logs" f)))
                        (fun _ => ret tt)
                 else ret tt) w = (Ok tt, w1)
                ∧ only_fs w w1
                ∧ NoDup (Dict.keys (fs w1))
                ∧ (f ≠ "main_bot.log" → regular w (abspath host (path_join "logs" f)) →
                   Dict.get (abspath host (path_join "logs" f)) (fs w1) = None)
                ∧ (∀ q, Dict.get q (fs w1) = Dict.get q (fs w)
                        ∨ (Dict.get q (fs w1) = None ∧ f ≠ "main_bot.log"
                           ∧ q = abspath host (path_join "logs" f) ∧ regular w q)))
    as (w1 & Hstep & Hfs1 & Hnd1 & Hrm1 & Hq1).
  { destruct (String.eqb f "main_bot.log") eqn:E; cbn [negb].
    - apply String.eqb_eq in E. exists w.
      split_and!; [done | apply only_fs_refl | done | done | by left].
    - apply String.eqb_neq in E.
      destruct (os_remove_spec (abspath host (path_join "logs" f)) w Hnd)
        as (r & w1 & Hr & Hfs1 & Hnd1 & Hrm1 & Hq1).
      exists w1. unfold try_except. rewrite Hr.
      split_and!; [by destruct r as [[]|] | done | done | auto |].
      intros q. destruct (Hq1 q) as [?|(? & -> & ?)]; [by left|]. right. done. }
  rewrite Hstep.
  destruct (IH w1 Hnd1) as (w' & Hrun & Hfs & Hnd' & Hrm & Hq).
  exists w'. split; [exact Hrun|]. split; [by eapply only_fs_trans|]. split; [done|].
  assert (∀ q, Dict.get q (fs w1) = None → Dict.get q (fs w') = None) as Hgone.
  { intros q Hn. destruct (Hq q) as [->|[-> _]]; done. }
  split.
  - intros q (f0 & Hf0 & Hmain & -> & Hreg).
    apply elem_of_cons in Hf0 as [->|Hf0].
    + apply Hgone. by apply Hrm1.
    + destruct (Hq1 (abspath host (path_join "logs" f0))) as [Hsame|[Hn _]].
      * apply Hrm. exists f0. split_and!; [done..|].
        destruct Hreg as (n & Hn & Hd). exists n. by rewrite Hsame.
      * by apply Hgone.
  - intros q. destruct (Hq q) as [Hsame|[Hn (f0 & Hf0 & Hmain & -> & Hreg)]].
    + destruct (Hq1 q) as [Hsame1|(Hn1 & Hmain & -> & Hreg)].
      * left. congruence.
      * right. split; [congruence|]. exists f. split_and!; [apply list_elem_of_here|done..].
    + right. split; [done|]. exists f0.
      split_and!; [by apply list_elem_of_further | done | done |].
      destruct Hreg as (n & Hn' & Hd).
      destruct (Hq1 (abspath host (path_join "logs" f0))) as [Hsame1|[Hn1 _]].
      * exists n. by rewrite <- Hsame1.
      * congruence.
Qed.

End CleanLogs.

(** The loop returns normally in every state. *)
Lemma clean_logs_total host names :
  ∀ w, ∃ w', clean_logs host names w = (Ok tt, w') ∧ only_fs w w'.
Proof.
  induction names as [|f names IH]; intros w.
  { exists w. split; [reflexivity | apply only_fs_refl]. }
  unfold clean_logs. cbn [for_each]. fold (clean_logs host names).
  cbv beta delta [bind] iota.
  assert (∃ w1, (if negb (String.eqb f "main_bot.log")
                 then try_except (os_remove (abspath host (path_join "logs" f)))
                        (fun _ => ret tt)
                 else ret tt) w = (Ok tt, w1) ∧ only_fs w w1) as (w1 & -> & Hfs1).
  { destruct (negb (String.eqb f "main_bot.log")).
    - unfold try_except, os_remove.
      destruct (Dict.get (abspath host (path_join "logs" f)) (fs w)) as [[|c|ms]|].
      + exists w. split; [reflexivity | apply only_fs_refl].
      + eexists. split; [reflexivity | apply only_fs_set].
      + eexists. split; [reflexivity | apply only_fs_set].
      + destruct (has_below w _); exists w; (split; [reflexivity | apply only_fs_refl]).
    - exists w. split; [reflexivity | apply only_fs_refl]. }
  destruct (IH w1) as (w' & -> & Hfs).
  exists w'. split; [reflexivity | by eapply only_fs_trans].
Qed.

(** A round returns normally in every state; when the log path holds a
    regular file, the listing raises and the round changes nothing. *)
Lemma cleanup_round_total host w :
  (∃ w', cleanup_round host w = (Ok tt, w') ∧ only_fs w w')
  ∧ (regular w (abspath host "logs") → cleanup_round host w = (Ok tt, w)).
Proof.
  set (logs := abspath host "logs").
  destruct (clean_logs_total host (listing logs w) w) as (w' & Hrun & Hfs).
  unfold cleanup_round.
  set (tail := (w1 <- get_world ;;
                (if path_exists w1 (abspath host "hosted_apps") then ret tt else ret tt))).
  assert (∀ w0, tail w0 = (Ok tt, w0)) as Htail.
  { intros w0. subst tail. cbv beta delta [bind get_world] iota.
    by destruct (path_exists w0 _). }
  clearbody tail.
  unfold try_except. cbv beta delta [bind get_world] iota.
  fold logs. unfold path_exists, os_listdir, Dict.mem, regular.
  destruct (Dict.get logs (fs w)) as [n|] eqn:E.
  - destruct n as [|c|ms]; cbn [orb]; cbv beta delta [bind ret] iota; rewrite E.
    + rewrite Hrun, Htail. split; [by exists w'|].
      intros (n & [= <-] & Hn). done.
    + split; [|done]. exists w. split; [reflexivity | apply only_fs_refl].
    + split; [|done]. exists w. split; [reflexivity | apply only_fs_refl].
  - cbn [orb]. destruct (has_below w logs) eqn:Hb.
    + cbv beta delta [bind] iota. rewrite E, Hb, Hrun, Htail.
      split; [by exists w'|]. intros (n & Hn & _). discriminate Hn.
    + cbv beta delta [bind ret] iota. rewrite Htail.
      split; [|intros (n & Hn & _); discriminate Hn].
      exists w. split; [reflexivity | apply only_fs_refl].
Qed.

(** The effect of a round on a file system without duplicate entries whose
    log path is not a regular file. *)
Lemma cleanup_round_effect host w :
  NoDup (Dict.keys (fs w)) →
  ¬ regular w (abspath host "logs") →
  ∃ w', cleanup_round host w = (Ok tt, w')
    ∧ (∀ q, swept host w q → Dict.get q (fs w') = None)
    ∧ (∀ q, ¬ swept host w q → Dict.get q (fs w') = Dict.get q (fs w)).
Proof.
  intros Hnd Hlogs.
  set (logs := abspath host "logs").
  destruct (clean_logs_spec host (listing logs w) w Hnd) as (w' & Hrun & Hfs & _ & Hrm & Hq).
  assert (∀ q, swept host w q ↔
               ∃ f, f ∈ listing logs w ∧ f ≠ "main_bot.log"
                    ∧ q = abspath host (path_join "logs" f) ∧ regular w q) as Hsw.
  { intros q. unfold swept. fold logs. split; intros (f & Hf & Hm & -> & Hreg); exists f.
    - rewrite logs_path by (by eapply listing_no_slash). done.
    - rewrite logs_path in Hreg |- * by (by eapply listing_no_slash). done. }
  unfold cleanup_round.
  set (tail := (w1 <- get_world ;;
                (if path_exists w1 (abspath host "hosted_apps") then ret tt else ret tt))).
  assert (∀ w0, tail w0 = (Ok tt, w0)) as Htail.
  { intros w0. subst tail. cbv beta delta [bind get_world] iota.
    by destruct (path_exists w0 _). }
  clearbody tail.
  unfold try_except. cbv beta delta [bind get_world] iota.
  fold logs. unfold path_exists, os_listdir, Dict.mem.
  destruct (Dict.get logs (fs w)) as [n|] eqn:E.
  - destruct n as [|c|ms];
      [|exfalso; apply Hlogs; by eexists..].
    cbn [orb]. cbv beta delta [bind] iota. rewrite E, Hrun, Htail.
    exists w'. split; [done|]. split.
    + intros q Hs. apply Hrm. by apply Hsw.
    + intros q Hs. destruct (Hq q) as [?|[_ Hh]]; [done|]. exfalso. apply Hs. by apply Hsw.
  - cbn [orb]. destruct (has_below w logs) eqn:Hb.
    + cbv beta delta [bind] iota. rewrite E, Hb, Hrun, Htail.
      exists w'. split; [done|]. split.
      * intros q Hs. apply Hrm. by apply Hsw.
      * intros q Hs. destruct (Hq q) as [?|[_ Hh]]; [done|]. exfalso. apply Hs. by apply Hsw.
    + cbv beta delta [bind ret] iota. rewrite Htail.
      exists w. split; [done|]. split; [|done].
      intros q (f & Hf & _). fold logs in Hf.
      rewrite (listing_nil _ _ Hb) in Hf. by apply elem_of_nil in Hf.
Qed.

(** X16: a round of [cleanup_task] never raises and touches nothing but
    the file system, in every state.  When the log path holds a regular
    file, the listing raises, the outer handler takes over and the round
    changes nothing.  Otherwise, on a file system without duplicate
    entries, the round removes exactly the entries listed in the log
    directory that are no directories and are not [main_bot.log]; every
    other path (the main log file, the uploaded [tmp_] files, everything
    under [hosted_apps]) is as before. *)
Theorem cleanup_round_sweeps_logs_only host w :
  (∃ w', cleanup_round host w = (Ok tt, w') ∧ only_fs w w')
  ∧ (regular w (abspath host "logs") → cleanup_round host w = (Ok tt, w))
  ∧ (NoDup (Dict.keys (fs w)) → ¬ regular w (abspath host "logs") →
     let w' := snd (cleanup_round host w) in
     (∀ q, swept host w q → Dict.get q (fs w') = None)
     ∧ (∀ q, ¬ swept host w q → Dict.get q (fs w') = Dict.get q (fs w))).
Proof.
  destruct (cleanup_round_total host w) as [Htotal Hreg].
  split; [exact Htotal|]. split; [exact Hreg|].
  intros Hnd Hlogs w'.
  destruct (cleanup_round_effect host w Hnd Hlogs) as (w1 & Hrun & Hrm & Hq).
  subst w'. rewrite Hrun. cbn [snd]. split; [exact Hrm | exact Hq].
Qed.

Lemma cleanup_round_sweeps_logs_only_witness :
  let w := init_world [ ("/srv/logs/main_bot.log", File "started");
                        ("/srv/logs/old.log", File "x");
                        ("/srv/logs/archive/2023.log", File "y");
                        ("/srv/tmp_app.zip", Zip [("main.py", "print(1)")]) ] in
  let blocked := init_world [ ("/srv/logs", File "not a directory");
                              ("/srv/tmp_app.zip", Zip [("main.py", "print(1)")]) ] in
  Dict.get "/srv/logs/old.log" (fs (snd (cleanup_round demo_host w))) = None
  ∧ Dict.get "/srv/logs/main_bot.log" (fs (snd (cleanup_round demo_host w)))
    = Some (File "started")
  ∧ Dict.get "/srv/tmp_app.zip" (fs (snd (cleanup_round demo_host w)))
    = Some (Zip [("main.py", "print(1)")])
  ∧ cleanup_round demo_host blocked = (Ok tt, blocked).
Proof.
  intros w blocked.
  assert (NoDup (Dict.keys (fs w))) as Hnd.
  { assert (Dict.keys (fs w)
            = ["/srv/logs/main_bot.log"; "/srv/logs/old.log";
               "/srv/logs/archive/2023.log"; "/srv/tmp_app.zip"]) as -> by reflexivity.
    apply (bool_decide_unpack _). vm_compute. exact I. }
  assert (¬ regular w (abspath demo_host "logs")) as Hl.
  { intros (n & Hn & _). vm_compute in Hn. discriminate Hn. }
  assert (regular blocked (abspath demo_host "logs")) as Hb.
  { exists (File "not a directory"). split; [vm_compute; reflexivity | discriminate]. }
  assert (swept demo_host w "/srv/logs/old.log") as Hold.
  { exists "old.log". split_and!.
    - vm_compute. apply list_elem_of_further, list_elem_of_here.
    - discriminate.
    - vm_compute. reflexivity.
    - exists (File "x"). split; [vm_compute; reflexivity | discriminate]. }
  assert (∀ q, swept demo_host w q → q = "/srv/logs/old.log") as Honly.
  { intros q (f & Hf & Hm & -> & n & Hn & Hd).
    assert (listing (abspath demo_host "logs") w = ["main_bot.log"; "old.log"; "archive"]) as Hls
      by (vm_compute; reflexivity).
    rewrite Hls in Hf.
    apply elem_of_cons in Hf as [->|Hf]; [done|].
    apply elem_of_cons in Hf as [->|Hf]; [vm_compute; reflexivity|].
    apply elem_of_cons in Hf as [->|Hf]; [|by apply elem_of_nil in Hf].
    vm_compute in Hn. discriminate Hn. }
  assert (Dict.get "/srv/logs/main_bot.log" (fs w) = Some (File "started")) as Hm
    by (vm_compute; reflexivity).
  assert (Dict.get "/srv/tmp_app.zip" (fs w) = Some (Zip [("main.py", "print(1)")])) as Hz
    by (vm_compute; reflexivity).
  destruct (cleanup_round_sweeps_logs_only demo_host w) as (_ & _ & Heff).
  destruct (cleanup_round_sweeps_logs_only demo_host blocked) as (_ & Hblocked & _).
  destruct (Heff Hnd Hl) as [Hrm Hkeep].
  split; [exact (Hrm _ Hold)|].
  split; [rewrite Hkeep; [exact Hm | intros Hs; apply Honly in Hs; discriminate Hs]|].
  split; [rewrite Hkeep; [exact Hz | intros Hs; apply Honly in Hs; discriminate Hs]|].
  exact (Hblocked Hb).
Defined.

(** ** [Database] *)

Module DBFacts.
Import DB.
Local Open Scope Z_scope.

(** *** Users *)

Lemma find_map_same {A} (p : A → bool) (g : A → A) (l : list A) :
  (∀ x, p (g x) = p x) → List.find p (map g l) = g <$> List.find p l.
Proof.
  intros Hp. induction l as [|x l IH]; simpl; [done|].
  rewrite Hp. destruct (p x); [done|]. exact IH.
Qed.

Lemma find_app_None {A} (p : A → bool) (l : list A) x :
  List.find p l = None → List.find p (l ++ [x]) = if p x then Some x else None.
Proof.
  induction l as [|y l IH]; simpl; [done|].
  destruct (p y); [done|]. exact IH.
Qed.

Lemma get_user_Some db tid u : get_user db tid = Some u → u ∈ users db ∧ u_telegram_id u = tid.
Proof.
  unfold get_user. intros H. apply List.find_some in H as [Hin Hp].
  split; [by apply list_elem_of_In|]. by apply Z.eqb_eq.
Qed.

Lemma get_user_None db tid : get_user db tid = None → ∀ u, u ∈ users db → u_telegram_id u ≠ tid.
Proof.
  unfold get_user. intros H u Hu Ht.
  apply list_elem_of_In in Hu. pose proof (List.find_none _ _ H u Hu) as Hn.
  simpl in Hn. apply Z.eqb_neq in Hn. done.
Qed.

(** *** Lists *)

Lemma fmap_map_same {A B} (f : A → B) (g : A → A) (l : list A) :
  (∀ x, f (g x) = f x) → f <$> map g l = f <$> l.
Proof.
  intros H. induction l as [|x l IH]; [done|]. cbn [map fmap list_fmap].
  rewrite H. f_equal. exact IH.
Qed.

Lemma elem_of_map_inv {A} (g : A → A) (l : list A) y :
  y ∈ map g l → ∃ x, x ∈ l ∧ y = g x.
Proof.
  intros H. apply list_elem_of_In, List.in_map_iff in H as (x & <- & Hx).
  exists x. split; [by apply list_elem_of_In | done].
Qed.

Lemma elem_of_map_2 {A} (g : A → A) (l : list A) x : x ∈ l → g x ∈ map g l.
Proof. intros H. apply list_elem_of_In, List.in_map. by apply list_elem_of_In. Qed.

Lemma forallb_elem {A} (p : A → bool) (l : list A) x :
  forallb p l = true → x ∈ l → p x = true.
Proof. intros H Hx. rewrite forallb_forall in H. apply H. by apply list_elem_of_In. Qed.

Lemma existsb_false_elem {A} (p : A → bool) (l : list A) x :
  existsb p l = false → x ∈ l → p x = false.
Proof.
  intros H Hx. destruct (p x) eqn:E; [|done].
  assert (existsb p l = true) as Ht; [|congruence].
  apply existsb_exists. exists x. split; [by apply list_elem_of_In | done].
Qed.

Lemma sum_app {A} (f : A → Z) l1 l2 : sum f (l1 ++ l2) = sum f l1 + sum f l2.
Proof. induction l1 as [|x l1 IH]; simpl; [done|]. rewrite IH. lia. Qed.

Lemma sum_filter_snoc {A} (f : A → Z) (p : A → bool) l x :
  sum f (List.filter p (l ++ [x])) = sum f (List.filter p l) + (if p x then f x else 0).
Proof.
  rewrite List.filter_app, sum_app. simpl. destruct (p x); simpl; lia.
Qed.

Lemma filter_none {A} (p : A → bool) (l : list A) :
  (∀ x, x ∈ l → p x = false) → List.filter p l = [].
Proof.
  induction l as [|x l IH]; intros H; simpl; [done|].
  rewrite (H x (list_elem_of_here _ _)). apply IH.
  intros y Hy. apply H. by apply list_elem_of_further.
Qed.

(** A map that leaves the rows of the filter as they are. *)
Lemma filter_map_untouched {A} (p : A → bool) (g : A → A) (l : list A) :
  (∀ x, p (g x) = p x) → (∀ x, p x = true → g x = x) →
  List.filter p (map g l) = List.filter p l.
Proof.
  intros Hp Hg. induction l as [|x l IH]; simpl; [done|].
  rewrite Hp. destruct (p x) eqn:E; [|exact IH]. rewrite Hg by done. by rewrite IH.
Qed.

Lemma map_untouched {A} (g : A → A) (l : list A) :
  (∀ x, x ∈ l → g x = x) → map g l = l.
Proof.
  induction l as [|x l IH]; intros H; simpl; [done|].
  rewrite (H x (list_elem_of_here _ _)). f_equal. apply IH.
  intros y Hy. apply H. by apply list_elem_of_further.
Qed.

(** A map that bumps the one row with a given key. *)
Lemma sum_filter_bump {A K} `{EqDecision K} (key : A → K) (k : K)
    (f : A → Z) (p hit : A → bool) (bump : A → A) (delta : Z) (l : list A) :
  NoDup (key <$> l) →
  (∀ x, hit x = true ↔ key x = k) →
  (∀ x, hit x = true → p x = true) →
  (∀ x, p (bump x) = p x) →
  (∀ x, f (bump x) = f x + delta) →
  existsb hit l = true →
  sum f (List.filter p (map (fun x => if hit x then bump x else x) l))
  = sum f (List.filter p l) + delta.
Proof.
  intros Hnd Hhit Hp Hpb Hf. induction l as [|x l IH]; intros Hex; simpl in *; [done|].
  apply NoDup_cons in Hnd as [Hx Hnd].
  destruct (hit x) eqn:E.
  - rewrite Hpb, (Hp x E). simpl. rewrite Hf.
    rewrite map_untouched; [lia|].
    intros y Hy. destruct (hit y) eqn:Ey; [|done].
    exfalso. apply Hx. apply Hhit in E, Ey. rewrite E, <- Ey.
    apply list_elem_of_fmap. by exists y.
  - simpl in Hex. destruct (p x); simpl; rewrite IH by done; lia.
Qed.

(** *** The state of the tables *)

Lemma wf_empty : wf empty.
Proof.
  constructor; simpl; try apply NoDup_nil_2.
  - intros d Hd. by apply elem_of_nil in Hd.
  - intros b Hb. by apply elem_of_nil in Hb.
Qed.

Lemma consistent_same db db' :
  bots db' = bots db → daily_stats db' = daily_stats db → consistent db → consistent db'.
Proof. unfold consistent. by intros -> ->. Qed.

Lemma wf_create_user db tid kwargs rowid now :
  wf db → fresh db (CreateUser tid kwargs rowid now) = true →
  wf (fst (create_user db tid kwargs rowid now)).
Proof.
  intros [H1 H2 H3 H4 H5 H6 H7] Hfresh. unfold create_user. cbv zeta. cbn [fst].
  destruct (get_user db tid) as [u|] eqn:Hu.
  - constructor; cbn [users bots daily_stats]; try done.
    + rewrite fmap_map_same; [done|]. intros x. by destruct (_ =? _).
    + rewrite fmap_map_same; [done|]. intros x. by destruct (_ =? _).
  - constructor; cbn [users bots daily_stats]; try done.
    + rewrite fmap_app. apply NoDup_app. split_and!; [done| |apply NoDup_singleton].
      intros x Hx Hx'. cbn in Hx'. apply list_elem_of_singleton in Hx'. subst x.
      apply list_elem_of_fmap in Hx as (u & Hu1 & Hu2).
      by apply (get_user_None _ _ Hu u Hu2).
    + rewrite fmap_app. apply NoDup_app. split_and!; [done| |apply NoDup_singleton].
      intros x Hx Hx'. cbn in Hx'. apply list_elem_of_singleton in Hx'. subst x.
      apply list_elem_of_fmap in Hx as (u & Hu1 & Hu2).
      cbn [fresh] in Hfresh. pose proof (forallb_elem _ _ _ Hfresh Hu2) as Hn.
      apply negb_true_iff, Z.eqb_neq in Hn. done.
Qed.

Lemma wf_update_language db tid language : wf db → wf (update_language db tid language).
Proof.
  intros [H1 H2 H3 H4 H5 H6 H7]. unfold update_language.
  constructor; cbn [users bots daily_stats]; try done.
  - rewrite fmap_map_same; [done|]. intros x. by destruct (_ =? _).
  - rewrite fmap_map_same; [done|]. intros x. by destruct (_ =? _).
Qed.

(** A map over [bots] that keeps the ids, the tokens and the totals. *)
Lemma wf_map_bots db (g : bot_row → bot_row) :
  (∀ b, b_id (g b) = b_id b ∧ b_token (g b) = b_token b
        ∧ b_total_updates (g b) = b_total_updates b
        ∧ b_total_messages (g b) = b_total_messages b) →
  wf db → wf (Mk (users db) (map g (bots db)) (daily_stats db) (logs db)).
Proof.
  intros Hg [H1 H2 H3 H4 H5 H6 H7].
  constructor; cbn [users bots daily_stats]; try done.
  - rewrite fmap_map_same; [done|]. intros x. apply Hg.
  - rewrite fmap_map_same; [done|]. intros x. apply Hg.
  - intros d Hd. destruct (H6 d Hd) as (b & Hb & Hid).
    exists (g b). split; [by apply elem_of_map_2|]. by rewrite (proj1 (Hg b)).
  - unfold consistent. cbn [users bots daily_stats].
    intros b' Hb'. apply elem_of_map_inv in Hb' as (b & Hb & ->).
    destruct (Hg b) as (-> & _ & -> & ->). by apply H7.
Qed.

Lemma wf_add_bot db owner token name username code_path rowid now :
  wf db → fresh db (AddBot owner token name username code_path rowid now) = true →
  wf (fst (add_bot db owner token name username code_path rowid now)).
Proof.
  intros Hwf Hfresh. unfold add_bot. cbn [fst].
  destruct (get_user db owner) as [u|]; [|done].
  destruct (existsb _ (bots db)) eqn:Hex.
  - apply wf_map_bots; [|done]. intros b. by destruct (String.eqb _ _).
  - destruct Hwf as [H1 H2 H3 H4 H5 H6 H7].
    assert (∀ b, b ∈ bots db → b_id b ≠ rowid) as Hid.
    { intros b Hb. cbn [fresh] in Hfresh. pose proof (forallb_elem _ _ _ Hfresh Hb) as Hn.
      by apply negb_true_iff, Z.eqb_neq in Hn. }
    assert (List.filter (fun d => d_bot_id d =? rowid) (daily_stats db) = []) as Hnone.
    { apply filter_none. intros d Hd. destruct (H6 d Hd) as (b & Hb & Hbd).
      apply Z.eqb_neq. rewrite <- Hbd. by apply Hid. }
    constructor; cbn [users bots daily_stats]; try done.
    + rewrite fmap_app. apply NoDup_app. split_and!; [done| |apply NoDup_singleton].
      intros x Hx Hx'. cbn in Hx'. apply list_elem_of_singleton in Hx'. subst x.
      apply list_elem_of_fmap in Hx as (b & Hb1 & Hb2).
      pose proof (existsb_false_elem _ _ _ Hex Hb2) as Hn. cbn in Hn.
      apply String.eqb_neq in Hn. done.
    + rewrite fmap_app. apply NoDup_app. split_and!; [done| |apply NoDup_singleton].
      intros x Hx Hx'. cbn in Hx'. apply list_elem_of_singleton in Hx'. subst x.
      apply list_elem_of_fmap in Hx as (b & Hb1 & Hb2). by apply (Hid b).
    + intros d Hd. destruct (H6 d Hd) as (b & Hb & Hbd). exists b.
      split; [|done]. apply elem_of_app. by left.
    + unfold consistent. cbn [users bots daily_stats].
      intros b Hb. apply elem_of_app in Hb as [Hb|Hb]; [by apply H7|].
      apply list_elem_of_singleton in Hb. subst b.
      cbn [b_id b_total_updates b_total_messages]. rewrite Hnone. done.
Qed.

Lemma wf_remove_bot db token : wf db → wf (fst (remove_bot db token)).
Proof.
  intros Hwf. unfold remove_bot. cbn [fst].
  apply wf_map_bots; [|done]. intros b. by destruct (String.eqb _ _).
Qed.

Lemma wf_log db user_id action details rowid now :
  wf db → wf (log db user_id action details rowid now).
Proof.
  intros [H1 H2 H3 H4 H5 H6 H7]. unfold log.
  destruct (get_user db user_id); by constructor.
Qed.

Lemma wf_increment_stats db token is_message today rowid now :
  wf db → wf (increment_stats db token is_message today rowid now).
Proof.
  intros Hwf. unfold increment_stats.
  destruct (List.find _ (bots db)) as [bot|] eqn:Hfind; [|done].
  apply List.find_some in Hfind as [Hbot _]. apply list_elem_of_In in Hbot.
  destruct Hwf as [H1 H2 H3 H4 H5 H6 H7].
  remember (b_id bot) as bot_id eqn:Hbot_id.
  cbv zeta.
  set (h := count_one bot_id is_message now).
  set (same := same_day bot_id today).
  set (updates := if is_message then 0 else 1).
  set (messages := if is_message then 1 else 0).
  set (bump := add_counts updates messages).
  assert (∀ b, b_id (h b) = b_id b ∧ b_token (h b) = b_token b) as Hh.
  { intros b. subst h. unfold count_one. by destruct (b_id b =? bot_id). }
  assert (∀ b, b_id b = bot_id →
               b_total_updates (h b) = b_total_updates b + updates
               ∧ b_total_messages (h b) = b_total_messages b + messages) as Hh_eq.
  { intros b Heq. subst h updates messages. unfold count_one.
    rewrite (proj2 (Z.eqb_eq _ _) Heq).
    cbn [b_total_updates b_total_messages]. destruct is_message; lia. }
  assert (∀ b, b_id b ≠ bot_id → h b = b) as Hh_ne.
  { intros b Hne. subst h. unfold count_one. by rewrite (proj2 (Z.eqb_neq _ _) Hne). }
  assert (∀ d, same d = true ↔ (d_bot_id d, d_date d) = (bot_id, today)) as Hsame.
  { intros d. subst same. unfold same_day. rewrite andb_true_iff, Z.eqb_eq, String.eqb_eq.
    split; [by intros [-> ->] | by intros [= -> ->]]. }
  assert (∀ d, d_bot_id (bump d) = d_bot_id d ∧ d_date (bump d) = d_date d
               ∧ d_updates_count (bump d) = d_updates_count d + updates
               ∧ d_messages_count (bump d) = d_messages_count d + messages) as Hbump.
  { intros d. by subst bump. }
  clearbody h same bump.
  assert (∀ d, same d = true → d_bot_id d = bot_id) as Hsame_id.
  { intros d Hd. apply Hsame in Hd. by injection Hd. }
  assert (∀ d, d_bot_id (if same d then bump d else d) = d_bot_id d
               ∧ d_date (if same d then bump d else d) = d_date d) as Hg.
  { intros d. destruct (same d); [|done]. split; apply Hbump. }
  constructor; cbn [users bots daily_stats]; try done.
  - rewrite fmap_map_same; [done|]. intros x. apply Hh.
  - rewrite fmap_map_same; [done|]. intros x. apply Hh.
  - destruct (existsb same (daily_stats db)) eqn:Hex.
    + rewrite fmap_map_same; [done|]. intros d. cbv beta.
      destruct (Hg d) as [-> ->]. done.
    + rewrite fmap_app. apply NoDup_app. split_and!; [done| |apply NoDup_singleton].
      intros x Hx Hx'. cbn in Hx'. apply list_elem_of_singleton in Hx'. subst x.
      apply list_elem_of_fmap in Hx as (d & Hd1 & Hd2).
      pose proof (existsb_false_elem _ _ _ Hex Hd2) as Hn.
      assert (same d = true) as Ht by (by apply Hsame). congruence.
  - intros d Hd.
    assert (∃ b, b ∈ bots db ∧ b_id b = d_bot_id d) as (b & Hb & Hid).
    { destruct (existsb same (daily_stats db)).
      - apply elem_of_map_inv in Hd as (d0 & Hd0 & ->).
        destruct (H6 d0 Hd0) as (b & Hb & Hid). exists b. split; [done|].
        by rewrite (proj1 (Hg d0)).
      - apply elem_of_app in Hd as [Hd|Hd]; [by apply H6|].
        apply list_elem_of_singleton in Hd. subst d. exists bot. by split. }
    exists (h b). split; [by apply elem_of_map_2|]. by rewrite (proj1 (Hh b)).
  - unfold consistent. cbn [users bots daily_stats].
    intros b' Hb'. apply elem_of_map_inv in Hb' as (b & Hb & ->).
    destruct (H7 b Hb) as [Hu Hm].
    rewrite (proj1 (Hh b)).
    destruct (Z.eq_dec (b_id b) bot_id) as [Heq|Hne].
    + (* the bot of the update *)
      destruct (Hh_eq b Heq) as [-> ->].
      rewrite Heq. rewrite Heq in Hu, Hm.
      destruct (existsb same (daily_stats db)) eqn:Hex.
      * split.
        -- rewrite (sum_filter_bump (fun d => (d_bot_id d, d_date d)) (bot_id, today)
                      d_updates_count _ same bump updates); try done.
           ++ by rewrite Hu.
           ++ intros d Hd. apply Z.eqb_eq. by apply Hsame_id.
           ++ intros d. by rewrite (proj1 (Hbump d)).
           ++ intros d. apply Hbump.
        -- rewrite (sum_filter_bump (fun d => (d_bot_id d, d_date d)) (bot_id, today)
                      d_messages_count _ same bump messages); try done.
           ++ by rewrite Hm.
           ++ intros d Hd. apply Z.eqb_eq. by apply Hsame_id.
           ++ intros d. by rewrite (proj1 (Hbump d)).
           ++ intros d. apply Hbump.
      * rewrite !sum_filter_snoc. cbn [d_bot_id d_updates_count d_messages_count].
        rewrite Z.eqb_refl. lia.
    + (* another bot *)
      rewrite (Hh_ne b Hne).
      destruct (existsb same (daily_stats db)) eqn:Hex.
      * rewrite filter_map_untouched; [done| |].
        -- intros d. by rewrite (proj1 (Hg d)).
        -- intros d Hd. destruct (same d) eqn:Es; [|done].
           exfalso. apply Z.eqb_eq in Hd. apply Hsame_id in Es. congruence.
      * rewrite !sum_filter_snoc. cbn [d_bot_id].
        rewrite (proj2 (Z.eqb_neq bot_id (b_id b))) by congruence. by rewrite !Z.add_0_r.
Qed.

Lemma wf_step db a : wf db → fresh db a = true → wf (step db a).
Proof.
  intros Hwf Hf. destruct a; cbn [step].
  - by apply wf_create_user.
  - by apply wf_update_language.
  - by apply wf_add_bot.
  - by apply wf_remove_bot.
  - by apply wf_increment_stats.
  - by apply wf_log.
Qed.

Lemma wf_run ops : ∀ db, wf db → valid db ops = true → wf (run db ops).
Proof.
  induction ops as [|a ops IH]; intros db Hwf Hv; simpl in *; [done|].
  apply andb_true_iff in Hv as [Hf Hv]. apply IH; [by apply wf_step | done].
Qed.

End DBFacts.

(** X17: [create_user] on a known user refreshes the names and the last
    activity and keeps the id, the role, the creation time and the language;
    so a language set with [update_language] is the one that [get_language]
    returns after any later [create_user] (the one of every [/start]); on an
    unknown user [update_language] changes nothing and [get_language]
    answers ['en']. *)
Theorem language_survives_create_user db telegram_id language kwargs rowid now :
  (∀ u, DB.get_user db telegram_id = Some u →
     let db1 := DB.update_language db telegram_id language in
     let out := DB.create_user db1 telegram_id kwargs rowid now in
     DB.get_language db1 telegram_id = Some language
     ∧ DB.get_language (fst out) telegram_id = Some language
     ∧ snd out = Some (DB.UserRow (DB.u_id u) telegram_id
                         (DB.kwarg kwargs "username") (DB.kwarg kwargs "first_name")
                         (Some language) (DB.u_role u) (DB.u_created_at u) (Some now)
                         (DB.u_is_active u)))
  ∧ (DB.get_user db telegram_id = None →
     DB.update_language db telegram_id language = db
     ∧ DB.get_language (DB.update_language db telegram_id language) telegram_id = Some "en").
Proof.
  split.
  - intros u Hu db1 out.
    assert (DB.get_user db1 telegram_id
            = Some (DB.UserRow (DB.u_id u) (DB.u_telegram_id u) (DB.u_username u)
                      (DB.u_first_name u) (Some language) (DB.u_role u)
                      (DB.u_created_at u) (DB.u_last_active u) (DB.u_is_active u))) as H1.
    { subst db1. unfold DB.get_user, DB.update_language. cbn [DB.users].
      rewrite DBFacts.find_map_same.
      - unfold DB.get_user in Hu. rewrite Hu. cbn [fmap option_fmap option_map].
        apply List.find_some in Hu as [_ Hu]. by rewrite Hu.
      - intros x. by destruct (DB.u_telegram_id x =? telegram_id)%Z eqn:E. }
    pose proof (DBFacts.get_user_Some _ _ _ Hu) as [_ Htid].
    split; [unfold DB.get_language; by rewrite H1|].
    assert (snd out = Some (DB.UserRow (DB.u_id u) telegram_id
                         (DB.kwarg kwargs "username") (DB.kwarg kwargs "first_name")
                         (Some language) (DB.u_role u) (DB.u_created_at u) (Some now)
                         (DB.u_is_active u))) as H2.
    { subst out. unfold DB.create_user. cbv zeta. rewrite H1. cbn [snd].
      unfold DB.get_user at 1. cbn [DB.users].
      rewrite DBFacts.find_map_same.
      - fold (DB.get_user db1 telegram_id). rewrite H1.
        cbn [fmap option_fmap option_map DB.u_telegram_id DB.u_id DB.u_language DB.u_role
             DB.u_created_at DB.u_is_active].
        rewrite Htid, Z.eqb_refl. reflexivity.
      - intros x. by destruct (DB.u_telegram_id x =? telegram_id)%Z eqn:E. }
    split; [|exact H2].
    unfold DB.get_language. subst out. unfold DB.create_user in H2 |- *. cbv zeta in H2 |- *.
    cbn [fst snd] in H2 |- *. by rewrite H2.
  - intros Hn.
    assert (DB.update_language db telegram_id language = db) as ->.
    { unfold DB.update_language. destruct db as [us bs ds ls]. cbn [DB.users]. f_equal.
      pose proof (DBFacts.get_user_None _ _ Hn) as Hall. cbn [DB.users] in Hall.
      clear Hn. induction us as [|x us IH]; [done|]. cbn [map].
      rewrite (proj2 (Z.eqb_neq _ _) (Hall x (list_elem_of_here _ _))).
      f_equal. apply IH. intros u Hu. apply Hall. by apply list_elem_of_further. }
    split; [done|]. unfold DB.get_language. by rewrite Hn.
Qed.

Lemma language_survives_create_user_witness :
  let db := fst (DB.create_user DB.empty 42 [("username", Some "ann"); ("first_name", Some "Ann")]
                   1 "2024-01-01 10:00:00") in
  let db1 := DB.update_language db 42 "ar" in
  DB.get_language (fst (DB.create_user db1 42 [("first_name", Some "Ann")]
                          2 "2024-01-02 09:00:00")) 42 = Some "ar"
  ∧ DB.get_language (DB.update_language db 77 "ar") 77 = Some "en".
Proof.
  intros db db1.
  destruct (language_survives_create_user db 42 "ar" [("first_name", Some "Ann")]
              2 "2024-01-02 09:00:00") as [H1 _].
  destruct (language_survives_create_user db 77 "ar" [] 0 "") as [_ H2].
  split.
  - exact (proj1 (proj2 (H1 _ eq_refl))).
  - exact (proj2 (H2 eq_refl)).
Defined.

(** X18: in every state that calls of the database layer reach from the
    empty tables (each insertion with a rowid that is new in its table), the
    telegram ids of the users and the tokens of the bots are pairwise
    different, every row of [daily_stats] belongs to a bot, and for every bot
    [total_updates] and [total_messages] are the sums of [updates_count] and
    [messages_count] over its daily rows. *)
Theorem db_totals_match_daily_stats ops :
  DB.valid DB.empty ops = true →
  DB.wf (DB.run DB.empty ops) ∧ DB.consistent (DB.run DB.empty ops).
Proof.
  intros Hv. pose proof (DBFacts.wf_run ops DB.empty DBFacts.wf_empty Hv) as Hwf.
  split; [exact Hwf | apply (DB.wf_consistent _ Hwf)].
Qed.

Lemma db_totals_match_daily_stats_witness :
  let ops := [ DB.CreateUser 42 [("username", Some "ann")] 1 "2024-01-01 10:00:00";
               DB.AddBot 42 "123:abc" "UserApp" "demo_bot" None 1 "2024-01-01 10:01:00";
               DB.IncrementStats "123:abc" false "2024-01-01" 1 "2024-01-01 11:00:00";
               DB.IncrementStats "123:abc" true "2024-01-01" 2 "2024-01-01 11:00:05";
               DB.IncrementStats "123:abc" false "2024-01-02" 2 "2024-01-02 08:00:00" ] in
  DB.consistent (DB.run DB.empty ops)
  ∧ (DB.b_total_updates <$> DB.bots (DB.run DB.empty ops)) = [2%Z]
  ∧ (DB.d_updates_count <$> DB.daily_stats (DB.run DB.empty ops)) = [1%Z; 1%Z].
Proof.
  intros ops.
  split; [|split; vm_compute; reflexivity].
  apply (db_totals_match_daily_stats ops). vm_compute. reflexivity.
Defined.

(** *** Bots and their owners *)

Module DBOwners.
Import DB.

Lemma elem_of_insert_by_created b l x :
  x ∈ insert_by_created b l ↔ x = b ∨ x ∈ l.
Proof.
  induction l as [|y l IH]; simpl.
  - rewrite list_elem_of_singleton. rewrite elem_of_nil. tauto.
  - destruct (String.ltb _ _).
    + rewrite !elem_of_cons, IH. tauto.
    + rewrite !elem_of_cons. tauto.
Qed.

Lemma elem_of_sorted l x : x ∈ fold_right insert_by_created [] l ↔ x ∈ l.
Proof.
  induction l as [|y l IH]; simpl; [done|].
  rewrite elem_of_insert_by_created, elem_of_cons, IH. tauto.
Qed.

Lemma elem_of_get_user_bots db telegram_id b :
  b ∈ get_user_bots db telegram_id ↔
  b ∈ bots db ∧ b_is_active b = true
  ∧ ∃ u, u ∈ users db ∧ u_telegram_id u = telegram_id ∧ b_owner_id b = u_id u.
Proof.
  unfold get_user_bots. rewrite elem_of_sorted.
  rewrite list_elem_of_In, List.filter_In, <- list_elem_of_In.
  rewrite andb_true_iff, existsb_exists.
  split.
  - intros (Hb & (u & Hu & Hm) & Ha). apply andb_true_iff in Hm as [Ho Ht].
    apply Z.eqb_eq in Ho, Ht. split; [done|]. split; [done|].
    exists u. split; [by apply list_elem_of_In | done].
  - intros (Hb & Ha & u & Hu & Ht & Ho). split; [done|]. split; [|done].
    exists u. split; [by apply list_elem_of_In|].
    apply andb_true_iff. split; by apply Z.eqb_eq.
Qed.

Lemma users_unique db u1 u2 :
  NoDup (u_telegram_id <$> users db) →
  u1 ∈ users db → u2 ∈ users db → u_telegram_id u1 = u_telegram_id u2 → u1 = u2.
Proof.
  intros Hnd H1 H2 Ht. revert Hnd H1 H2.
  induction (users db) as [|x l IH]; intros Hnd H1 H2.
  { by apply elem_of_nil in H1. }
  cbn [fmap list_fmap] in Hnd. apply NoDup_cons in Hnd as [Hx Hnd].
  apply elem_of_cons in H1 as [->|H1]; apply elem_of_cons in H2 as [->|H2]; auto.
  - exfalso. apply Hx. rewrite Ht. apply list_elem_of_fmap. by exists u2.
  - exfalso. apply Hx. rewrite <- Ht. apply list_elem_of_fmap. by exists u1.
Qed.

Lemma bots_unique db b1 b2 :
  NoDup (b_token <$> bots db) →
  b1 ∈ bots db → b2 ∈ bots db → b_token b1 = b_token b2 → b1 = b2.
Proof.
  intros Hnd H1 H2 Ht. revert Hnd H1 H2.
  induction (bots db) as [|x l IH]; intros Hnd H1 H2.
  { by apply elem_of_nil in H1. }
  cbn [fmap list_fmap] in Hnd. apply NoDup_cons in Hnd as [Hx Hnd].
  apply elem_of_cons in H1 as [->|H1]; apply elem_of_cons in H2 as [->|H2]; auto.
  - exfalso. apply Hx. rewrite Ht. apply list_elem_of_fmap. by exists b2.
  - exfalso. apply Hx. rewrite <- Ht. apply list_elem_of_fmap. by exists b1.
Qed.

End DBOwners.

(** X19: [add_bot] for a token that is already in the table never inserts
    and never changes the owner: the row of the token keeps its id, owner,
    name, creation time and counters, becomes active again and takes the new
    username and code path; so a caller who is not the owner does not find
    the bot among their own bots.  For a telegram id that is not in [users]
    nothing is stored, and the answer is still [(True, "SUCCESS")]. *)
Theorem add_bot_keeps_first_owner db caller token name username code_path rowid now :
  DB.wf db →
  (∀ b u, b ∈ DB.bots db → DB.b_token b = token →
     DB.get_user db caller = Some u →
     let db' := fst (DB.add_bot db caller token name username code_path rowid now) in
     let b' := DB.BotRow (DB.b_id b) (DB.b_owner_id b) token (DB.b_name b) username
                 code_path (DB.b_type b) (DB.b_port b) true (DB.b_created_at b)
                 (DB.b_last_update b) (DB.b_total_updates b) (DB.b_total_messages b) in
     b' ∈ DB.bots db'
     ∧ (∀ x, x ∈ DB.bots db' → DB.b_token x = token → x = b')
     ∧ length (DB.bots db') = length (DB.bots db)
     ∧ (DB.u_id u ≠ DB.b_owner_id b →
        ∀ x, x ∈ DB.get_user_bots db' caller → DB.b_token x ≠ token))
  ∧ (DB.get_user db caller = None →
     DB.add_bot db caller token name username code_path rowid now
     = (db, (true, "SUCCESS"))).
Proof.
  intros Hwf. split.
  2: { intros Hn. unfold DB.add_bot. by rewrite Hn. }
  intros b u Hb Htok Hu db' b'.
  assert (existsb (fun x => String.eqb (DB.b_token x) token) (DB.bots db) = true) as Hex.
  { apply existsb_exists. exists b. split; [by apply list_elem_of_In|].
    by apply String.eqb_eq. }
  set (g := fun x : DB.bot_row =>
              if String.eqb (DB.b_token x) token
              then DB.BotRow (DB.b_id x) (DB.b_owner_id x) (DB.b_token x) (DB.b_name x)
                     username code_path (DB.b_type x) (DB.b_port x) true
                     (DB.b_created_at x) (DB.b_last_update x) (DB.b_total_updates x)
                     (DB.b_total_messages x)
              else x).
  assert (DB.bots db' = map g (DB.bots db)) as Hbots.
  { subst db'. unfold DB.add_bot. rewrite Hu, Hex. reflexivity. }
  assert (DB.users db' = DB.users db) as Husers.
  { subst db'. unfold DB.add_bot. rewrite Hu, Hex. reflexivity. }
  assert (g b = b') as Hgb.
  { subst g b'. cbv beta. rewrite (proj2 (String.eqb_eq _ _) Htok). by rewrite Htok. }
  assert (∀ x, DB.b_token (g x) = DB.b_token x) as Hgt.
  { intros x. subst g. cbv beta. by destruct (String.eqb _ _). }
  assert (∀ x, x ∈ DB.bots db' → DB.b_token x = token → x = b') as Huniq.
  { intros x Hx Hxt. rewrite Hbots in Hx.
    apply DBFacts.elem_of_map_inv in Hx as (x0 & Hx0 & ->).
    rewrite Hgt in Hxt.
    rewrite (DBOwners.bots_unique db x0 b (DB.wf_tokens _ Hwf) Hx0 Hb) by congruence.
    exact Hgb. }
  split_and!.
  - rewrite Hbots, <- Hgb. by apply DBFacts.elem_of_map_2.
  - exact Huniq.
  - by rewrite Hbots, length_map.
  - intros Hne x Hx Hxt.
    apply DBOwners.elem_of_get_user_bots in Hx as (Hx & _ & u' & Hu' & Ht' & Ho).
    rewrite (Huniq x Hx Hxt) in Ho. subst b'. cbn [DB.b_owner_id] in Ho.
    apply DBFacts.get_user_Some in Hu as [Hu Ht].
    rewrite Husers in Hu'.
    rewrite (DBOwners.users_unique db u' u (DB.wf_telegram_ids _ Hwf) Hu' Hu) in Ho
      by congruence.
    congruence.
Qed.

Lemma add_bot_keeps_first_owner_witness :
  let db := DB.run DB.empty
              [ DB.CreateUser 42 [("username", Some "ann")] 1 "2024-01-01 10:00:00";
                DB.CreateUser 77 [("username", Some "bob")] 2 "2024-01-01 10:00:30";
                DB.AddBot 42 "123:abc" "UserApp" "demo_bot" None 1 "2024-01-01 10:01:00";
                DB.IncrementStats "123:abc" false "2024-01-01" 1 "2024-01-01 11:00:00";
                DB.RemoveBot "123:abc" ] in
  let db' := fst (DB.add_bot db 77 "123:abc" "UserApp" "demo_bot" (Some "/srv/tmp_bot.py")
                    2 "2024-01-03 09:00:00") in
  DB.get_user_bots db' 77 = []
  ∧ (DB.b_total_updates <$> DB.get_user_bots db' 42) = [1%Z]
  ∧ DB.add_bot db 99 "9:z" "UserApp" "other_bot" None 2 "2024-01-03 09:00:00"
    = (db, (true, "SUCCESS")).
Proof.
  intros db db'.
  assert (DB.get_user_bots db' 77 = []) as H1 by (vm_compute; reflexivity).
  assert ((DB.b_total_updates <$> DB.get_user_bots db' 42) = [1%Z]) as H2
    by (vm_compute; reflexivity).
  assert (DB.get_user db 99 = None) as H3 by (vm_compute; reflexivity).
  assert (DB.wf db) as Hwf.
  { apply DBFacts.wf_run; [apply DBFacts.wf_empty | vm_compute; reflexivity]. }
  clearbody db'. clearbody db.
  destruct (add_bot_keeps_first_owner db 99 "9:z" "UserApp" "other_bot" None 2
              "2024-01-03 09:00:00" Hwf) as [_ H].
  split; [exact H1|]. split; [exact H2|]. exact (H H3).
Defined.

(** X20: [get_user_bots] returns exactly the active bots whose owner is the
    user with the telegram id; after [remove_bot] no bot with the removed
    token is listed for anybody, and after [add_bot] by a known user with a
    token that is new to the table the bot is listed for that user. *)
Theorem get_user_bots_lists_active_owned db telegram_id :
  (∀ b, b ∈ DB.get_user_bots db telegram_id ↔
        b ∈ DB.bots db ∧ DB.b_is_active b = true
        ∧ ∃ u, u ∈ DB.users db ∧ DB.u_telegram_id u = telegram_id
               ∧ DB.b_owner_id b = DB.u_id u)
  ∧ (∀ token b, b ∈ DB.get_user_bots (fst (DB.remove_bot db token)) telegram_id →
                DB.b_token b ≠ token)
  ∧ (∀ token name username code_path rowid now u,
       DB.get_user db telegram_id = Some u →
       (∀ b, b ∈ DB.bots db → DB.b_token b ≠ token) →
       DB.BotRow rowid (DB.u_id u) token name username code_path "bot" None true now None 0 0
       ∈ DB.get_user_bots
           (fst (DB.add_bot db telegram_id token name username code_path rowid now))
           telegram_id).
Proof.
  split_and!.
  - intros b. apply DBOwners.elem_of_get_user_bots.
  - intros token b Hb Ht.
    apply DBOwners.elem_of_get_user_bots in Hb as (Hb & Ha & _).
    unfold DB.remove_bot in Hb. cbn [fst DB.bots] in Hb.
    apply DBFacts.elem_of_map_inv in Hb as (b0 & _ & ->).
    destruct (String.eqb (DB.b_token b0) token) eqn:E; [done|].
    apply String.eqb_neq in E. done.
  - intros token name username code_path rowid now u Hu Hnew.
    apply DBOwners.elem_of_get_user_bots.
    assert (existsb (fun x => String.eqb (DB.b_token x) token) (DB.bots db) = false) as Hex.
    { destruct (existsb _ _) eqn:E; [|done]. apply existsb_exists in E as (x & Hx & Hxt).
      apply String.eqb_eq in Hxt. apply list_elem_of_In in Hx. by destruct (Hnew x Hx). }
    unfold DB.add_bot. rewrite Hu, Hex. cbn [fst DB.bots DB.users].
    split; [apply elem_of_app; right; apply list_elem_of_here|].
    split; [done|].
    apply DBFacts.get_user_Some in Hu as [Hu Ht]. by exists u.
Qed.

Lemma get_user_bots_lists_active_owned_witness :
  let db := DB.run DB.empty
              [ DB.CreateUser 42 [("username", Some "ann")] 1 "2024-01-01 10:00:00";
                DB.AddBot 42 "123:abc" "UserApp" "demo_bot" None 1 "2024-01-01 10:01:00" ] in
  DB.BotRow 2 1 "456:def" "ContactBot" "other_bot" None "bot" None true
    "2024-01-02 10:01:00" None 0 0
  ∈ DB.get_user_bots
      (fst (DB.add_bot db 42 "456:def" "ContactBot" "other_bot" None 2 "2024-01-02 10:01:00"))
      42
  ∧ (DB.b_token <$> DB.get_user_bots
       (fst (DB.add_bot db 42 "456:def" "ContactBot" "other_bot" None 2
               "2024-01-02 10:01:00")) 42) = ["456:def"; "123:abc"].
Proof.
  intros db.
  assert (DB.get_user db 42
          = Some (DB.UserRow 1 42 (Some "ann") None (Some "en") "user"
                    "2024-01-01 10:00:00" None true)) as Hu by (vm_compute; reflexivity).
  assert (DB.b_token <$> DB.bots db = ["123:abc"]) as Hb by (vm_compute; reflexivity).
  split; [|vm_compute; reflexivity].
  clearbody db.
  destruct (get_user_bots_lists_active_owned db 42) as (_ & _ & H).
  apply (H "456:def" "ContactBot" "other_bot" None 2%Z "2024-01-02 10:01:00" _ Hu).
  intros b Hin Ht.
  assert (DB.b_token b ∈ DB.b_token <$> DB.bots db) as Hin'
    by (apply list_elem_of_fmap; by exists b).
  rewrite Hb, Ht in Hin'. apply list_elem_of_singleton in Hin'. discriminate Hin'.
Defined.

(** ** [process_remove_select] *)

(** X21: [process_remove_select] never looks at who owns the bot: in every
    reachable state, when an active bot has the username, the handler
    unregisters the token of the first such bot (the record is gone and its
    process is stopped), whoever the sender is.  When no other active bot
    has the username, the bot is then deactivated in the database and the
    sender is answered, the sender deciding the language of the answer
    only.  When another active bot has the username (every site has the
    username [website]), the cursor of the selection is still open, the
    commit of [remove_bot] fails with "database is locked" and the handler
    raises: the bot has left the registry and is still active in the
    database. *)
Theorem remove_select_ignores_ownership host w db username row :
  reachable host w →
  active_by_username db username = Some row →
  let token := DB.b_token row in
  let w' := snd (unregister token w) in
  let db' := fst (DB.remove_bot db token) in
  lookup_bot w' token = None
  ∧ (∀ r pid, lookup_bot w token = Some r → process_of r = Some (VProc pid) →
       Terminate pid ∈ calls w' ∧ is_running w' pid = false)
  ∧ (cursor_open db username = false →
     (∀ sender, ∃ answer,
        process_remove_select username sender db w = (Ok (db', Some answer), w'))
     ∧ (∀ b, b ∈ DB.bots db' → DB.b_token b = token → DB.b_is_active b = false))
  ∧ (cursor_open db username = true →
     (∀ sender,
        process_remove_select username sender db w
        = (Raise (OperationalError "database is locked"), w'))
     ∧ row ∈ DB.bots db ∧ DB.b_is_active row = true).
Proof.
  intros Hreach Hrow token w' db'. apply reachable_inv in Hreach.
  destruct (unregister_returns token w Hreach) as [ok Hok].
  pose proof (lookup_bot_unregister token w token Hreach) as Hlk.
  pose proof (unregister_effect token w Hreach) as (_ & _ & Hstop & _).
  fold w' in Hlk, Hstop.
  assert (unregister token w = (Ok ok, w')) as Hun.
  { subst w'. destruct (unregister token w) as [r w1]. simpl in Hok. by subst r. }
  assert (∀ s, process_remove_select username s db w
               = match remove_bot_beside (cursor_open db username) db token with
                 | Ok (d, _) =>
                     (Ok (d, Some (I18n.get "bot_removed" (DB.get_language db s) [])), w')
                 | Raise e => (Raise e, w')
                 end) as Hcall.
  { intros s. unfold process_remove_select. rewrite Hrow.
    cbv beta delta [bind] iota zeta. fold token. rewrite Hun.
    by destruct (remove_bot_beside _ _ _) as [[d b]|e]. }
  split; [rewrite Hlk; by case_decide|]. split; [exact Hstop|]. split.
  - intros Hfree. split.
    + intros sender. eexists. rewrite Hcall, Hfree. reflexivity.
    + intros b Hb Ht. subst db'. unfold DB.remove_bot in Hb. cbn [fst DB.bots] in Hb.
      apply DBFacts.elem_of_map_inv in Hb as (b0 & _ & ->).
      destruct (String.eqb (DB.b_token b0) token) eqn:E; [done|].
      apply String.eqb_neq in E. done.
  - intros Hbusy. split.
    + intros sender. rewrite Hcall, Hbusy. reflexivity.
    + unfold active_by_username in Hrow. apply List.find_some in Hrow as [Hin Hact].
      apply andb_true_iff in Hact as [_ Hact].
      split; [by apply list_elem_of_In | exact Hact].
Qed.

Lemma remove_select_ignores_ownership_witness :
  let stamp := "2024-01-01 10:00:00" in
  let w := run demo_host (init_world [])
             [ Register "siteA" "UserApp" None None true fine;
               Register "siteB" "UserApp" None None true fine ] in
  let one := DB.run DB.empty
               [ DB.CreateUser 42 [("username", Some "ann")] 1 stamp;
                 DB.AddBot 42 "siteA" "UserApp" "website" None 1 stamp ] in
  let two := DB.run one [ DB.AddBot 42 "siteB" "UserApp" "website" None 2 stamp ] in
  let w' := snd (unregister "siteA" w) in
  DB.get_user one 77 = None
  ∧ (∃ answer,
       process_remove_select "website" 77 one w
       = (Ok (fst (DB.remove_bot one "siteA"), Some answer), w'))
  ∧ DB.get_user_bots (fst (DB.remove_bot one "siteA")) 42 = []
  ∧ process_remove_select "website" 77 two w
    = (Raise (OperationalError "database is locked"), w')
  ∧ lookup_bot w' "siteA" = None
  ∧ DB.b_token <$> DB.get_user_bots two 42 = ["siteA"; "siteB"].
Proof.
  intros stamp w one two w'.
  assert (reachable demo_host w) as Hreach by (by eexists [], _).
  set (rowA := DB.BotRow 1 1 "siteA" "UserApp" "website" None "bot" None true stamp None 0 0).
  assert (active_by_username one "website" = Some rowA) as H1 by (vm_compute; reflexivity).
  assert (active_by_username two "website" = Some rowA) as H2 by (vm_compute; reflexivity).
  assert (cursor_open one "website" = false) as Hfree by (vm_compute; reflexivity).
  assert (cursor_open two "website" = true) as Hbusy by (vm_compute; reflexivity).
  assert (DB.get_user one 77 = None) as Hu by (vm_compute; reflexivity).
  assert (DB.get_user_bots (fst (DB.remove_bot one "siteA")) 42 = []) as Hl
    by (vm_compute; reflexivity).
  assert (DB.b_token <$> DB.get_user_bots two 42 = ["siteA"; "siteB"]) as Hk
    by (vm_compute; reflexivity).
  subst w'. clearbody w. clearbody two. clearbody one.
  destruct (remove_select_ignores_ownership demo_host w one "website" rowA Hreach H1)
    as (Hgone & _ & Hone & _).
  destruct (remove_select_ignores_ownership demo_host w two "website" rowA Hreach H2)
    as (_ & _ & _ & Htwo).
  split; [exact Hu|]. split; [exact (proj1 (Hone Hfree) 77%Z)|]. split; [exact Hl|].
  split; [exact (proj1 (Htwo Hbusy) 77%Z)|]. split; [exact Hgone | exact Hk].
Defined.

(** ** [Database.get_global_stats] *)

Module DBGlobal.
Import DB.
Local Open Scope Z_scope.

Lemma top_spec (l : list bot_row) b :
  top l = Some b →
  b ∈ l ∧ ∀ b', b' ∈ l → b_total_updates b' <= b_total_updates b.
Proof.
  revert b. induction l as [|x l IH]; intros b H; [discriminate H|].
  cbn [top] in H. destruct (top l) as [m|] eqn:Hm.
  - destruct (IH m eq_refl) as [Hin Hmax].
    destruct (Z.ltb_spec (b_total_updates x) (b_total_updates m)) as [Hlt|Hge];
      injection H as <-.
    + split; [by apply list_elem_of_further|].
      intros b' Hb'. apply elem_of_cons in Hb' as [->|Hb']; [lia | by apply Hmax].
    + split; [apply list_elem_of_here|].
      intros b' Hb'. apply elem_of_cons in Hb' as [->|Hb']; [lia|].
      specialize (Hmax b' Hb'). lia.
  - injection H as <-. split; [apply list_elem_of_here|].
    destruct l as [|y l]; [|cbn [top] in Hm; by destruct (top l); [destruct (_ <? _)|]].
    intros b' Hb'. apply elem_of_cons in Hb' as [->|Hb']; [lia|].
    by apply elem_of_nil in Hb'.
Qed.

Lemma sum_map_same {A} (f : A → Z) (g : A → A) (l : list A) :
  (∀ x, f (g x) = f x) → sum f (map g l) = sum f l.
Proof.
  intros H. induction l as [|x l IH]; [done|]. cbn [map sum fold_right].
  rewrite H. f_equal. exact IH.
Qed.

Lemma active_after_removal (db : t) token :
  List.filter b_is_active (bots (fst (remove_bot db token)))
  = List.filter (fun b => b_is_active b && negb (String.eqb (b_token b) token)) (bots db).
Proof.
  unfold remove_bot. cbn [fst bots].
  induction (bots db) as [|x l IH]; [done|]. cbn [map List.filter].
  destruct (String.eqb (b_token x) token) eqn:E.
  - cbn [b_is_active]. rewrite andb_false_r. exact IH.
  - rewrite andb_true_r. destruct (b_is_active x); [by rewrite IH | exact IH].
Qed.

End DBGlobal.

(** X22: removing a bot leaves the global totals as they are, because the
    sums of updates and messages run over all rows of [bots], active or
    not; only the number of bots can drop.  The top bot reported afterwards
    is an active bot with another token, and no such bot has more
    updates. *)
Theorem global_stats_after_removal (db : DB.t) (token : string) :
  let before := DB.get_global_stats db in
  let after := DB.get_global_stats (fst (DB.remove_bot db token)) in
  DB.total_users after = DB.total_users before
  ∧ DB.total_updates after = DB.total_updates before
  ∧ DB.total_messages after = DB.total_messages before
  ∧ (DB.total_bots after <= DB.total_bots before)%Z
  ∧ ∀ name n, DB.top_bot after = Some (name, n) →
      ∃ b, b ∈ DB.bots db ∧ DB.b_is_active b = true ∧ DB.b_token b ≠ token
           ∧ DB.b_name b = name ∧ DB.b_total_updates b = n
           ∧ ∀ b', b' ∈ DB.bots db → DB.b_is_active b' = true → DB.b_token b' ≠ token →
                   (DB.b_total_updates b' <= n)%Z.
Proof.
  intros before after. subst before after. unfold DB.get_global_stats.
  rewrite DBGlobal.active_after_removal.
  cbn [DB.total_users DB.total_updates DB.total_messages DB.total_bots DB.top_bot].
  assert (∀ b, b ∈ List.filter
                 (fun b => DB.b_is_active b && negb (String.eqb (DB.b_token b) token))
                 (DB.bots db)
               ↔ b ∈ DB.bots db ∧ DB.b_is_active b = true ∧ DB.b_token b ≠ token) as Hmem.
  { intros b. rewrite list_elem_of_In, List.filter_In, <- list_elem_of_In.
    rewrite andb_true_iff, negb_true_iff, String.eqb_neq. tauto. }
  split; [reflexivity|]. split.
  { unfold DB.remove_bot. cbn [fst DB.bots]. apply DBGlobal.sum_map_same.
    intros x. by destruct (String.eqb _ _). }
  split.
  { unfold DB.remove_bot. cbn [fst DB.bots]. apply DBGlobal.sum_map_same.
    intros x. by destruct (String.eqb _ _). }
  split.
  { apply Nat2Z.inj_le.
    set (l := DB.bots db). clearbody l. induction l as [|x l IH]; [done|].
    cbn [List.filter]. destruct (DB.b_is_active x); cbn [andb].
    - destruct (negb _); cbn [length]; lia.
    - exact IH. }
  intros name n Htop.
  destruct (DB.top _) as [b|] eqn:Hb; [|discriminate Htop].
  injection Htop as <- <-.
  destruct (DBGlobal.top_spec _ _ Hb) as [Hin Hmax].
  apply Hmem in Hin as (Hin & Hact & Hne).
  exists b. split_and!; try done.
  intros b' Hb' Hact' Hne'. apply Hmax, Hmem. done.
Qed.

(** ** Start-up and the uploaded documents *)

(** The staging of a Python document whose directories exist. *)
Lemma stage_copy_written host token cp w text :
  cp ≠ "" → Str.endswith cp ".zip" = false → Str.endswith cp ".py" = true →
  is_dir w (abspath host "hosted_apps") →
  is_dir w (target_dir_of host token) →
  Dict.get cp (fs w) = Some (File text) →
  ¬ is_dir w (path_join (target_dir_of host token) "main.py") →
  ∃ staged w1,
    stage host token None (Some cp) w = (Ok staged, w1)
    ∧ Dict.get (path_join (target_dir_of host token) "main.py") (fs w1)
      = Some (File text).
Proof.
  intros Hcp Hzip Hpy Hd1 Hd2 Hf Hnd. unfold stage.
  rewrite (truthy_Some cp Hcp).
  change (Str.truthy None) with false.
  cbn [negb andb default from_option id]. rewrite Hzip, Hpy.
  unfold is_dir in Hd1, Hd2, Hnd.
  unfold bind at 1. unfold makedirs at 1. rewrite Hd1.
  unfold bind at 1. unfold makedirs at 1. rewrite Hd2.
  change (Str.truthy None) with false. cbv iota.
  unfold bind at 1. unfold copy, bind, get_world. rewrite Hf.
  set (entry := path_join (target_dir_of host token) "main.py") in *.
  assert (write_node entry (File text) w
          = (Ok tt, set_fs (Dict.set entry (File text)) w)) as Hw.
  { unfold write_node. by destruct (Dict.get entry (fs w)) as [[]|]. }
  assert (match Dict.get entry (fs w) with
          | Some Dir => write_node (path_join entry (Str.basename cp)) (File text)
          | _ => write_node entry (File text)
          end w = (Ok tt, set_fs (Dict.set entry (File text)) w)) as ->.
  { by destruct (Dict.get entry (fs w)) as [[]|]. }
  eexists _, _. split; [reflexivity|]. simpl. apply get_set_eq.
Qed.

(** X23: a row with a stored [code_path] is staged from whatever that path
    holds at start-up, not from what its owner uploaded: when the token
    check passes, the path names a Python file with the text [text] and the
    working directory of the token exists, the [main.py] of the token holds
    [text] after [load_bots].  The path is [tmp_<file name>], so a later
    upload of a document with the same file name, by anybody, decides it. *)
Theorem startup_stages_upload_as_found host bot_data o w code_path text u :
  row_code_path bot_data = Some code_path →
  code_path ≠ "" →
  Str.endswith code_path ".zip" = false →
  Str.endswith code_path ".py" = true →
  check_token false o = TokenOk u →
  let entry := path_join (target_dir_of host (row_token bot_data)) "main.py" in
  is_dir w (abspath host "hosted_apps") →
  is_dir w (target_dir_of host (row_token bot_data)) →
  ¬ is_dir w entry →
  Dict.get code_path (fs w) = Some (File text) →
  Dict.get entry (fs (snd (load_bots host [(bot_data, o)] w))) = Some (File text).
Proof.
  intros Hrow Hcp Hzip Hpy Hc entry Hd1 Hd2 Hnd Hf.
  rewrite load_bots_run. simpl. rewrite Hrow.
  destruct (stage_copy_written host (row_token bot_data) code_path w text
              Hcp Hzip Hpy Hd1 Hd2 Hf Hnd) as (staged & w1 & Hst & Hw).
  fold entry in Hw.
  destruct (register_cases host (row_token bot_data) (row_name bot_data) None
              (Some code_path) false o w)
    as [Hk|e Hk|u' e w1' Hk Hst'|u' staged' w1' Hk Hst' Hn|u' staged' w1' e Hk Hst' Hn Hs
        |u' entry' rt w1' coop Hk Hst' Hne Hs]; simpl;
    try congruence;
    rewrite Hst in Hst'; injection Hst' as _ <-; try exact Hw.
Qed.

Lemma startup_stages_upload_as_found_witness :
  let w := run demo_host (init_world [])
             [ Upload (Some "123:abc") (Message (Some ("bot.py", File "print(1)")) None) fine;
               Upload (Some "456:def") (Message (Some ("bot.py", File "print(2)")) None) fine ] in
  let tmp := abspath demo_host "tmp_bot.py" in
  let row := BotRow "123:abc" "UserApp" "demo_bot" (Some tmp) in
  let entry := path_join (target_dir_of demo_host "123:abc") "main.py" in
  Dict.get entry (fs w) = Some (File "print(1)")
  ∧ Dict.get entry (fs (snd (load_bots demo_host [(row, fine)] w))) = Some (File "print(2)").
Proof.
  intros w tmp row entry.
  assert (Dict.get entry (fs w) = Some (File "print(1)")) as He by (vm_compute; reflexivity).
  assert (Dict.get tmp (fs w) = Some (File "print(2)")) as Hf by (vm_compute; reflexivity).
  assert (is_dir w (abspath demo_host "hosted_apps")) as Hd1 by (vm_compute; reflexivity).
  assert (is_dir w (target_dir_of demo_host "123:abc")) as Hd2 by (vm_compute; reflexivity).
  assert (tmp ≠ "") as Hne by (vm_compute; discriminate).
  assert (Str.endswith tmp ".zip" = false) as Hzip by (vm_compute; reflexivity).
  assert (Str.endswith tmp ".py" = true) as Hpy by (vm_compute; reflexivity).
  assert (¬ is_dir w entry) as Hnd by (unfold is_dir; rewrite He; discriminate).
  subst row entry. clearbody w. clearbody tmp.
  split; [exact He|].
  exact (startup_stages_upload_as_found demo_host (BotRow "123:abc" "UserApp" "demo_bot" (Some tmp))
           fine w tmp "print(2)" "demo_bot" eq_refl Hne Hzip Hpy eq_refl Hd1 Hd2 Hnd Hf).
Defined.
